(** * hotpot.geometry.primiary: a shallow embedding of the geometry core

    The Python module [src/hotpot/geometry/primiary.py] builds points,
    vectors, segments, surfaces and boxes out of three coordinate arrays
    and a handful of NumPy / TensorFlow calls.  The embedding keeps that
    shape:

    - a coordinate array is a one-dimensional sequence of scalars together
      with the kind of Python object that holds it (a list, a
      [numpy.ndarray] or a TensorFlow eager tensor), because the source
      branches on [isinstance(_, np.ndarray)] and Python's operators
      dispatch on the operand classes;
    - scalars are an interface ([Scalar], [Trig]): the same code is read
      over IEEE-754 binary32 / binary64 (the standard library's [SpecFloat]
      specification, which computes) and over the real numbers (the exact
      arithmetic the floating-point code approximates).  The [dtype] of an
      array is not tracked: arithmetic is the arithmetic of the instance;
    - every call that can raise returns in the [result] monad, and the
      exceptions are those of the Python run time ([AttributeError],
      [IndexError], [TypeError]), of NumPy ([ValueError]) and of TensorFlow
      ([InvalidArgumentError]);
    - the class of an object ([Cartesian3] or its subclass [Vector]) is a
      field, since [fmap] rebuilds through [self.__class__]. *)

From Stdlib Require Import String.
From Stdlib Require Import List ZArith Bool Arith Lia.
From Stdlib Require Import Reals Lra.
From Stdlib Require Import Floats.SpecFloat.
Import ListNotations.

Set Implicit Arguments.

(** ** Exceptions and the result monad *)

Inductive exn : Type :=
| AttributeError (cls attr : string)
| IndexError
| TypeError
| ValueError
| InvalidArgumentError.

Inductive result (T : Type) : Type :=
| Ok (v : T)
| Raise (e : exn).

Arguments Ok {T} v.
Arguments Raise {T} e.

Definition bind {T U : Type} (c : result T) (k : T -> result U) : result U :=
  match c with
  | Ok v => k v
  | Raise e => Raise e
  end.

Declare Scope py_scope.
Delimit Scope py_scope with py.
Notation "x <- c ;; k" := (bind c (fun x => k))
  (at level 61, c at next level, right associativity) : py_scope.
Open Scope py_scope.

(** Attribute lookup on a class object: [names] is the class namespace
    (every name bound in the class body), [binding] what the name is bound
    to when it is there. *)
Definition class_getattr {T : Type} (cls : string) (names : list string)
    (attr : string) (binding : T) : result T :=
  if existsb (String.eqb attr) names then Ok binding
  else Raise (AttributeError cls attr).

(** A Python sequence indexed by a literal position. *)
Definition getitem {T : Type} (l : list T) (i : nat) : result T :=
  match nth_error l i with
  | Some v => Ok v
  | None => Raise IndexError
  end.

(** ** Scalars *)

Class Scalar (A : Type) : Type := {
  of_Z : Z -> A;              (* a Python integer or integral float literal *)
  add : A -> A -> A;
  sub : A -> A -> A;
  mul : A -> A -> A;
  div : A -> A -> A;
  opp : A -> A;
  sqrt : A -> A;
  float32 : A -> A            (* the cast of [np.array(_, dtype=np.float32)] *)
}.

Class Trig (A : Type) : Type := {
  sin : A -> A;
  cos : A -> A;
  atan2 : A -> A -> A;
  pi : A                      (* [np.pi] *)
}.

(** ** Arrays *)

Inductive container : Type := PyList | NdArray | Tensor.

Record array (A : Type) : Type := mkArray {
  kind : container;
  data : list A
}.

(** A rank-2 array, row major; [tf.stack] and [np.matmul] produce them. *)
Record matrix (A : Type) : Type := mkMatrix {
  mkind : container;
  rows : list (list A)
}.

Fixpoint zip_with {A B C : Type} (f : A -> B -> C) (l : list A) (m : list B)
    : list C :=
  match l, m with
  | a :: l', b :: m' => f a b :: zip_with f l' m'
  | _, _ => []
  end.

Definition is_ndarray {A : Type} (a : array A) : bool :=
  match kind a with NdArray => true | _ => false end.

Definition is_pylist {A : Type} (a : array A) : bool :=
  match kind a with PyList => true | _ => false end.

Section Arrays.
Context {A : Type} `{Scalar A}.

(** Broadcasting of two one-dimensional operands, as NumPy and TensorFlow
    both do it: equal lengths pair up, a length-one operand is repeated,
    anything else is refused. *)
Definition broadcast (op : A -> A -> A) (a b : list A) : option (list A) :=
  if Nat.eqb (length a) (length b) then Some (zip_with op a b)
  else match a, b with
       | [a0], _ => Some (map (op a0) b)
       | _, [b0] => Some (map (fun u => op u b0) a)
       | _, _ => None
       end.

(** A NumPy binary ufunc ([np.add], [np.subtract], [np.divide]): the
    operands are converted to arrays, the result is an [ndarray]. *)
Definition np_ufunc (op : A -> A -> A) (a b : array A) : result (array A) :=
  match broadcast op (data a) (data b) with
  | Some l => Ok (mkArray NdArray l)
  | None => Raise ValueError
  end.

Definition np_add := np_ufunc add.
Definition np_subtract := np_ufunc sub.
Definition np_divide := np_ufunc div.

(** A TensorFlow elementwise binary op: the result is a tensor. *)
Definition tf_binary (op : A -> A -> A) (a b : array A) : result (array A) :=
  match broadcast op (data a) (data b) with
  | Some l => Ok (mkArray Tensor l)
  | None => Raise InvalidArgumentError
  end.

(** The Python operators [-], [*], [/] between two array-like objects.
    A tensor operand wins ([__array_priority__]), then an [ndarray];
    two plain lists support none of them. *)
Definition py_binary (op : A -> A -> A) (a b : array A) : result (array A) :=
  match kind a, kind b with
  | Tensor, _ | _, Tensor => tf_binary op a b
  | PyList, PyList => Raise TypeError
  | _, _ => np_ufunc op a b
  end.

(** The Python operators [+], [/] between an array-like object and a
    number: a list supports neither. *)
Definition py_scalar (op : A -> A -> A) (a : array A) (s : A)
    : result (array A) :=
  match kind a with
  | PyList => Raise TypeError
  | k => Ok (mkArray k (map (fun u => op u s) (data a)))
  end.

(** Unary TensorFlow ops ([tf.square], [tf.sqrt], [tf.math.sin], ...). *)
Definition tf_unary (f : A -> A) (a : array A) : array A :=
  mkArray Tensor (map f (data a)).

Definition tf_square := tf_unary (fun u => mul u u).
Definition tf_sqrt := tf_unary sqrt.

(** [tf.constant(a)] and [tf.convert_to_tensor(a, dtype=tf.float64)]. *)
Definition tf_constant (a : array A) : array A := mkArray Tensor (data a).

(** [t.numpy()] *)
Definition numpy (a : array A) : array A := mkArray NdArray (data a).

(** [tf.stack(l, axis=0)]: all the operands must have one shape. *)
Definition same_length (l : list (array A)) : bool :=
  match l with
  | [] => true
  | a :: l' =>
      forallb (fun b => Nat.eqb (length (data b)) (length (data a))) l'
  end.

Definition tf_stack (l : list (array A)) : result (matrix A) :=
  match l with
  | [] => Raise ValueError
  | _ => if same_length l then Ok (mkMatrix Tensor (map (@data A) l))
         else Raise InvalidArgumentError
  end.

(** [m[i]] on a rank-2 array: a row, of the kind of [m].  Past the last
    row a tensor raises TensorFlow's [InvalidArgumentError] (the index is a
    strided slice), a list or an [ndarray] Python's [IndexError]. *)
Definition row (m : matrix A) (i : nat) : result (array A) :=
  match nth_error (rows m) i with
  | Some r => Ok (mkArray (mkind m) r)
  | None => match mkind m with
            | Tensor => Raise InvalidArgumentError
            | _ => Raise IndexError
            end
  end.

(** [tf.reduce_sum(m, axis=0)]: the column sums, rows added in order. *)
Definition sum_rows (rs : list (list A)) : list A :=
  match rs with
  | [] => []
  | r :: rs' => fold_left (zip_with add) rs' r
  end.

Definition tf_reduce_sum_axis0 (m : matrix A) : array A :=
  mkArray Tensor (sum_rows (rows m)).

(** [np.matmul(m, M)]: row [i] of the product is the combination of the
    rows of [M] with the coefficients of row [i] of [m]; the inner
    dimensions must agree. *)
Definition lincomb (coeffs : list A) (M : list (list A)) : list A :=
  sum_rows (zip_with (fun c r => map (mul c) r) coeffs M).

Definition np_matmul (m M : matrix A) : result (matrix A) :=
  if forallb (fun r => Nat.eqb (length r) (length (rows M))) (rows m)
  then Ok (mkMatrix NdArray (map (fun r => lincomb r (rows M)) (rows m)))
  else Raise ValueError.

(** [tf.concat(ms, axis=1)]: rows are appended side by side; the row
    counts must agree, and the op refuses an empty list of operands. *)
Definition tf_concat_axis1 (ms : list (matrix A)) : result (matrix A) :=
  match ms with
  | [] => Raise InvalidArgumentError
  | m0 :: ms' =>
      if forallb (fun m => Nat.eqb (length (rows m)) (length (rows m0))) ms'
      then Ok (mkMatrix Tensor
                 (fold_left (fun acc m => zip_with (@app A) acc (rows m))
                            ms' (rows m0)))
      else Raise InvalidArgumentError
  end.

(** [_convert_type_if_not_nparray] *)
Definition _convert_type_if_not_nparray (an_array : array A) : array A :=
  if negb (is_ndarray an_array)
  then mkArray NdArray (map float32 (data an_array))
  else an_array.

(** [np.concatenate(l, axis=0)] on one-dimensional operands: one array,
    the operands end to end; the sequence must not be empty. *)
Definition np_concatenate (l : list (array A)) : result (array A) :=
  match l with
  | [] => Raise ValueError
  | _ => Ok (mkArray NdArray (List.concat (map (@data A) l)))
  end.

(** [m[:, j]]: entry [j] of every row.  A Python list takes no tuple
    index; the result has the kind of [m].  A rank-2 array is its list of
    rows, so an array without rows has no column count here: [column] of
    it is the empty array whatever [j]. *)
Fixpoint column_data (rs : list (list A)) (j : nat) : result (list A) :=
  match rs with
  | [] => Ok []
  | r :: rs' => v <- getitem r j ;; vs <- column_data rs' j ;; Ok (v :: vs)
  end.

Definition column (m : matrix A) (j : nat) : result (array A) :=
  match mkind m with
  | PyList => Raise TypeError
  | k => c <- column_data (rows m) j ;; Ok (mkArray k c)
  end.

(** [tf.split(value, num, axis=0)]: [num] tensors of equal length, in
    order; the length must be a multiple of [num]. *)
Fixpoint chunks (k count : nat) (l : list A) : list (list A) :=
  match count with
  | O => []
  | S c => firstn k l :: chunks k c (skipn k l)
  end.

Definition tf_split (value : array A) (num : nat) : result (list (array A)) :=
  let n := length (data value) in
  if Nat.eqb (n mod num) 0
  then Ok (map (mkArray Tensor) (chunks (n / num) num (data value)))
  else Raise InvalidArgumentError.

End Arrays.

(** ** Objects *)

(** [Vector] is the one subclass of [Cartesian3]; both store [x], [y], [z]. *)
Inductive pyclass : Type := Cartesian3_cls | Vector_cls.

(** An instance of [Cartesian3] or of [Vector]: its class and the three
    attributes [__init__] sets. *)
Record point3 (A : Type) : Type := mkPoint3 {
  cls : pyclass;
  x : array A;
  y : array A;
  z : array A
}.

(** An instance of [Spherical]. *)
Record spherical (A : Type) : Type := mkSpherical {
  r : array A;
  theta : array A;
  phi : array A
}.

(** The right operand of [Cartesian3.__truediv__]: a number or an array. *)
Inductive operand (A : Type) : Type :=
| Num (s : A)
| Arr (a : array A).

Arguments Num {A} s.
Arguments Arr {A} a.

(** The number of points of each coordinate, as [__repr__] prints it. *)
Definition size {A : Type} (p : point3 A) : nat * nat * nat :=
  (length (data (x p)), length (data (y p)), length (data (z p))).

(** A point whose three coordinates all have [n] entries. *)
Definition has_size {A : Type} (p : point3 A) (n : nat) : Prop :=
  size p = (n, n, n).

(** The points of a batch, one triple per index. *)
Definition points {A : Type} (p : point3 A) : list (A * A * A) :=
  zip_with (fun a bc => (a, fst bc, snd bc))
           (data (x p)) (combine (data (y p)) (data (z p))).

Module Cartesian3.
Section Cartesian3.
Context {A : Type} `{Scalar A} `{Trig A}.

(** Every name the class body binds (lines 21-203 of the source). *)
Definition namespace : list string :=
  [ "__init__"; "fmap"; "hmap"; "op_zip"; "from_xyz"; "from_tuple3s";
    "from_matrix"; "local_pos_from_hits"; "pos_from_hits";
    "source_from_hits"; "__repr__"; "__add__"; "__sub__"; "__mul__";
    "__truediv__"; "divide"; "move"; "concat"; "rotate_ypr";
    "left_matmul"; "distance_to"; "to_matrix"; "to_tensor";
    "to_spherical"; "to_plotly"; "to_plotly_as_mesh3d"; "view" ]%string.

Definition __init__ (x y z : array A) : point3 A :=
  mkPoint3 Cartesian3_cls x y z.

(** [Vector.__init__]: each coordinate goes through
    [tf.convert_to_tensor(_, dtype=tf.float64)].  With the [dtype] not
    tracked the values are kept as they are: this is the conversion in the
    binary64 instance and over the reals, where it changes no value. *)
Definition Vector__init__ (x y z : array A) : point3 A :=
  mkPoint3 Vector_cls (tf_constant x) (tf_constant y) (tf_constant z).

(** [self.__class__(x=.., y=.., z=..)] *)
Definition construct (c : pyclass) : array A -> array A -> array A -> point3 A :=
  match c with
  | Cartesian3_cls => __init__
  | Vector_cls => Vector__init__
  end.

Definition fmap (self : point3 A) (func : array A -> result (array A))
    : result (point3 A) :=
  x' <- func (x self) ;;
  y' <- func (y self) ;;
  z' <- func (z self) ;;
  Ok (construct (cls self) x' y' z').

Definition from_xyz (x y z : array A) : result (point3 A) :=
  fmap (__init__ x y z) (fun a => Ok (_convert_type_if_not_nparray a)).

(** [self.__class__.from_xyz]: a static method of the base class, which
    [Vector] inherits as it is. *)
Definition class_from_xyz (c : pyclass)
    : array A -> array A -> array A -> result (point3 A) :=
  match c with
  | Cartesian3_cls => from_xyz
  | Vector_cls => from_xyz
  end.

Definition op_zip (self other : point3 A)
    (op : array A -> array A -> result (array A)) : result (point3 A) :=
  x' <- op (x self) (x other) ;;
  y' <- op (y self) (y other) ;;
  z' <- op (z self) (z other) ;;
  class_from_xyz (cls self) x' y' z'.

Definition from_matrix (m : matrix A) : result (point3 A) :=
  x' <- row m 0 ;;
  y' <- row m 1 ;;
  z' <- row m 2 ;;
  from_xyz x' y' z'.

Definition __add__ (self other : point3 A) : result (point3 A) :=
  op_zip self other np_add.

Definition __sub__ (self other : point3 A) : result (point3 A) :=
  op_zip self other np_subtract.

Definition py_truediv (a : array A) (other : operand A) : result (array A) :=
  match other with
  | Num s => py_scalar div a s
  | Arr b => py_binary div a b
  end.

Definition __truediv__ (self : point3 A) (other : operand A)
    : result (point3 A) :=
  x' <- py_truediv (x self) other ;;
  y' <- py_truediv (y self) other ;;
  z' <- py_truediv (z self) other ;;
  Ok (__init__ x' y' z').

Definition divide (self other : point3 A) : result (point3 A) :=
  op_zip self other np_divide.

Definition move (self : point3 A) (by_vector : list A) : result (point3 A) :=
  b0 <- getitem by_vector 0 ;;
  x' <- py_scalar add (x self) b0 ;;
  b1 <- getitem by_vector 1 ;;
  y' <- py_scalar add (y self) b1 ;;
  b2 <- getitem by_vector 2 ;;
  z' <- py_scalar add (z self) b2 ;;
  Ok (__init__ x' y' z').

Definition to_matrix (self : point3 A) : result (matrix A) :=
  tf_stack [x self; y self; z self].

Definition to_tensor (self : point3 A) : result (matrix A) :=
  tf_stack [tf_constant (x self); tf_constant (y self); tf_constant (z self)].

Definition left_matmul (self : point3 A) (m : matrix A) : result (point3 A) :=
  M <- to_matrix self ;;
  result <- np_matmul m M ;;
  from_matrix result.

Definition rotation_matrix_x (angle : A) : matrix A :=
  mkMatrix Tensor
    [ [of_Z 1; of_Z 0; of_Z 0];
      [of_Z 0; cos angle; opp (sin angle)];
      [of_Z 0; sin angle; cos angle] ].

Definition rotation_matrix_y (angle : A) : matrix A :=
  mkMatrix Tensor
    [ [cos angle; of_Z 0; sin angle];
      [of_Z 0; of_Z 1; of_Z 0];
      [opp (sin angle); of_Z 0; cos angle] ].

Definition rotation_matrix_z (angle : A) : matrix A :=
  mkMatrix Tensor
    [ [cos angle; opp (sin angle); of_Z 0];
      [sin angle; cos angle; of_Z 0];
      [of_Z 0; of_Z 0; of_Z 1] ].

Definition rotate_ypr (self : point3 A) (rv_ypr : list A) : result (point3 A) :=
  a0 <- getitem rv_ypr 0 ;;
  p1 <- left_matmul self (rotation_matrix_x a0) ;;
  a1 <- getitem rv_ypr 1 ;;
  p2 <- left_matmul p1 (rotation_matrix_y a1) ;;
  a2 <- getitem rv_ypr 2 ;;
  left_matmul p2 (rotation_matrix_z a2).

Definition distance_to (self other : point3 A) : result (array A) :=
  diff <- __sub__ self other ;;
  t <- to_tensor diff ;;
  Ok (tf_sqrt
        (tf_reduce_sum_axis0
           (mkMatrix Tensor (map (map (fun u => mul u u)) (rows t))))).

(** [sum([a, b, c])] is Python's [((0 + a) + b) + c]. *)
Definition py_sum3 (a b c : array A) : result (array A) :=
  s0 <- Ok (mkArray Tensor (map (fun u => add (of_Z 0) u) (data a))) ;;
  s1 <- tf_binary add s0 b ;;
  tf_binary add s1 c.

Definition to_spherical (self : point3 A) : result (spherical A) :=
  s <- py_sum3 (tf_square (x self)) (tf_square (y self)) (tf_square (z self)) ;;
  r' <- Ok (tf_sqrt s) ;;
  theta' <- tf_binary atan2 (y self) (x self) ;;
  h <- tf_binary add (tf_square (x self)) (tf_square (y self)) ;;
  phi' <- tf_binary atan2 (tf_sqrt h) (z self) ;;
  Ok (mkSpherical r' theta' phi').

(** [np.multiply(x, op_num)]: by a number or by an array. *)
Definition np_multiply (a : array A) (op_num : operand A) : result (array A) :=
  match op_num with
  | Num s => Ok (mkArray NdArray (map (fun u => mul u s) (data a)))
  | Arr b => np_ufunc mul a b
  end.

Definition __mul__ (self : point3 A) (op_num : operand A) : result (point3 A) :=
  let mul_num := fun x => np_multiply x op_num in
  fmap self mul_num.

Definition concat (self other : point3 A) : result (point3 A) :=
  x' <- np_concatenate [x self; x other] ;;
  y' <- np_concatenate [y self; y other] ;;
  z' <- np_concatenate [z self; z other] ;;
  class_from_xyz (cls self) x' y' z'.

Definition from_tuple3s (TPs : matrix A) : result (point3 A) :=
  x' <- column TPs 0 ;;
  y' <- column TPs 1 ;;
  z' <- column TPs 2 ;;
  from_xyz x' y' z'.

End Cartesian3.
End Cartesian3.

Module Spherical.
Section Spherical.
Context {A : Type} `{Scalar A} `{Trig A}.

Definition to_cartesian (self : spherical A) : result (point3 A) :=
  rs <- py_binary mul (r self) (tf_unary sin (phi self)) ;;
  x' <- py_binary mul rs (tf_unary cos (theta self)) ;;
  rs' <- py_binary mul (r self) (tf_unary sin (phi self)) ;;
  y' <- py_binary mul rs' (tf_unary sin (theta self)) ;;
  z' <- py_binary mul (r self) (tf_unary cos (phi self)) ;;
  Ok (Cartesian3.__init__ x' y' z').

End Spherical.
End Spherical.

Module Vector.
Section Vector.
Context {A : Type} `{Scalar A}.

Definition __init__ (x y z : array A) : point3 A :=
  Cartesian3.Vector__init__ x y z.

Definition dot (self other : point3 A) : result (point3 A) :=
  x' <- py_binary mul (x self) (x other) ;;
  y' <- py_binary mul (y self) (y other) ;;
  z' <- py_binary mul (z self) (z other) ;;
  Ok (__init__ x' y' z').

Definition cross (self other : point3 A) : result (point3 A) :=
  yz <- py_binary mul (y self) (z other) ;;
  zy <- py_binary mul (z self) (y other) ;;
  x' <- py_binary sub yz zy ;;
  zx <- py_binary mul (z self) (x other) ;;
  xz <- py_binary mul (x self) (z other) ;;
  y' <- py_binary sub zx xz ;;
  xy <- py_binary mul (x self) (y other) ;;
  yx <- py_binary mul (y self) (x other) ;;
  z' <- py_binary sub xy yx ;;
  Ok (__init__ x' y' z').

Definition norm (self : point3 A) : result (array A) :=
  t <- tf_stack [tf_square (x self); tf_square (y self); tf_square (z self)] ;;
  Ok (tf_sqrt (tf_reduce_sum_axis0 t)).

Definition unit (self : point3 A) : result (point3 A) :=
  n <- norm self ;;
  x' <- py_binary div (x self) n ;;
  n <- norm self ;;
  y' <- py_binary div (y self) n ;;
  n <- norm self ;;
  z' <- py_binary div (z self) n ;;
  Ok (__init__ x' y' z').

End Vector.
End Vector.

Record segment (A : Type) : Type := mkSegment {
  fst_pt : point3 A;   (* [self.fst] *)
  snd_pt : point3 A    (* [self.snd] *)
}.

Module Segment.
Section Segment.
Context {A : Type} `{Scalar A}.

Definition seg_length (self : segment A) : result (array A) :=
  Cartesian3.distance_to (fst_pt self) (snd_pt self).

Definition direct_vector (self : segment A) : result (point3 A) :=
  d <- Cartesian3.__sub__ (fst_pt self) (snd_pt self) ;;
  Cartesian3.fmap d
    (fun i => l <- seg_length self ;; py_binary div i (numpy l)).

Definition middle_point (self : segment A) : result (point3 A) :=
  s <- Cartesian3.__add__ (fst_pt self) (snd_pt self) ;;
  Cartesian3.__truediv__ s (Num (of_Z 2)).

End Segment.
End Segment.

Record surface (A : Type) : Type := mkSurface {
  vertices : point3 A
}.

Module Surface.
Section Surface.
Context {A : Type} `{Scalar A} `{Trig A}.

(** What [Cartesian3.from_tuple] would be bound to.  The class body binds
    no such name ([Cartesian3.namespace]), so the lookup in [move] decides
    before the binding is ever used. *)
Variable from_tuple : list A -> result (point3 A).

Definition from_xy_size (x_length y_length : A) : surface A :=
  let vertex_x := mkArray Tensor
    [ div x_length (of_Z 2); div x_length (of_Z 2);
      div (opp x_length) (of_Z 2); div (opp x_length) (of_Z 2) ] in
  let vertex_y := mkArray Tensor
    [ div y_length (of_Z 2); div (opp y_length) (of_Z 2);
      div y_length (of_Z 2); div (opp y_length) (of_Z 2) ] in
  let vertex_z := mkArray Tensor [of_Z 0; of_Z 0; of_Z 0; of_Z 0] in
  mkSurface (Cartesian3.__init__ vertex_x vertex_y vertex_z).

Definition move (self : surface A) (move_vector : list A) : result (surface A) :=
  f <- class_getattr "Cartesian3" Cartesian3.namespace "from_tuple" from_tuple ;;
  d <- f move_vector ;;
  v <- Cartesian3.__add__ (vertices self) d ;;
  Ok (mkSurface v).

Definition rotate_ypr (self : surface A) (rv_ypr : list A) : result (surface A) :=
  v <- Cartesian3.rotate_ypr (vertices self) rv_ypr ;;
  Ok (mkSurface v).

End Surface.
End Surface.

Record box (A : Type) : Type := mkBox {
  surface_list : list (surface A)   (* [self.surface] *)
}.

Fixpoint map_result {T U : Type} (f : T -> result U) (l : list T)
    : result (list U) :=
  match l with
  | [] => Ok []
  | t :: l' => u <- f t ;; us <- map_result f l' ;; Ok (u :: us)
  end.

Module Box.
Section Box.
Context {A : Type} `{Scalar A} `{Trig A}.
Variable from_tuple : list A -> result (point3 A).

Definition from_size (x y z : A) : result (box A) :=
  let half := fun u => div u (of_Z 2) in
  let o := of_Z 0 in
  s1 <- Surface.move from_tuple (Surface.from_xy_size x y) [o; o; half z] ;;
  s2 <- Surface.move from_tuple (Surface.from_xy_size x y) [o; o; half (opp z)] ;;
  s3 <- (t <- Surface.rotate_ypr (Surface.from_xy_size x z) [half pi; o; o] ;;
         Surface.move from_tuple t [o; half y; o]) ;;
  s4 <- (t <- Surface.rotate_ypr (Surface.from_xy_size x z) [half pi; o; o] ;;
         Surface.move from_tuple t [o; half (opp y); o]) ;;
  s5 <- (t <- Surface.rotate_ypr (Surface.from_xy_size y z) [o; o; half pi] ;;
         t' <- Surface.rotate_ypr t [o; half pi; o] ;;
         Surface.move from_tuple t' [half x; o; o]) ;;
  s6 <- (t <- Surface.rotate_ypr (Surface.from_xy_size y z) [o; o; half pi] ;;
         t' <- Surface.rotate_ypr t [o; half pi; o] ;;
         Surface.move from_tuple t' [half (opp x); o; o]) ;;
  Ok (mkBox [s1; s2; s3; s4; s5; s6]).

Definition vertices (self : box A) : result (point3 A) :=
  ts <- map_result (fun s : surface A => Cartesian3.to_tensor (vertices s))
                   (surface_list self) ;;
  m <- tf_concat_axis1 ts ;;
  Cartesian3.from_matrix m.

Definition from_vertices_of_surface (vs : point3 A) : result (box A) :=
  xs <- tf_split (x vs) 6 ;;
  ys <- tf_split (y vs) 6 ;;
  zs <- tf_split (z vs) 6 ;;
  Ok (mkBox
        (zip_with (fun cx yz => mkSurface (Cartesian3.__init__ cx (fst yz) (snd yz)))
                  xs (combine ys zs))).

Definition move (self : box A) (move_vector : list A) : result (box A) :=
  v <- vertices self ;;
  f <- class_getattr "Cartesian3" Cartesian3.namespace "from_tuple" from_tuple ;;
  d <- f move_vector ;;
  s <- Cartesian3.__add__ v d ;;
  from_vertices_of_surface s.

Definition rotate_ypr (self : box A) (rv_ypr : list A) : result (box A) :=
  v <- vertices self ;;
  v' <- Cartesian3.rotate_ypr v rv_ypr ;;
  from_vertices_of_surface v'.

End Box.
End Box.

(** ** Module-level helpers *)

(** [s[0::2]]: every second item from the first on. *)
Fixpoint every_other {T : Type} (l : list T) : list T :=
  match l with
  | [] => []
  | a :: l' => a :: match l' with
                    | [] => []
                    | _ :: l'' => every_other l''
                    end
  end.

(** [raw_df[0::2], raw_df[1::2]], the rows of the frame as a list. *)
Definition split_raw_df_into_even_odd_pairs {T : Type} (raw_df : list T)
    : list T * list T :=
  (every_other raw_df, every_other (tl raw_df)).

(** The rows of two frames taken in turn, the first frame first; what is
    left of the longer one follows. *)
Fixpoint interleave {T : Type} (l m : list T) : list T :=
  match l, m with
  | a :: l', b :: m' => a :: b :: interleave l' m'
  | _, _ => l ++ m
  end.

(** ** Scalar instances *)

(** *** IEEE-754 binary floating point

    [fp prec emax] carries a [spec_float] of the format with [prec] bits of
    mantissa and infinities at exponent [emax]; the operations are those of
    the standard library's specification, rounding to nearest even. *)
Inductive fp (prec emax : Z) : Type := Fp (v : spec_float).

Arguments Fp {prec emax} v.

Definition fp_val {prec emax : Z} (u : fp prec emax) : spec_float :=
  match u with Fp v => v end.

Definition float32_type : Type := fp 24 128.
Definition float64_type : Type := fp 53 1024.

(** Rounding of a value of any format to the format [prec], [emax]. *)
Definition round_to (prec emax : Z) (v : spec_float) : spec_float :=
  match v with
  | S754_finite s m e => binary_round prec emax s m e
  | _ => v
  end.

#[export] Instance fp_Scalar (prec emax : Z) : Scalar (fp prec emax) := {
  of_Z n := Fp (binary_normalize prec emax n 0 false);
  add a b := Fp (SFadd prec emax (fp_val a) (fp_val b));
  sub a b := Fp (SFsub prec emax (fp_val a) (fp_val b));
  mul a b := Fp (SFmul prec emax (fp_val a) (fp_val b));
  div a b := Fp (SFdiv prec emax (fp_val a) (fp_val b));
  opp a := Fp (SFopp (fp_val a));
  sqrt a := Fp (SFsqrt prec emax (fp_val a));
  float32 a := Fp (round_to 24 128 (fp_val a))
}.

(** Neither a finite number nor a zero: an infinity or a NaN. *)
Definition non_finite {prec emax : Z} (u : fp prec emax) : bool :=
  match fp_val u with
  | S754_infinity _ | S754_nan => true
  | _ => false
  end.

Definition is_zero {prec emax : Z} (u : fp prec emax) : bool :=
  match fp_val u with
  | S754_zero _ => true
  | _ => false
  end.

(** *** Real numbers: the exact arithmetic behind the floating-point code *)

(** The two-argument arctangent, with the conventions of [atan2] in C,
    NumPy and TensorFlow: the angle of the point [(x, y)] in (-PI, PI]. *)
Definition R_atan2 (y x : R) : R :=
  if Rlt_dec 0 x then atan (y / x)
  else if Rlt_dec x 0 then
         if Rle_dec 0 y then atan (y / x) + PI else atan (y / x) - PI
       else if Rlt_dec 0 y then PI / 2
            else if Rlt_dec y 0 then - (PI / 2)
                 else 0.

#[export] Instance R_Scalar : Scalar R := {
  of_Z := IZR;
  add := Rplus;
  sub := Rminus;
  mul := Rmult;
  div := Rdiv;
  opp := Ropp;
  sqrt := R_sqrt.sqrt;
  float32 a := a
}.

#[export] Instance R_Trig : Trig R := {
  sin := Rtrigo_def.sin;
  cos := Rtrigo_def.cos;
  atan2 := R_atan2;
  pi := PI
}.

(** ** Sample values *)

(** A Python list of integers, read in the scalar type at hand. *)
Definition pylist {A : Type} `{Scalar A} (l : list Z) : array A :=
  mkArray PyList (map of_Z l).

Definition ndarray {A : Type} `{Scalar A} (l : list Z) : array A :=
  mkArray NdArray (map of_Z l).

(** One point, two points and three points, as [ndarray] coordinates. *)
Definition one_point {A : Type} `{Scalar A} : point3 A :=
  Cartesian3.__init__ (ndarray [1%Z]) (ndarray [2%Z]) (ndarray [3%Z]).

Definition two_points {A : Type} `{Scalar A} : point3 A :=
  Cartesian3.__init__ (ndarray [10%Z; 20%Z]) (ndarray [30%Z; 40%Z])
                      (ndarray [50%Z; 60%Z]).

Definition three_points {A : Type} `{Scalar A} : point3 A :=
  Cartesian3.__init__ (ndarray [1%Z; 2%Z; 3%Z]) (ndarray [4%Z; 5%Z; 6%Z])
                      (ndarray [7%Z; 8%Z; 9%Z]).

(** The segment from (0, 0, 0) to (0, 0, 10): its end points built from
    Python lists by [from_xyz], which makes float32 arrays of them. *)
Definition segment_0_10 {A : Type} `{Scalar A} : result (segment A) :=
  fst_pt <- Cartesian3.from_xyz (pylist [0%Z]) (pylist [0%Z]) (pylist [0%Z]) ;;
  snd_pt <- Cartesian3.from_xyz (pylist [0%Z]) (pylist [0%Z]) (pylist [10%Z]) ;;
  Ok (mkSegment fst_pt snd_pt).

(** The same segment on end points that are arrays already (float64
    arrays, say), which [from_xyz] would leave as they are. *)
Definition segment_0_10_nd {A : Type} `{Scalar A} : segment A :=
  mkSegment
    (Cartesian3.__init__ (ndarray [0%Z]) (ndarray [0%Z]) (ndarray [0%Z]))
    (Cartesian3.__init__ (ndarray [0%Z]) (ndarray [0%Z]) (ndarray [10%Z])).

(** The norm of a vector, entry by entry, as [Vector.norm] computes it. *)
Definition norm_data {A : Type} `{Scalar A} (lx ly lz : list A) : list A :=
  map sqrt
    (zip_with add
       (zip_with add (map (fun u => mul u u) lx) (map (fun u => mul u u) ly))
       (map (fun u => mul u u) lz)).

(** Entry [i] of an array is an infinity or a NaN. *)
Definition non_finite_at {prec emax : Z} (a : array (fp prec emax)) (i : nat)
    : Prop :=
  exists u, nth_error (data a) i = Some u /\ non_finite u = true.

Definition zero_at {prec emax : Z} (a : array (fp prec emax)) (i : nat) : Prop :=
  exists u, nth_error (data a) i = Some u /\ is_zero u = true.

(** A binary operation applied to the three coordinates of two points. *)
Definition pointwise3 {A : Type} (op : A -> A -> A) (u v : A * A * A)
    : A * A * A :=
  let '(ux, uy, uz) := u in
  let '(vx, vy, vz) := v in
  (op ux vx, op uy vy, op uz vz).

(** ** Rotations, as the specification words them

    A rotation is the product of a 3x3 matrix with the column of one point;
    [Rx], [Ry], [Rz] are the standard rotation matrices about the three
    axes.  These definitions follow the specification and are compared with
    [Cartesian3.rotate_ypr] below. *)

Definition vec3 (A : Type) : Type := (A * A * A)%type.
Definition mat3 (A : Type) : Type := (vec3 A * vec3 A * vec3 A)%type.

Section Rotations.
Context {A : Type} `{Scalar A} `{Trig A}.

Definition dot3 (u v : vec3 A) : A :=
  let '(a, b, c) := u in
  let '(px, py, pz) := v in
  add (add (mul a px) (mul b py)) (mul c pz).

Definition mat_vec (m : mat3 A) (v : vec3 A) : vec3 A :=
  let '(r0, r1, r2) := m in (dot3 r0 v, dot3 r1 v, dot3 r2 v).

Definition Rx (a : A) : mat3 A :=
  ( (of_Z 1, of_Z 0, of_Z 0),
    (of_Z 0, cos a, opp (sin a)),
    (of_Z 0, sin a, cos a) ).

Definition Ry (a : A) : mat3 A :=
  ( (cos a, of_Z 0, sin a),
    (of_Z 0, of_Z 1, of_Z 0),
    (opp (sin a), of_Z 0, cos a) ).

Definition Rz (a : A) : mat3 A :=
  ( (cos a, opp (sin a), of_Z 0),
    (sin a, cos a, of_Z 0),
    (of_Z 0, of_Z 0, of_Z 1) ).

(** The rows of a 3x3 matrix as a rank-2 array holds them. *)
Definition mat3_rows (m : mat3 A) : list (list A) :=
  let '((a00, a01, a02), (a10, a11, a12), (a20, a21, a22)) := m in
  [ [a00; a01; a02]; [a10; a11; a12]; [a20; a21; a22] ].

End Rotations.

(** The point (1, 0, 0). *)
Definition unit_x_point {A : Type} `{Scalar A} : point3 A :=
  Cartesian3.__init__ (ndarray [1%Z]) (ndarray [0%Z]) (ndarray [0%Z]).

(** ** Spherical points *)

(** The triples (r, theta, phi) of a batch, one per index. *)
Definition sph_points {A : Type} (s : spherical A) : list (vec3 A) :=
  zip_with (fun a bc => (a, fst bc, snd bc))
           (data (r s)) (combine (data (theta s)) (data (phi s))).

Definition sph_size {A : Type} (s : spherical A) : nat * nat * nat :=
  (length (data (r s)), length (data (theta s)), length (data (phi s))).

(** The Cartesian coordinates of one spherical point, as the specification
    words them. *)
Definition cartesian_of {A : Type} `{Scalar A} `{Trig A} (v : vec3 A) : vec3 A :=
  let '(r0, t, p) := v in
  (mul (mul r0 (sin p)) (cos t), mul (mul r0 (sin p)) (sin t), mul r0 (cos p)).

(** The spherical coordinates of one point, as the specification words
    them (the sum of squares is Python's [sum], which starts from 0). *)
Definition spherical_of {A : Type} `{Scalar A} `{Trig A} (v : vec3 A) : vec3 A :=
  let '(px, py, pz) := v in
  (sqrt (add (add (add (of_Z 0) (mul px px)) (mul py py)) (mul pz pz)),
   atan2 py px,
   atan2 (sqrt (add (mul px px) (mul py py))) pz).

(** Where the round trip is the identity: a positive radius, the azimuth
    in (-PI, PI], the polar angle strictly between the poles. *)
Definition in_round_trip_domain (v : vec3 R) : Prop :=
  let '(r0, t, p) := v in
  (0 < r0 /\ (- PI < t /\ t <= PI) /\ (0 < p /\ p < PI))%R.

(** A point on the equator at radius 1 whose azimuth is a full turn. *)
Definition full_turn_point : spherical R :=
  mkSpherical (mkArray Tensor [1%R]) (mkArray Tensor [(2 * PI)%R])
              (mkArray Tensor [(PI / 2)%R]).

(** *** The round trip in double precision

    TensorFlow's sine, cosine and arctangent are those of the C math
    library.  The embedding keeps them abstract ([Trig]) and records the
    few values the example below goes through. *)

(** The power of two [2^e] as a binary64 number. *)
Definition pow2 (e : Z) : float64_type :=
  Fp (binary_normalize 53 1024 1 e false).

(** The binary64 number [+0.0]. *)
Definition fp_zero : float64_type := Fp (S754_zero false).

(** A binary64 number that is finite and greater than zero. *)
Definition positive_finite (u : float64_type) : Prop :=
  exists (m : positive) (e : Z), fp_val u = S754_finite false m e.

(** What a math library gives at the arguments of the example:
    sin(2^-300) = 2^-300 and cos(2^-300) = 1 (the correctly rounded
    values), sin(1) and cos(1) finite and positive, and
    atan2(+0, +0) = atan2(+0, x) = +0 for x > 0 (IEEE 754, C Annex F). *)
Definition libm_conventions (T : Trig float64_type) : Prop :=
  @sin _ T (pow2 (-300)) = pow2 (-300)
  /\ @cos _ T (pow2 (-300)) = of_Z 1
  /\ positive_finite (@sin _ T (of_Z 1))
  /\ positive_finite (@cos _ T (of_Z 1))
  /\ @atan2 _ T fp_zero fp_zero = fp_zero
  /\ (forall u : float64_type,
        positive_finite u -> @atan2 _ T fp_zero u = fp_zero).

(** The spherical point r = 2^-1000, theta = 1, phi = 2^-300, held in
    float64 tensors: r > 0, theta in (-PI, PI], phi in (0, PI). *)
Definition tiny_spherical_point : spherical float64_type :=
  mkSpherical (mkArray Tensor [pow2 (-1000)]) (mkArray Tensor [of_Z 1])
              (mkArray Tensor [pow2 (-300)]).

(** A small math library in binary64: sine and cosine by their Taylor
    polynomials of degree three and two, the arctangent by its first-order
    term and its IEEE values at zero, [np.pi] as NumPy has it.  It is
    accurate near zero only; it shows that [libm_conventions] can be met. *)
Definition small_angle_libm : Trig float64_type := {|
  sin u := sub u (div (mul (mul u u) u) (of_Z 6));
  cos u := sub (of_Z 1) (div (mul u u) (of_Z 2));
  atan2 v u :=
    match fp_val v, fp_val u with
    | S754_zero _, S754_zero false => v
    | S754_zero _, S754_finite false _ _ => v
    | _, _ => div v u
    end;
  pi := Fp (S754_finite false 7074237752028440 (-51))
|}.

(** ** Vocabulary of the further properties *)

(** A second batch of two points. *)
Definition other_two_points {A : Type} `{Scalar A} : point3 A :=
  Cartesian3.__init__ (ndarray [1%Z; 2%Z]) (ndarray [3%Z; 4%Z])
                      (ndarray [5%Z; 7%Z]).

(** The squares of the differences of two coordinate arrays, when the two
    can be broadcast. *)
Definition square_diff {A : Type} `{Scalar A} (a b : array A) : option (list A) :=
  option_map (map (fun u => mul u u)) (broadcast sub (data a) (data b)).

(** Finite floating-point numbers: neither an infinity nor a NaN. *)
Definition finite {prec emax : Z} (u : fp prec emax) : bool :=
  match fp_val u with
  | S754_zero _ | S754_finite _ _ _ => true
  | _ => false
  end.

Definition all_finite {prec emax : Z} (p : point3 (fp prec emax)) : Prop :=
  Forall (fun u => finite u = true) (data (x p))
  /\ Forall (fun u => finite u = true) (data (y p))
  /\ Forall (fun u => finite u = true) (data (z p)).

(** The distance of one point to itself, as [distance_to] computes it. *)
Definition self_distance {A : Type} `{Scalar A} (v : A * A * A) : A :=
  let '(px, py, pz) := v in
  sqrt (add (add (mul (sub px px) (sub px px)) (mul (sub py py) (sub py py)))
            (mul (sub pz pz) (sub pz pz))).

(** The cross product of two vectors, as the specification words it. *)
Definition cross3 {A : Type} `{Scalar A} (u v : A * A * A) : A * A * A :=
  let '(ux, uy, uz) := u in
  let '(vx, vy, vz) := v in
  (sub (mul uy vz) (mul uz vy),
   sub (mul uz vx) (mul ux vz),
   sub (mul ux vy) (mul uy vx)).

(** The scalar product of two vectors, reduced over the coordinates. *)
Definition inner3 {A : Type} `{Scalar A} (u v : A * A * A) : A :=
  let '(ux, uy, uz) := u in
  let '(vx, vy, vz) := v in
  add (add (mul ux vx) (mul uy vy)) (mul uz vz).

(** The length of one vector, as [Vector.norm] computes it. *)
Definition norm3 {A : Type} `{Scalar A} (u : A * A * A) : A :=
  let '(ux, uy, uz) := u in
  sqrt (add (add (mul ux ux) (mul uy uy)) (mul uz uz)).

(** One vector divided by its length, as [Vector.unit] computes it. *)
Definition unit3 {A : Type} `{Scalar A} (u : A * A * A) : A * A * A :=
  let '(ux, uy, uz) := u in
  (div ux (norm3 u), div uy (norm3 u), div uz (norm3 u)).

(** The vertices of all the faces of a box, face after face. *)
Definition flat_points {A : Type} (b : box A) : list (A * A * A) :=
  List.concat (map (fun s : surface A => points (vertices s)) (surface_list b)).

(** Every face has coordinates of one length. *)
Definition faces_well_formed {A : Type} (b : box A) : Prop :=
  Forall (fun s : surface A => exists k : nat, has_size (vertices s) k)
         (surface_list b).

(** The cast of [np.array(_, dtype=np.float32)] on the three coordinates of
    a point. *)
Definition cast32 {A : Type} `{Scalar A} (v : A * A * A) : A * A * A :=
  let '(a, b, c) := v in (float32 a, float32 b, float32 c).

Definition tensor {A : Type} `{Scalar A} (l : list Z) : array A :=
  mkArray Tensor (map of_Z l).

(** The cube with corners at (+-1, +-1, +-1), written out face by face:
    top, bottom, front, back, right, left. *)
Definition cube {A : Type} `{Scalar A} : box A :=
  let face := fun lx ly lz =>
    mkSurface (Cartesian3.__init__ (tensor lx) (tensor ly) (tensor lz)) in
  mkBox
    [ face [1; 1; -1; -1]%Z [1; -1; 1; -1]%Z [1; 1; 1; 1]%Z;
      face [1; 1; -1; -1]%Z [1; -1; 1; -1]%Z [-1; -1; -1; -1]%Z;
      face [1; 1; -1; -1]%Z [1; 1; 1; 1]%Z [1; -1; 1; -1]%Z;
      face [1; 1; -1; -1]%Z [-1; -1; -1; -1]%Z [1; -1; 1; -1]%Z;
      face [1; 1; 1; 1]%Z [1; 1; -1; -1]%Z [1; -1; 1; -1]%Z;
      face [-1; -1; -1; -1]%Z [1; 1; -1; -1]%Z [1; -1; 1; -1]%Z ].

(** The ranges of spherical coordinates. *)
Definition in_spherical_range (v : R * R * R) : Prop :=
  let '(r0, t, p) := v in
  (0 <= r0 /\ (- PI < t /\ t <= PI) /\ (0 <= p /\ p <= PI))%R.

(** The distance of two points, as [distance_to] computes it. *)
Definition dist3 {A : Type} `{Scalar A} (u v : A * A * A) : A :=
  let '(ux, uy, uz) := u in
  let '(vx, vy, vz) := v in
  sqrt (add (add (mul (sub ux vx) (sub ux vx)) (mul (sub uy vy) (sub uy vy)))
            (mul (sub uz vz) (sub uz vz))).

(** The middle of two points, as [middle_point] computes it. *)
Definition mid3 {A : Type} `{Scalar A} (u v : A * A * A) : A * A * A :=
  let '(ux, uy, uz) := u in
  let '(vx, vy, vz) := v in
  (div (add ux vx) (of_Z 2), div (add uy vy) (of_Z 2), div (add uz vz) (of_Z 2)).

(** The direction from the second point to the first, as [direct_vector]
    computes it. *)
Definition dir3 {A : Type} `{Scalar A} (u v : A * A * A) : A * A * A :=
  let '(ux, uy, uz) := u in
  let '(vx, vy, vz) := v in
  (div (sub ux vx) (dist3 u v), div (sub uy vy) (dist3 u v),
   div (sub uz vz) (dist3 u v)).

(** A point as a row of an N x 3 array. *)
Definition row_of {A : Type} (v : A * A * A) : list A :=
  let '(a, b, c) := v in [a; b; c].

(** A row of an N x 2 array. *)
Definition short_row_of {A : Type} (v : A * A) : list A :=
  let '(a, b) := v in [a; b].

(** * Properties *)

(** ** Lists, broadcasting and the kinds of results *)

Section ListFacts.
Context {A B C : Type}.

Lemma zip_with_length (f : A -> B -> C) (l : list A) (m : list B) :
  length (zip_with f l m) = Nat.min (length l) (length m).
Proof.
  revert m; induction l as [|a l IH]; intros [|b m]; simpl; auto.
Qed.

Lemma zip_with_length_same (f : A -> B -> C) (l : list A) (m : list B) :
  length l = length m -> length (zip_with f l m) = length l.
Proof.
  intros E; rewrite zip_with_length, E; apply Nat.min_id.
Qed.

Lemma nth_error_zip_with (f : A -> B -> C) (l : list A) (m : list B) (i : nat) :
  nth_error (zip_with f l m) i =
  match nth_error l i, nth_error m i with
  | Some a, Some b => Some (f a b)
  | _, _ => None
  end.
Proof.
  revert l m; induction i as [|i IH]; intros [|a l] [|b m]; simpl; auto.
  destruct (nth_error l i); reflexivity.
Qed.

End ListFacts.

Section BroadcastFacts.
Context {A : Type}.
Variable op : A -> A -> A.

Lemma broadcast_same (a b : list A) :
  length a = length b -> broadcast op a b = Some (zip_with op a b).
Proof.
  intros E; unfold broadcast; rewrite E, Nat.eqb_refl; reflexivity.
Qed.

Lemma broadcast_refused (a b : list A) :
  length a <> length b -> length a <> 1 -> length b <> 1 ->
  broadcast op a b = None.
Proof.
  intros Hab Ha Hb; unfold broadcast.
  destruct (Nat.eqb_spec (length a) (length b)) as [E|_]; [contradiction|].
  destruct a as [|a0 [|a1 a]]; destruct b as [|b0 [|b1 b]];
    simpl in *; congruence.
Qed.

Lemma broadcast_left_one (a0 : A) (b : list A) :
  length b <> 1 -> broadcast op [a0] b = Some (map (op a0) b).
Proof.
  intros Hb; unfold broadcast.
  destruct (Nat.eqb_spec (length [a0]) (length b)) as [E|_].
  - simpl in E; congruence.
  - reflexivity.
Qed.

Lemma broadcast_right_one (a : list A) (b0 : A) :
  length a <> 1 -> broadcast op a [b0] = Some (map (fun u => op u b0) a).
Proof.
  intros Ha; unfold broadcast.
  destruct (Nat.eqb_spec (length a) (length [b0])) as [E|_].
  - simpl in E; congruence.
  - destruct a as [|a0 [|a1 a]]; simpl in *; congruence.
Qed.

(** Whatever is broadcast against a single element has the length of the
    other operand. *)
Lemma broadcast_length (a b l : list A) :
  broadcast op a b = Some l ->
  length l = if Nat.eqb (length a) 1 then length b else length a.
Proof.
  unfold broadcast.
  destruct (Nat.eqb_spec (length a) (length b)) as [E|NE].
  - intros [= <-]. rewrite zip_with_length_same by assumption.
    destruct (Nat.eqb_spec (length a) 1); congruence.
  - destruct a as [|a0 [|a1 a]]; destruct b as [|b0 [|b1 b]];
      simpl in *; try discriminate; try congruence;
      intros [= <-]; simpl; rewrite ?length_map; reflexivity.
Qed.

End BroadcastFacts.

(** [from_xyz] never raises on one-dimensional input, and only re-types
    what is not an [ndarray] yet. *)
Lemma from_xyz_eq {A : Type} `{Scalar A} (a b c : array A) :
  Cartesian3.from_xyz a b c =
  Ok (mkPoint3 Cartesian3_cls (_convert_type_if_not_nparray a)
        (_convert_type_if_not_nparray b) (_convert_type_if_not_nparray c)).
Proof. reflexivity. Qed.

Lemma convert_ndarray {A : Type} `{Scalar A} (l : list A) :
  _convert_type_if_not_nparray (mkArray NdArray l) = mkArray NdArray l.
Proof. reflexivity. Qed.

Lemma convert_kind {A : Type} `{Scalar A} (a : array A) :
  kind (_convert_type_if_not_nparray a) = NdArray.
Proof.
  unfold _convert_type_if_not_nparray, is_ndarray.
  destruct a as [[] l]; reflexivity.
Qed.

Lemma convert_length {A : Type} `{Scalar A} (a : array A) :
  length (data (_convert_type_if_not_nparray a)) = length (data a).
Proof.
  unfold _convert_type_if_not_nparray, is_ndarray.
  destruct a as [[] l]; simpl; rewrite ?length_map; reflexivity.
Qed.

(** The translation the base class does offer: [Cartesian3.move] adds the
    three components of the offset to the three coordinate arrays. *)
Lemma Cartesian3_move_translates {A : Type} `{Scalar A}
    (p : point3 A) (vx vy vz : A) :
  is_pylist (x p) = false -> is_pylist (y p) = false ->
  is_pylist (z p) = false ->
  Cartesian3.move p [vx; vy; vz] =
  Ok (mkPoint3 Cartesian3_cls
        (mkArray (kind (x p)) (map (fun u => add u vx) (data (x p))))
        (mkArray (kind (y p)) (map (fun u => add u vy) (data (y p))))
        (mkArray (kind (z p)) (map (fun u => add u vz) (data (z p))))).
Proof.
  destruct p as [c [kx lx] [ky ly] [kz lz]]; unfold is_pylist; simpl.
  destruct kx, ky, kz; try discriminate; reflexivity.
Qed.

(** ** Surface.move and Box.from_size *)

(** C2: [Surface.move] does not translate anything: for every surface and
    every offset it raises [AttributeError], because it asks the class
    [Cartesian3] for an attribute [from_tuple] that the class does not
    have.  This holds whatever the scalar type and whatever one imagines
    [from_tuple] to be. *)
Theorem Surface_move_raises_AttributeError :
  forall (A : Type) (SA : Scalar A)
         (from_tuple : list A -> result (point3 A))
         (s : surface A) (move_vector : list A),
    Surface.move from_tuple s move_vector
    = Raise (AttributeError "Cartesian3" "from_tuple").
Proof. intros; reflexivity. Qed.

(** The lookup itself is sound: a name the class body binds is found. *)
Example getattr_from_tuple3s :
  class_getattr "Cartesian3" Cartesian3.namespace "from_tuple3s" tt = Ok tt
  /\ class_getattr "Cartesian3" Cartesian3.namespace "from_tuple" tt
     = Raise (AttributeError "Cartesian3" "from_tuple").
Proof. split; reflexivity. Qed.

(** C1: [Box.from_size(2, 2, 2)] builds no box: the first face already
    calls [Surface.move], so the call raises [AttributeError] and the
    [vertices] view, with its 24 points, is never reached.  The same
    happens for every other size. *)
Theorem Box_from_size_2_2_2_raises :
  forall (A : Type) (SA : Scalar A) (TA : Trig A)
         (from_tuple : list A -> result (point3 A)),
    Box.from_size from_tuple (of_Z 2) (of_Z 2) (of_Z 2)
    = Raise (AttributeError "Cartesian3" "from_tuple")
    /\ (b <- Box.from_size from_tuple (of_Z 2) (of_Z 2) (of_Z 2) ;;
        Box.vertices b)
       = Raise (AttributeError "Cartesian3" "from_tuple")
    /\ (forall x y z : A,
          Box.from_size from_tuple x y z
          = Raise (AttributeError "Cartesian3" "from_tuple")).
Proof. intros; repeat split. Qed.

(** ** Construction *)

(** C7 (as the code has it): [from_xyz] turns each of [x], [y], [z] on its
    own into an [ndarray] (a float32 copy of whatever is not one yet, the
    array itself otherwise), compares no lengths and raises nothing: the
    result always exists, and its three coordinates have the lengths of the
    three inputs. *)
Theorem from_xyz_coerces_without_length_check :
  forall (A : Type) (SA : Scalar A) (a b c : array A),
  exists p : point3 A,
    Cartesian3.from_xyz a b c = Ok p
    /\ cls p = Cartesian3_cls
    /\ kind (x p) = NdArray /\ kind (y p) = NdArray /\ kind (z p) = NdArray
    /\ size p = (length (data a), length (data b), length (data c))
    /\ x p = (if is_ndarray a then a else mkArray NdArray (map float32 (data a)))
    /\ y p = (if is_ndarray b then b else mkArray NdArray (map float32 (data b)))
    /\ z p = (if is_ndarray c then c else mkArray NdArray (map float32 (data c))).
Proof.
  intros A SA a b c. eexists. split; [apply from_xyz_eq|]. simpl.
  repeat split; try apply convert_kind.
  - unfold size; simpl. rewrite !convert_length. reflexivity.
  - unfold _convert_type_if_not_nparray; destruct (is_ndarray a); reflexivity.
  - unfold _convert_type_if_not_nparray; destruct (is_ndarray b); reflexivity.
  - unfold _convert_type_if_not_nparray; destruct (is_ndarray c); reflexivity.
Qed.

(** C7 fails as stated: three lists of lengths 1, 2 and 3 are accepted, and
    the point that comes back has coordinates of lengths 1, 2 and 3. *)
Lemma from_xyz_accepts_unequal_lengths :
  exists p : point3 float32_type,
    Cartesian3.from_xyz (pylist [1%Z]) (pylist [1%Z; 2%Z])
                        (pylist [1%Z; 2%Z; 3%Z]) = Ok p
    /\ size p = (1, 2, 3).
Proof. eexists; split; reflexivity. Qed.

(** ** Componentwise operations *)

Lemma has_size_inv {A : Type} (p : point3 A) (n : nat) :
  has_size p n ->
  length (data (x p)) = n /\ length (data (y p)) = n /\ length (data (z p)) = n.
Proof. unfold has_size, size; intros [= -> -> ->]; auto. Qed.

Lemma op_zip_refused {A : Type} `{Scalar A} (op : A -> A -> A)
    (p q : point3 A) (n m : nat) :
  has_size p n -> has_size q m -> n <> m -> n <> 1 -> m <> 1 ->
  Cartesian3.op_zip p q (np_ufunc op) = Raise ValueError.
Proof.
  intros Hp Hq Hnm Hn Hm.
  apply has_size_inv in Hp as (Hx & _ & _). apply has_size_inv in Hq as (Hx' & _ & _).
  unfold Cartesian3.op_zip, np_ufunc.
  rewrite broadcast_refused by congruence. reflexivity.
Qed.

Lemma op_zip_broadcasts {A : Type} `{Scalar A} (op : A -> A -> A)
    (p q : point3 A) (n m : nat) :
  has_size p n -> has_size q m -> n = m \/ n = 1 \/ m = 1 ->
  exists r : point3 A,
    Cartesian3.op_zip p q (np_ufunc op) = Ok r
    /\ cls r = Cartesian3_cls
    /\ has_size r (if Nat.eqb n 1 then m else n).
Proof.
  intros Hp Hq Hnm.
  apply has_size_inv in Hp as (Hx & Hy & Hz).
  apply has_size_inv in Hq as (Hx' & Hy' & Hz').
  assert (Hb : forall a b : list A, length a = n -> length b = m ->
            exists l, broadcast op a b = Some l
                      /\ length l = if Nat.eqb n 1 then m else n).
  { intros a b Ha Hb.
    assert (exists l, broadcast op a b = Some l) as [l Hl].
    { destruct (Nat.eq_dec (length a) (length b)) as [E|NE].
      - eexists; apply broadcast_same; exact E.
      - destruct Hnm as [E|[E|E]]; [congruence| |].
        + rewrite E in Ha. destruct a as [|a0 [|a1 a]]; try discriminate.
          eexists; apply broadcast_left_one. simpl in NE; congruence.
        + rewrite E in Hb. destruct b as [|b0 [|b1 b]]; try discriminate.
          eexists; apply broadcast_right_one. simpl in NE; congruence. }
    exists l; split; [exact Hl|].
    rewrite (broadcast_length _ _ _ Hl), Ha, Hb. reflexivity. }
  destruct (Hb _ _ Hx Hx') as (lx & Ex & Lx).
  destruct (Hb _ _ Hy Hy') as (ly & Ey & Ly).
  destruct (Hb _ _ Hz Hz') as (lz & Ez & Lz).
  unfold Cartesian3.op_zip, np_ufunc. rewrite Ex, Ey, Ez. simpl.
  destruct (cls p); simpl; rewrite from_xyz_eq; eexists; (split; [reflexivity|]);
    (split; [reflexivity|]); unfold has_size, size; simpl;
    rewrite Lx, Ly, Lz; reflexivity.
Qed.

(** The triples of three maps over three lists of one length. *)
Lemma triples_map3 {A : Type} (f g h : A -> A) (F : A * A * A -> A * A * A)
    (a b c : list A) :
  (forall u v w, F (u, v, w) = (f u, g v, h w)) ->
  length a = length b -> length b = length c ->
  zip_with (fun u vw => (u, fst vw, snd vw)) (map f a)
           (combine (map g b) (map h c))
  = map F (zip_with (fun u vw => (u, fst vw, snd vw)) a (combine b c)).
Proof.
  intros HF. revert b c; induction a as [|u a IH]; intros [|v b] [|w c]; simpl;
    try discriminate; intros E1 E2; [reflexivity|].
  rewrite HF. f_equal. apply IH; congruence.
Qed.

(** The inherited static [from_xyz] is the same function on both classes. *)
Lemma class_from_xyz_eq {A : Type} `{Scalar A} (k : pyclass) (a b c : array A) :
  Cartesian3.class_from_xyz k a b c
  = Ok (mkPoint3 Cartesian3_cls (_convert_type_if_not_nparray a)
          (_convert_type_if_not_nparray b) (_convert_type_if_not_nparray c)).
Proof. destruct k; reflexivity. Qed.

(** A single point on the left is paired with every point on the right. *)
Lemma op_zip_left_one {A : Type} `{Scalar A} (op : A -> A -> A)
    (p q : point3 A) (m : nat) :
  has_size p 1 -> has_size q m -> m <> 1 ->
  exists (u : A * A * A) (r : point3 A),
    points p = [u]
    /\ Cartesian3.op_zip p q (np_ufunc op) = Ok r
    /\ points r = map (fun v => pointwise3 op u v) (points q).
Proof.
  intros Hp Hq Hm.
  apply has_size_inv in Hp as (Hx & Hy & Hz).
  apply has_size_inv in Hq as (Hx' & Hy' & Hz').
  destruct p as [c [kx [|a [|? ?]]] [ky [|b [|? ?]]] [kz [|c0 [|? ?]]]];
    try discriminate.
  exists (a, b, c0). unfold Cartesian3.op_zip, np_ufunc. cbn [x y z data].
  rewrite !broadcast_left_one by congruence. cbn [bind cls].
  rewrite class_from_xyz_eq.
  eexists. split; [reflexivity|]. split; [reflexivity|].
  unfold points; cbn [x y z data _convert_type_if_not_nparray is_ndarray
                      kind negb].
  apply triples_map3; try congruence; intros; reflexivity.
Qed.

(** A single point on the right is paired with every point on the left. *)
Lemma op_zip_right_one {A : Type} `{Scalar A} (op : A -> A -> A)
    (p q : point3 A) (n : nat) :
  has_size p n -> has_size q 1 -> n <> 1 ->
  exists (v : A * A * A) (r : point3 A),
    points q = [v]
    /\ Cartesian3.op_zip p q (np_ufunc op) = Ok r
    /\ points r = map (fun u => pointwise3 op u v) (points p).
Proof.
  intros Hp Hq Hn.
  apply has_size_inv in Hp as (Hx & Hy & Hz).
  apply has_size_inv in Hq as (Hx' & Hy' & Hz').
  destruct q as [c [kx [|a [|? ?]]] [ky [|b [|? ?]]] [kz [|c0 [|? ?]]]];
    try discriminate.
  exists (a, b, c0). unfold Cartesian3.op_zip, np_ufunc. cbn [x y z data].
  rewrite !broadcast_right_one by congruence. cbn [bind].
  rewrite class_from_xyz_eq.
  eexists. split; [reflexivity|]. split; [reflexivity|].
  unfold points; cbn [x y z data _convert_type_if_not_nparray is_ndarray
                      kind negb].
  apply (triples_map3 _ _ _ (fun u => pointwise3 op u (a, b, c0)));
    try congruence; intros; reflexivity.
Qed.

(** C6 (as the code has it): [+] and [-] hand the coordinates to NumPy,
    which broadcasts.  For two points of unequal counts [n] and [m] the
    operation raises NumPy's [ValueError], with no result, when neither
    count is 1; when one of the two is a single point the operation
    returns as many points as the other holds, each of them the single
    point added to (subtracted from, or with the single point subtracted,
    in the order of the operands) the point at the same index. *)
Theorem add_sub_unequal_counts :
  forall (A : Type) (SA : Scalar A) (p q : point3 A) (n m : nat),
    has_size p n -> has_size q m -> n <> m ->
    (n <> 1 /\ m <> 1 ->
       Cartesian3.__add__ p q = Raise ValueError
       /\ Cartesian3.__sub__ p q = Raise ValueError)
    /\ (n = 1 \/ m = 1 ->
       exists r1 r2 : point3 A,
         Cartesian3.__add__ p q = Ok r1
         /\ Cartesian3.__sub__ p q = Ok r2
         /\ has_size r1 (if Nat.eqb n 1 then m else n)
         /\ has_size r2 (if Nat.eqb n 1 then m else n)
         /\ (n = 1 ->
             exists u : A * A * A,
               points p = [u]
               /\ points r1 = map (fun v => pointwise3 add u v) (points q)
               /\ points r2 = map (fun v => pointwise3 sub u v) (points q))
         /\ (m = 1 ->
             exists v : A * A * A,
               points q = [v]
               /\ points r1 = map (fun u => pointwise3 add u v) (points p)
               /\ points r2 = map (fun u => pointwise3 sub u v) (points p))).
Proof.
  intros A SA p q n m Hp Hq Hnm; split.
  - intros [Hn Hm]; split;
      eapply op_zip_refused; eassumption.
  - intros H1.
    destruct (op_zip_broadcasts add Hp Hq) as (r1 & E1 & _ & S1); [tauto|].
    destruct (op_zip_broadcasts sub Hp Hq) as (r2 & E2 & _ & S2); [tauto|].
    exists r1, r2. do 4 (split; [assumption|]). split.
    + intros En. rewrite En in Hp.
      destruct (op_zip_left_one add Hp Hq) as (u & r1' & Pu & E1' & P1);
        [congruence|].
      destruct (op_zip_left_one sub Hp Hq) as (u' & r2' & Pu' & E2' & P2);
        [congruence|].
      assert (r1' = r1) by congruence. assert (r2' = r2) by congruence.
      assert (u' = u) by congruence. subst r1' r2' u'.
      exists u; auto.
    + intros Em. rewrite Em in Hq.
      destruct (op_zip_right_one add Hp Hq) as (v & r1' & Pv & E1' & P1);
        [congruence|].
      destruct (op_zip_right_one sub Hp Hq) as (v' & r2' & Pv' & E2' & P2);
        [congruence|].
      assert (r1' = r1) by congruence. assert (r2' = r2) by congruence.
      assert (v' = v) by congruence. subst r1' r2' v'.
      exists v; auto.
Qed.

(** C6 fails as stated: a single point plus a batch of two points is not
    refused; the single point is added to each of the two. *)
Lemma add_one_point_to_two_points_returns :
  has_size (@one_point float32_type _) 1
  /\ has_size (@two_points float32_type _) 2
  /\ Cartesian3.__add__ (@one_point float32_type _) two_points
     = Ok (Cartesian3.__init__ (ndarray [11%Z; 21%Z]) (ndarray [32%Z; 42%Z])
                               (ndarray [53%Z; 63%Z]))
  /\ Cartesian3.__sub__ (@two_points float32_type _) one_point
     = Ok (Cartesian3.__init__ (ndarray [9%Z; 19%Z]) (ndarray [28%Z; 38%Z])
                               (ndarray [47%Z; 57%Z])).
Proof. repeat split; vm_compute; reflexivity. Qed.

Lemma add_sub_unequal_counts_witness :
  (Cartesian3.__add__ (@two_points float32_type _) three_points = Raise ValueError
   /\ Cartesian3.__sub__ (@two_points float32_type _) three_points = Raise ValueError)
  /\ (exists r1 r2 : point3 float32_type,
        Cartesian3.__add__ one_point two_points = Ok r1
        /\ Cartesian3.__sub__ one_point two_points = Ok r2
        /\ has_size r1 2 /\ has_size r2 2
        /\ points r1 = [ (of_Z 11, of_Z 32, of_Z 53); (of_Z 21, of_Z 42, of_Z 63) ]
        /\ points r2 = [ (of_Z (-9), of_Z (-28), of_Z (-47));
                         (of_Z (-19), of_Z (-38), of_Z (-57)) ])
  /\ (exists r1 r2 : point3 float32_type,
        Cartesian3.__add__ two_points one_point = Ok r1
        /\ Cartesian3.__sub__ two_points one_point = Ok r2
        /\ points r1 = [ (of_Z 11, of_Z 32, of_Z 53); (of_Z 21, of_Z 42, of_Z 63) ]
        /\ points r2 = [ (of_Z 9, of_Z 28, of_Z 47); (of_Z 19, of_Z 38, of_Z 57) ]).
Proof.
  split; [|split].
  - apply (@add_sub_unequal_counts float32_type _ two_points three_points 2 3);
      [reflexivity | reflexivity | lia | lia].
  - destruct (@add_sub_unequal_counts float32_type _ one_point two_points 1 2
                eq_refl eq_refl ltac:(lia)) as [_ Hb].
    destruct Hb as (r1 & r2 & E1 & E2 & S1 & S2 & Hl & _); [lia|].
    destruct (Hl eq_refl) as (u & Pu & P1 & P2).
    injection Pu as <-.
    exists r1, r2. do 4 (split; [assumption|]).
    rewrite P1, P2. split; vm_compute; reflexivity.
  - destruct (@add_sub_unequal_counts float32_type _ two_points one_point 2 1
                eq_refl eq_refl ltac:(lia)) as [_ Hb].
    destruct Hb as (r1 & r2 & E1 & E2 & _ & _ & _ & Hr); [lia|].
    destruct (Hr eq_refl) as (v & Pv & P1 & P2).
    injection Pv as <-.
    exists r1, r2. do 2 (split; [assumption|]).
    rewrite P1, P2. split; vm_compute; reflexivity.
Defined.

(** ** Vectors *)

Lemma op_zip_class {A : Type} `{Scalar A} (p q r : point3 A)
    (op : array A -> array A -> result (array A)) :
  Cartesian3.op_zip p q op = Ok r -> cls r = Cartesian3_cls.
Proof.
  unfold Cartesian3.op_zip.
  destruct (op (x p) (x q)); simpl; [|discriminate].
  destruct (op (y p) (y q)); simpl; [|discriminate].
  destruct (op (z p) (z q)); simpl; [|discriminate].
  destruct (cls p); simpl; rewrite from_xyz_eq; intros [= <-]; reflexivity.
Qed.

Lemma fmap_class {A : Type} `{Scalar A} (p r : point3 A)
    (func : array A -> result (array A)) :
  Cartesian3.fmap p func = Ok r -> cls r = cls p.
Proof.
  unfold Cartesian3.fmap.
  destruct (func (x p)); simpl; [|discriminate].
  destruct (func (y p)); simpl; [|discriminate].
  destruct (func (z p)); simpl; [|discriminate].
  destruct (cls p); simpl; intros [= <-]; reflexivity.
Qed.

(** C10: the sum and the difference of two [Vector]s are plain
    [Cartesian3] objects, because [op_zip] rebuilds through the inherited
    static [from_xyz], which names the base class; [fmap] rebuilds through
    [self.__class__] and gives a [Vector] back.  Both facts hold for
    whatever is returned, and for coordinates of matching lengths
    something is returned. *)
Theorem Vector_add_sub_lose_the_subclass :
  forall (A : Type) (SA : Scalar A) (x1 y1 z1 x2 y2 z2 : array A),
    let v := Vector.__init__ x1 y1 z1 in
    let w := Vector.__init__ x2 y2 z2 in
    cls v = Vector_cls /\ cls w = Vector_cls
    /\ (forall r, Cartesian3.__add__ v w = Ok r -> cls r = Cartesian3_cls)
    /\ (forall r, Cartesian3.__sub__ v w = Ok r -> cls r = Cartesian3_cls)
    /\ (forall func r, Cartesian3.fmap v func = Ok r -> cls r = Vector_cls)
    /\ (forall g : array A -> array A,
          Cartesian3.fmap v (fun a => Ok (g a))
          = Ok (Vector.__init__ (g (x v)) (g (y v)) (g (z v))))
    /\ (length (data x1) = length (data x2) ->
        length (data y1) = length (data y2) ->
        length (data z1) = length (data z2) ->
        Cartesian3.__add__ v w
        = Ok (mkPoint3 Cartesian3_cls
                (mkArray NdArray (zip_with add (data x1) (data x2)))
                (mkArray NdArray (zip_with add (data y1) (data y2)))
                (mkArray NdArray (zip_with add (data z1) (data z2))))
        /\ Cartesian3.__sub__ v w
           = Ok (mkPoint3 Cartesian3_cls
                   (mkArray NdArray (zip_with sub (data x1) (data x2)))
                   (mkArray NdArray (zip_with sub (data y1) (data y2)))
                   (mkArray NdArray (zip_with sub (data z1) (data z2))))).
Proof.
  intros A SA x1 y1 z1 x2 y2 z2 v w.
  split; [reflexivity|]. split; [reflexivity|].
  split; [intros r0 E; exact (op_zip_class _ _ _ E)|].
  split; [intros r0 E; exact (op_zip_class _ _ _ E)|].
  split; [intros func r0 E; exact (fmap_class _ _ E)|].
  split; [reflexivity|].
  intros Ex Ey Ez.
  unfold Cartesian3.__add__, Cartesian3.__sub__, Cartesian3.op_zip,
    np_add, np_subtract, np_ufunc; simpl.
  rewrite !broadcast_same by assumption. simpl. auto.
Qed.

Lemma Vector_add_sub_lose_the_subclass_witness :
  Cartesian3.__add__
    (Vector.__init__ (@pylist float64_type _ [1%Z]) (pylist [2%Z]) (pylist [3%Z]))
    (Vector.__init__ (pylist [4%Z]) (pylist [5%Z]) (pylist [6%Z]))
  = Ok (Cartesian3.__init__ (ndarray [5%Z]) (ndarray [7%Z]) (ndarray [9%Z])).
Proof.
  destruct (@Vector_add_sub_lose_the_subclass float64_type _
              (pylist [1%Z]) (pylist [2%Z]) (pylist [3%Z])
              (pylist [4%Z]) (pylist [5%Z]) (pylist [6%Z]))
    as (_ & _ & _ & _ & _ & _ & Hsum).
  destruct Hsum as [Hadd _]; [reflexivity | reflexivity | reflexivity |].
  rewrite Hadd. vm_compute. reflexivity.
Defined.

(** C5: [Vector.dot] of two vectors whose coordinates have matching
    lengths is again a [Vector]; its [x], [y], [z] are the entry-by-entry
    products of the two [x], the two [y] and the two [z]: a product per
    point and per coordinate, with no sum over the coordinates. *)
Theorem Vector_dot_is_elementwise :
  forall (A : Type) (SA : Scalar A) (x1 y1 z1 x2 y2 z2 : array A),
    length (data x1) = length (data x2) ->
    length (data y1) = length (data y2) ->
    length (data z1) = length (data z2) ->
    Vector.dot (Vector.__init__ x1 y1 z1) (Vector.__init__ x2 y2 z2)
    = Ok (mkPoint3 Vector_cls
            (mkArray Tensor (zip_with mul (data x1) (data x2)))
            (mkArray Tensor (zip_with mul (data y1) (data y2)))
            (mkArray Tensor (zip_with mul (data z1) (data z2)))).
Proof.
  intros A SA x1 y1 z1 x2 y2 z2 Ex Ey Ez.
  unfold Vector.dot, py_binary, tf_binary; simpl.
  rewrite !broadcast_same by assumption. reflexivity.
Qed.

Lemma Vector_dot_is_elementwise_witness :
  Vector.dot
    (Vector.__init__ (@pylist float64_type _ [1%Z; 2%Z]) (pylist [3%Z; 4%Z])
                     (pylist [5%Z; 6%Z]))
    (Vector.__init__ (pylist [7%Z; 8%Z]) (pylist [9%Z; 10%Z])
                     (pylist [11%Z; 12%Z]))
  = Ok (mkPoint3 Vector_cls
          (mkArray Tensor (map of_Z [7%Z; 16%Z]))
          (mkArray Tensor (map of_Z [27%Z; 40%Z]))
          (mkArray Tensor (map of_Z [55%Z; 72%Z]))).
Proof.
  rewrite (@Vector_dot_is_elementwise float64_type _
             (pylist [1%Z; 2%Z]) (pylist [3%Z; 4%Z]) (pylist [5%Z; 6%Z])
             (pylist [7%Z; 8%Z]) (pylist [9%Z; 10%Z]) (pylist [11%Z; 12%Z])
             eq_refl eq_refl eq_refl).
  vm_compute. reflexivity.
Defined.

(** ** Segments *)

Lemma points_length {A : Type} (p : point3 A) (n : nat) :
  has_size p n -> length (points p) = n.
Proof.
  intros Hp. apply has_size_inv in Hp as (Hx & Hy & Hz). unfold points.
  rewrite zip_with_length, length_combine. lia.
Qed.

Section SegmentFacts.
Context {A : Type} `{Scalar A}.

Lemma op_zip_same (op : A -> A -> A) (p q : point3 A) (n : nat) :
  has_size p n -> has_size q n ->
  Cartesian3.op_zip p q (np_ufunc op)
  = Ok (mkPoint3 Cartesian3_cls
          (mkArray NdArray (zip_with op (data (x p)) (data (x q))))
          (mkArray NdArray (zip_with op (data (y p)) (data (y q))))
          (mkArray NdArray (zip_with op (data (z p)) (data (z q))))).
Proof.
  intros Hp Hq. apply has_size_inv in Hp as (Hx & Hy & Hz).
  apply has_size_inv in Hq as (Hx' & Hy' & Hz').
  unfold Cartesian3.op_zip, np_ufunc.
  rewrite !broadcast_same by congruence. cbn [bind].
  destruct (cls p); reflexivity.
Qed.

Lemma distance_to_points (p q : point3 A) (n : nat) :
  has_size p n -> has_size q n ->
  Cartesian3.distance_to p q
  = Ok (mkArray Tensor (zip_with dist3 (points p) (points q))).
Proof.
  intros Hp Hq. unfold Cartesian3.distance_to, Cartesian3.__sub__, np_subtract.
  rewrite (op_zip_same sub Hp Hq). cbn [bind].
  apply has_size_inv in Hp as (Hx & Hy & Hz).
  apply has_size_inv in Hq as (Hx' & Hy' & Hz').
  unfold Cartesian3.to_tensor, tf_stack, same_length, tf_constant.
  cbn [x y z data forallb].
  rewrite !zip_with_length_same by congruence.
  rewrite Hx, Hy, Hz, Nat.eqb_refl. cbn [andb bind map rows].
  unfold tf_sqrt, tf_unary, tf_reduce_sum_axis0, sum_rows.
  cbn [rows data fold_left]. do 2 f_equal.
  unfold points.
  destruct p as [c [kx lx] [ky ly] [kz lz]], q as [c' [kx' lx'] [ky' ly'] [kz' lz']];
    cbn [x y z data] in *.
  clear - Hx Hy Hz Hx' Hy' Hz'. subst n.
  revert ly lz lx' ly' lz' Hy Hz Hx' Hy' Hz'.
  induction lx as [|a lx IH];
    intros [|b ly] [|c lz] [|a' lx'] [|b' ly'] [|c' lz']; simpl;
    try discriminate; intros Hy Hz Hx' Hy' Hz'; [reflexivity|].
  f_equal. apply IH; congruence.
Qed.

Lemma middle_point_points (p q : point3 A) (n : nat) :
  has_size p n -> has_size q n ->
  exists m : point3 A,
    Segment.middle_point (mkSegment p q) = Ok m
    /\ cls m = Cartesian3_cls
    /\ has_size m n
    /\ points m = zip_with mid3 (points p) (points q).
Proof.
  intros Hp Hq. unfold Segment.middle_point, Cartesian3.__add__, np_add.
  cbn [fst_pt snd_pt]. rewrite (op_zip_same add Hp Hq). cbn [bind].
  apply has_size_inv in Hp as (Hx & Hy & Hz).
  apply has_size_inv in Hq as (Hx' & Hy' & Hz').
  unfold Cartesian3.__truediv__, Cartesian3.py_truediv, py_scalar.
  cbn [x y z kind data bind].
  eexists; split; [reflexivity|]. split; [reflexivity|]. split.
  - unfold has_size, size, Cartesian3.__init__; cbn [x y z data].
    rewrite !length_map, !zip_with_length_same by congruence. congruence.
  - unfold points, Cartesian3.__init__; cbn [x y z data].
    destruct p as [c [kx lx] [ky ly] [kz lz]], q as [c' [kx' lx'] [ky' ly'] [kz' lz']];
      cbn [x y z data] in *.
    clear - Hx Hy Hz Hx' Hy' Hz'. subst n.
    revert ly lz lx' ly' lz' Hy Hz Hx' Hy' Hz'.
    induction lx as [|a lx IH];
      intros [|b ly] [|c lz] [|a' lx'] [|b' ly'] [|c' lz']; simpl;
      try discriminate; intros Hy Hz Hx' Hy' Hz'; [reflexivity|].
    f_equal. apply IH; congruence.
Qed.

Lemma direct_vector_points (p q : point3 A) (n : nat) :
  has_size p n -> has_size q n ->
  exists d : point3 A,
    Segment.direct_vector (mkSegment p q) = Ok d
    /\ cls d = Cartesian3_cls
    /\ has_size d n
    /\ points d = zip_with dir3 (points p) (points q).
Proof.
  intros Hp Hq. unfold Segment.direct_vector, Segment.seg_length.
  cbn [fst_pt snd_pt]. rewrite (distance_to_points Hp Hq).
  unfold Cartesian3.__sub__, np_subtract. rewrite (op_zip_same sub Hp Hq).
  cbn [bind]. unfold Cartesian3.fmap. cbn [x y z cls bind numpy data].
  pose proof (points_length Hp) as Lp. pose proof (points_length Hq) as Lq.
  apply has_size_inv in Hp as (Hx & Hy & Hz).
  apply has_size_inv in Hq as (Hx' & Hy' & Hz').
  unfold py_binary, np_ufunc, numpy; cbn [kind data].
  rewrite !broadcast_same
    by (rewrite !zip_with_length_same by congruence; congruence).
  cbn [bind Cartesian3.construct].
  eexists; split; [reflexivity|]. split; [reflexivity|]. split.
  - unfold has_size, size, Cartesian3.__init__; cbn [x y z data].
    rewrite !zip_with_length_same
      by (rewrite ?zip_with_length_same by congruence; congruence).
    congruence.
  - unfold points, Cartesian3.__init__; cbn [x y z data].
    destruct p as [c [kx lx] [ky ly] [kz lz]], q as [c' [kx' lx'] [ky' ly'] [kz' lz']];
      cbn [x y z data] in *.
    clear - Hx Hy Hz Hx' Hy' Hz'. subst n.
    revert ly lz lx' ly' lz' Hy Hz Hx' Hy' Hz'.
    induction lx as [|a lx IH];
      intros [|b ly] [|c lz] [|a' lx'] [|b' ly'] [|c' lz']; simpl;
      try discriminate; intros Hy Hz Hx' Hy' Hz'; [reflexivity|].
    f_equal. apply IH; congruence.
Qed.

End SegmentFacts.

(** C8: [seg_length] is [fst.distance_to(snd)], [middle_point] is
    [(fst + snd) / 2] and [direct_vector] is [fst - snd] divided by the
    length, point by point, for every segment whose end points hold the
    same number of points, whatever the arithmetic.  For the segment from
    (0, 0, 0) to (0, 0, 10) the length is 10, the middle point is (0, 0, 5)
    and the direction vector is (0, 0, -1): evaluated in IEEE single
    precision on end points made by [from_xyz] from Python lists, and in
    double precision on end points that are arrays already. *)
Theorem segment_0_10_length_middle_direction :
  (forall (A : Type) (SA : Scalar A) (p q : point3 A) (n : nat),
     has_size p n -> has_size q n ->
     exists m d : point3 A,
       Segment.seg_length (mkSegment p q) = Cartesian3.distance_to p q
       /\ Segment.seg_length (mkSegment p q)
          = Ok (mkArray Tensor (zip_with dist3 (points p) (points q)))
       /\ Segment.middle_point (mkSegment p q) = Ok m
       /\ cls m = Cartesian3_cls /\ has_size m n
       /\ points m = zip_with mid3 (points p) (points q)
       /\ Segment.direct_vector (mkSegment p q) = Ok d
       /\ cls d = Cartesian3_cls /\ has_size d n
       /\ points d = zip_with dir3 (points p) (points q))
  /\ ((s <- @segment_0_10 float32_type _ ;; Segment.seg_length s)
     = Ok (mkArray Tensor [of_Z 10])
   /\ (s <- @segment_0_10 float32_type _ ;; Segment.middle_point s)
     = Ok (Cartesian3.__init__ (ndarray [0%Z]) (ndarray [0%Z]) (ndarray [5%Z]))
   /\ (s <- @segment_0_10 float32_type _ ;; Segment.direct_vector s)
     = Ok (Cartesian3.__init__ (ndarray [0%Z]) (ndarray [0%Z]) (ndarray [(-1)%Z])))
  /\ (Segment.seg_length (@segment_0_10_nd float64_type _)
     = Ok (mkArray Tensor [of_Z 10])
   /\ Segment.middle_point (@segment_0_10_nd float64_type _)
     = Ok (Cartesian3.__init__ (ndarray [0%Z]) (ndarray [0%Z]) (ndarray [5%Z]))
   /\ Segment.direct_vector (@segment_0_10_nd float64_type _)
     = Ok (Cartesian3.__init__ (ndarray [0%Z]) (ndarray [0%Z]) (ndarray [(-1)%Z]))).
Proof.
  split.
  - intros A SA p q n Hp Hq.
    destruct (middle_point_points Hp Hq) as (m & Em & Cm & Sm & Pm).
    destruct (direct_vector_points Hp Hq) as (d & Ed & Cd & Sd & Pd).
    exists m, d. split; [reflexivity|].
    split; [apply (distance_to_points Hp Hq)|]. tauto.
  - repeat split; vm_compute; reflexivity.
Qed.

(** Two batches of two points each, in double precision: the middle points
    are (5.5, 16.5, 27.5) and (11, 22, 33.5), halves that binary64 holds
    exactly. *)
Lemma segment_0_10_length_middle_direction_witness :
  exists m : point3 float64_type,
    Segment.middle_point (mkSegment two_points other_two_points) = Ok m
    /\ points m = zip_with mid3 (points two_points) (points other_two_points)
    /\ points m
       = [ (div (of_Z 11) (of_Z 2), div (of_Z 33) (of_Z 2), div (of_Z 55) (of_Z 2));
           (of_Z 11, of_Z 22, div (of_Z 67) (of_Z 2)) ].
Proof.
  destruct (proj1 segment_0_10_length_middle_direction
              float64_type _ two_points other_two_points 2%nat)
    as (m & d & _ & _ & Em & _ & _ & Pm & _); [reflexivity | reflexivity |].
  exists m. split; [exact Em|]. split; [exact Pm|].
  rewrite Pm. vm_compute. reflexivity.
Defined.

(** ** Division by zero *)

Lemma div_by_zero_non_finite (prec emax : Z) (a s : fp prec emax) :
  is_zero s = true -> non_finite (div a s) = true.
Proof.
  destruct a as [[| | |sa ma ea]], s as [[| | |ss ms es]];
    unfold is_zero, non_finite; simpl; intros E;
    try discriminate; reflexivity.
Qed.

Lemma map_div_zero_non_finite (prec emax : Z) (l : list (fp prec emax))
    (s : fp prec emax) :
  is_zero s = true ->
  Forall (fun u => non_finite u = true) (map (fun u => div u s) l).
Proof.
  intros Hs; induction l as [|a l IH]; simpl; constructor; auto.
  apply div_by_zero_non_finite; exact Hs.
Qed.

Lemma zip_div_zero_non_finite (prec emax : Z) (k k' : container)
    (a b : list (fp prec emax)) (i : nat) :
  length a = length b ->
  zero_at (mkArray k b) i ->
  non_finite_at (mkArray k' (zip_with div a b)) i.
Proof.
  intros L (u & Hu & Zu); unfold non_finite_at; simpl in *.
  rewrite nth_error_zip_with, Hu.
  destruct (nth_error a i) as [v|] eqn:Ha.
  - eexists; split; [reflexivity|]. apply div_by_zero_non_finite; exact Zu.
  - exfalso. apply nth_error_None in Ha.
    assert (i < length b) by (apply nth_error_Some; congruence). lia.
Qed.

Lemma norm_data_length {A : Type} `{Scalar A} (lx ly lz : list A) :
  length lx = length ly -> length ly = length lz ->
  length (norm_data lx ly lz) = length lx.
Proof.
  intros E1 E2; unfold norm_data.
  rewrite length_map, !zip_with_length, !length_map. lia.
Qed.

Lemma Vector_norm_eq {A : Type} `{Scalar A} (vx vy vz : array A) :
  length (data vx) = length (data vy) ->
  length (data vy) = length (data vz) ->
  Vector.norm (Vector.__init__ vx vy vz)
  = Ok (mkArray Tensor (norm_data (data vx) (data vy) (data vz))).
Proof.
  intros E1 E2. unfold Vector.norm, tf_stack, same_length; simpl.
  rewrite !length_map, <- E2, <- E1, Nat.eqb_refl. reflexivity.
Qed.

Lemma Vector_unit_eq {A : Type} `{Scalar A} (vx vy vz : array A) :
  length (data vx) = length (data vy) ->
  length (data vy) = length (data vz) ->
  Vector.unit (Vector.__init__ vx vy vz)
  = Ok (mkPoint3 Vector_cls
          (mkArray Tensor
             (zip_with div (data vx) (norm_data (data vx) (data vy) (data vz))))
          (mkArray Tensor
             (zip_with div (data vy) (norm_data (data vx) (data vy) (data vz))))
          (mkArray Tensor
             (zip_with div (data vz) (norm_data (data vx) (data vy) (data vz))))).
Proof.
  intros E1 E2. unfold Vector.unit.
  rewrite Vector_norm_eq by assumption. simpl.
  unfold py_binary, tf_binary; simpl.
  pose proof (norm_data_length (data vx) (data vy) (data vz) E1 E2) as L.
  rewrite !broadcast_same by congruence. reflexivity.
Qed.

(** The zero vector has norm 0 and its unit vector is three NaNs; a vector
    so short that its squares underflow has norm 0 too, and its unit vector
    has an infinite component.  Nothing is raised in either case. *)
Example unit_of_the_zero_vector :
  Vector.norm (Vector.__init__ (@pylist float64_type _ [0%Z]) (pylist [0%Z])
                               (pylist [0%Z]))
  = Ok (mkArray Tensor [Fp (S754_zero false)])
  /\ Vector.unit (Vector.__init__ (@pylist float64_type _ [0%Z]) (pylist [0%Z])
                                  (pylist [0%Z]))
     = Ok (mkPoint3 Vector_cls (mkArray Tensor [Fp S754_nan])
             (mkArray Tensor [Fp S754_nan]) (mkArray Tensor [Fp S754_nan])).
Proof. split; vm_compute; reflexivity. Qed.

Example unit_of_a_tiny_vector :
  let tiny : float64_type := Fp (S754_finite false 4503599627370496 (-752)) in
  let v := Vector.__init__ (mkArray PyList [tiny]) (pylist [0%Z]) (pylist [0%Z]) in
  Vector.norm v = Ok (mkArray Tensor [Fp (S754_zero false)])
  /\ Vector.unit v
     = Ok (mkPoint3 Vector_cls (mkArray Tensor [Fp (S754_infinity false)])
             (mkArray Tensor [Fp S754_nan]) (mkArray Tensor [Fp S754_nan])).
Proof. split; vm_compute; reflexivity. Qed.

(** C9: dividing by zero raises nothing and leaves infinities and NaNs
    behind, in every binary floating-point format.  [Vector.unit] returns
    for every vector (of coordinates with one length), and at each index
    where the norm is zero all three components of the result are
    non-finite; [__truediv__] by a zero number returns a point all of whose
    entries are non-finite; [divide] by a point returns, and each entry
    whose divisor is zero is non-finite. *)
Theorem division_by_zero_is_not_an_error :
  forall (prec emax : Z),
    (forall vx vy vz : array (fp prec emax),
       length (data vx) = length (data vy) ->
       length (data vy) = length (data vz) ->
       exists n u,
         Vector.norm (Vector.__init__ vx vy vz) = Ok n
         /\ Vector.unit (Vector.__init__ vx vy vz) = Ok u
         /\ cls u = Vector_cls
         /\ forall i, zero_at n i ->
              non_finite_at (x u) i /\ non_finite_at (y u) i
              /\ non_finite_at (z u) i)
    /\ (forall (p : point3 (fp prec emax)) (s : fp prec emax),
          is_pylist (x p) = false -> is_pylist (y p) = false ->
          is_pylist (z p) = false -> is_zero s = true ->
          exists q,
            Cartesian3.__truediv__ p (Num s) = Ok q
            /\ size q = size p
            /\ Forall (fun u => non_finite u = true) (data (x q))
            /\ Forall (fun u => non_finite u = true) (data (y q))
            /\ Forall (fun u => non_finite u = true) (data (z q)))
    /\ (forall (p q : point3 (fp prec emax)) (n : nat),
          has_size p n -> has_size q n ->
          exists d,
            Cartesian3.divide p q = Ok d
            /\ has_size d n
            /\ forall i,
                 (zero_at (x q) i -> non_finite_at (x d) i)
                 /\ (zero_at (y q) i -> non_finite_at (y d) i)
                 /\ (zero_at (z q) i -> non_finite_at (z d) i)).
Proof.
  intros prec emax. split; [|split].
  - intros vx vy vz E1 E2.
    pose proof (norm_data_length (data vx) (data vy) (data vz) E1 E2) as L.
    eexists; eexists.
    split; [apply Vector_norm_eq; assumption|].
    split; [apply Vector_unit_eq; assumption|].
    split; [reflexivity|].
    intros i Hz; simpl; repeat split;
      apply zip_div_zero_non_finite with (k := Tensor);
      solve [congruence | exact Hz].
  - intros [c [kx lx] [ky ly] [kz lz]] s; unfold is_pylist; simpl.
    intros Hx Hy Hz Hs.
    unfold Cartesian3.__truediv__, Cartesian3.py_truediv, py_scalar; simpl.
    destruct kx, ky, kz; try discriminate; simpl;
      (eexists; split; [reflexivity|]; simpl; split;
       [unfold size; simpl; rewrite !length_map; reflexivity|];
       repeat split; apply map_div_zero_non_finite; exact Hs).
  - intros p q n Hp Hq.
    apply has_size_inv in Hp as (Hx & Hy & Hz).
    apply has_size_inv in Hq as (Hx' & Hy' & Hz').
    destruct p as [c [kx lx] [ky ly] [kz lz]], q as [c' [kx' lx'] [ky' ly'] [kz' lz']];
      simpl in *.
    unfold Cartesian3.divide, Cartesian3.op_zip, np_divide, np_ufunc; simpl.
    rewrite !broadcast_same by congruence. simpl.
    exists (mkPoint3 Cartesian3_cls (mkArray NdArray (zip_with div lx lx'))
              (mkArray NdArray (zip_with div ly ly'))
              (mkArray NdArray (zip_with div lz lz'))).
    split; [destruct c; reflexivity|].
    split.
    + unfold has_size, size; simpl.
      rewrite !zip_with_length_same by congruence. congruence.
    + intros i; simpl; repeat split; intros Hzero;
        eapply zip_div_zero_non_finite; try exact Hzero; congruence.
Qed.

Lemma division_by_zero_is_not_an_error_witness :
  (exists n u,
     Vector.norm (Vector.__init__ (@pylist float64_type _ [0%Z]) (pylist [0%Z])
                                  (pylist [0%Z])) = Ok n
     /\ Vector.unit (Vector.__init__ (@pylist float64_type _ [0%Z]) (pylist [0%Z])
                                     (pylist [0%Z])) = Ok u
     /\ cls u = Vector_cls
     /\ forall i, zero_at n i ->
          non_finite_at (x u) i /\ non_finite_at (y u) i /\ non_finite_at (z u) i)
  /\ (exists q,
        Cartesian3.__truediv__ (@three_points float64_type _) (Num (of_Z 0)) = Ok q
        /\ size q = size (@three_points float64_type _)
        /\ Forall (fun u => non_finite u = true) (data (x q))
        /\ Forall (fun u => non_finite u = true) (data (y q))
        /\ Forall (fun u => non_finite u = true) (data (z q))).
Proof.
  destruct (division_by_zero_is_not_an_error 53 1024) as (Hunit & Hdiv & _).
  split.
  - apply Hunit; reflexivity.
  - apply Hdiv; reflexivity.
Defined.

(** ** Rotations *)

Section RotationFacts.
Context {A : Type} `{Scalar A} `{Trig A}.

Lemma lincomb3 (c0 c1 c2 : A) (lx ly lz : list A) :
  lincomb [c0; c1; c2] [lx; ly; lz]
  = zip_with add (zip_with add (map (mul c0) lx) (map (mul c1) ly))
                 (map (mul c2) lz).
Proof. reflexivity. Qed.

Lemma lincomb3_length (c0 c1 c2 : A) (lx ly lz : list A) (n : nat) :
  length lx = n -> length ly = n -> length lz = n ->
  length (lincomb [c0; c1; c2] [lx; ly; lz]) = n.
Proof.
  intros Ex Ey Ez. rewrite lincomb3, !zip_with_length, !length_map. lia.
Qed.

(** Column [i] of the product is the matrix applied to column [i]. *)
Lemma matmul_columns (m : mat3 A) (lx ly lz : list A) :
  length lx = length ly -> length ly = length lz ->
  match map (fun r => lincomb r [lx; ly; lz]) (mat3_rows m) with
  | [ox; oy; oz] =>
      zip_with (fun a bc => (a, fst bc, snd bc)) ox (combine oy oz)
      = map (mat_vec m)
            (zip_with (fun a bc => (a, fst bc, snd bc)) lx (combine ly lz))
  | _ => False
  end.
Proof.
  destruct m as [[[[a00 a01] a02] [[a10 a11] a12]] [[a20 a21] a22]]; simpl.
  rewrite !lincomb3.
  revert ly lz; induction lx as [|px lx IH]; intros [|py ly] [|pz lz];
    simpl; try discriminate; intros E1 E2; [reflexivity|].
  f_equal. apply IH; congruence.
Qed.

Lemma left_matmul_points (p : point3 A) (k : container) (m : mat3 A) (n : nat) :
  has_size p n ->
  exists p' : point3 A,
    Cartesian3.left_matmul p (mkMatrix k (mat3_rows m)) = Ok p'
    /\ cls p' = Cartesian3_cls
    /\ (kind (x p') = NdArray /\ kind (y p') = NdArray /\ kind (z p') = NdArray)
    /\ has_size p' n
    /\ points p' = map (mat_vec m) (points p).
Proof.
  intros Hp. apply has_size_inv in Hp as (Hx & Hy & Hz).
  destruct p as [c [kx lx] [ky ly] [kz lz]]; simpl in *.
  unfold Cartesian3.left_matmul, Cartesian3.to_matrix, tf_stack, same_length.
  simpl. rewrite Hx, Hy, Hz, Nat.eqb_refl. simpl.
  pose proof (matmul_columns m lx ly lz ltac:(congruence) ltac:(congruence)) as Hc.
  destruct m as [[[[a00 a01] a02] [[a10 a11] a12]] [[a20 a21] a22]].
  unfold np_matmul; simpl in *.
  unfold Cartesian3.from_matrix, row; simpl.
  rewrite from_xyz_eq. eexists; split; [reflexivity|]. simpl.
  split; [reflexivity|]. split; [auto|]. split.
  - unfold has_size, size; simpl.
    rewrite !(lincomb3_length _ _ _ lx ly lz Hx Hy Hz). reflexivity.
  - unfold points; simpl. exact Hc.
Qed.

Lemma rotation_matrix_x_rows (a : A) :
  Cartesian3.rotation_matrix_x a = mkMatrix Tensor (mat3_rows (Rx a)).
Proof. reflexivity. Qed.

Lemma rotation_matrix_y_rows (a : A) :
  Cartesian3.rotation_matrix_y a = mkMatrix Tensor (mat3_rows (Ry a)).
Proof. reflexivity. Qed.

Lemma rotation_matrix_z_rows (a : A) :
  Cartesian3.rotation_matrix_z a = mkMatrix Tensor (mat3_rows (Rz a)).
Proof. reflexivity. Qed.

Lemma rotate_ypr_points (p : point3 A) (n : nat) (a b c : A) :
  has_size p n ->
  exists p' : point3 A,
    Cartesian3.rotate_ypr p [a; b; c] = Ok p'
    /\ cls p' = Cartesian3_cls
    /\ has_size p' n
    /\ points p'
       = map (fun v => mat_vec (Rz c) (mat_vec (Ry b) (mat_vec (Rx a) v)))
             (points p).
Proof.
  intros Hp. unfold Cartesian3.rotate_ypr; simpl.
  destruct (left_matmul_points Tensor (Rx a) Hp) as (p1 & E1 & _ & _ & S1 & P1).
  rewrite rotation_matrix_x_rows, E1; simpl.
  destruct (left_matmul_points Tensor (Ry b) S1) as (p2 & E2 & _ & _ & S2 & P2).
  rewrite rotation_matrix_y_rows, E2; simpl.
  destruct (left_matmul_points Tensor (Rz c) S2) as (p3 & E3 & C3 & _ & S3 & P3).
  rewrite rotation_matrix_z_rows, E3.
  exists p3. repeat split; try assumption.
  rewrite P3, P2, P1, !map_map. reflexivity.
Qed.

End RotationFacts.

(** The two orders on the point (1, 0, 0), in exact arithmetic: a quarter
    turn about X then about Z ends on (0, 1, 0), the other order on
    (0, 0, 1). *)
Lemma quarter_turns_on_unit_x :
  let quarter : R := div pi (of_Z 2) in
  let about_x : list R := [quarter; of_Z 0; of_Z 0] in
  let about_z : list R := [of_Z 0; of_Z 0; quarter] in
  exists q1 q2 q3 : point3 R,
    (q <- Cartesian3.rotate_ypr unit_x_point about_x ;;
     Cartesian3.rotate_ypr q about_z) = Ok q1
    /\ (q <- Cartesian3.rotate_ypr unit_x_point about_z ;;
        Cartesian3.rotate_ypr q about_x) = Ok q2
    /\ Cartesian3.rotate_ypr unit_x_point [quarter; of_Z 0; quarter] = Ok q3
    /\ points q1 = [(0, 1, 0)%R]
    /\ points q2 = [(0, 0, 1)%R]
    /\ points q3 = [(0, 1, 0)%R].
Proof.
  intros quarter about_x about_z.
  assert (S0 : has_size (@unit_x_point R _) 1) by reflexivity.
  destruct (rotate_ypr_points quarter (of_Z 0) (of_Z 0) S0)
    as (a1 & Ea1 & _ & Sa1 & Pa1).
  destruct (rotate_ypr_points (of_Z 0) (of_Z 0) quarter Sa1)
    as (a2 & Ea2 & _ & _ & Pa2).
  destruct (rotate_ypr_points (of_Z 0) (of_Z 0) quarter S0)
    as (b1 & Eb1 & _ & Sb1 & Pb1).
  destruct (rotate_ypr_points quarter (of_Z 0) (of_Z 0) Sb1)
    as (b2 & Eb2 & _ & _ & Pb2).
  destruct (rotate_ypr_points quarter (of_Z 0) quarter S0)
    as (c1 & Ec1 & _ & _ & Pc1).
  exists a2, b2, c1.
  unfold about_x, about_z. rewrite Ea1, Eb1. unfold bind.
  rewrite Ea2, Eb2, Ec1.
  repeat split; try reflexivity.
  - rewrite Pa2, Pa1. unfold quarter; simpl.
    rewrite cos_PI2, sin_PI2, cos_0, sin_0.
    repeat f_equal; lra.
  - rewrite Pb2, Pb1. unfold quarter; simpl.
    rewrite cos_PI2, sin_PI2, cos_0, sin_0.
    repeat f_equal; lra.
  - rewrite Pc1. unfold quarter; simpl.
    rewrite cos_PI2, sin_PI2, cos_0, sin_0.
    repeat f_equal; lra.
Qed.

(** C3: [rotate_ypr p [a; b; c]] returns, for every batch [p] of [n]
    points, the batch in which each point [v] is replaced by
    [Rz c * (Ry b * (Rx a * v))]: the rotation about X by [a] first, its
    result rotated about Y by [b], and that result about Z by [c], every
    step being the product of the standard rotation matrix with the 3xN
    stack of coordinates, unpacked again into [x], [y], [z]; the code is
    the chain of the three [left_matmul] calls in that order.  The order
    cannot be exchanged: on the point (1, 0, 0), in exact arithmetic, a
    quarter turn about X followed by one about Z gives (0, 1, 0), and the
    same two turns in the other order give (0, 0, 1). *)
Theorem rotate_ypr_is_x_then_y_then_z :
  (forall (A : Type) (SA : Scalar A) (TA : Trig A)
          (p : point3 A) (n : nat) (a b c : A),
     has_size p n ->
     Cartesian3.rotate_ypr p [a; b; c]
     = (p1 <- Cartesian3.left_matmul p (Cartesian3.rotation_matrix_x a) ;;
        p2 <- Cartesian3.left_matmul p1 (Cartesian3.rotation_matrix_y b) ;;
        Cartesian3.left_matmul p2 (Cartesian3.rotation_matrix_z c))
     /\ exists p' : point3 A,
          Cartesian3.rotate_ypr p [a; b; c] = Ok p'
          /\ cls p' = Cartesian3_cls
          /\ has_size p' n
          /\ points p'
             = map (fun v => mat_vec (Rz c) (mat_vec (Ry b) (mat_vec (Rx a) v)))
                   (points p))
  /\ (let quarter : R := div pi (of_Z 2) in
      exists q1 q2 q3 : point3 R,
        (q <- Cartesian3.rotate_ypr unit_x_point [quarter; of_Z 0; of_Z 0] ;;
         Cartesian3.rotate_ypr q [of_Z 0; of_Z 0; quarter]) = Ok q1
        /\ (q <- Cartesian3.rotate_ypr unit_x_point [of_Z 0; of_Z 0; quarter] ;;
            Cartesian3.rotate_ypr q [quarter; of_Z 0; of_Z 0]) = Ok q2
        /\ Cartesian3.rotate_ypr unit_x_point [quarter; of_Z 0; quarter] = Ok q3
        /\ points q1 = [(0, 1, 0)%R]
        /\ points q2 = [(0, 0, 1)%R]
        /\ points q3 = [(0, 1, 0)%R]
        /\ q1 <> q2).
Proof.
  split.
  - intros A SA TA p n a b c Hp. split; [reflexivity|].
    apply rotate_ypr_points; exact Hp.
  - intros quarter.
    destruct quarter_turns_on_unit_x as (q1 & q2 & q3 & E1 & E2 & E3 & P1 & P2 & P3).
    exists q1, q2, q3. repeat split; try assumption.
    intros E. rewrite E, P2 in P1. injection P1. lra.
Qed.

Lemma rotate_ypr_is_x_then_y_then_z_witness :
  exists p' : point3 R,
    Cartesian3.rotate_ypr one_point [of_Z 1; of_Z 2; of_Z 3] = Ok p'
    /\ cls p' = Cartesian3_cls
    /\ has_size p' 1
    /\ points p'
       = map (fun v => mat_vec (Rz (of_Z 3))
                         (mat_vec (Ry (of_Z 2)) (mat_vec (Rx (of_Z 1)) v)))
             (points one_point).
Proof.
  destruct rotate_ypr_is_x_then_y_then_z as [Hgen _].
  destruct (Hgen R _ _ one_point 1%nat (of_Z 1) (of_Z 2) (of_Z 3) eq_refl)
    as [_ Hpts].
  exact Hpts.
Defined.

(** ** Spherical coordinates *)

Lemma py_binary_tensor_r {A : Type} `{Scalar A} (op : A -> A -> A)
    (a b : array A) :
  kind b = Tensor -> py_binary op a b = tf_binary op a b.
Proof. intros E; unfold py_binary; rewrite E; destruct (kind a); reflexivity. Qed.

Lemma py_binary_tensor_l {A : Type} `{Scalar A} (op : A -> A -> A)
    (a b : array A) :
  kind a = Tensor -> py_binary op a b = tf_binary op a b.
Proof. intros E; unfold py_binary; rewrite E; reflexivity. Qed.

Lemma tf_binary_same {A : Type} `{Scalar A} (op : A -> A -> A) (a b : array A) :
  length (data a) = length (data b) ->
  tf_binary op a b = Ok (mkArray Tensor (zip_with op (data a) (data b))).
Proof. intros E; unfold tf_binary; rewrite broadcast_same by exact E; reflexivity. Qed.

Section SphericalFacts.
Context {A : Type} `{Scalar A} `{Trig A}.

(** [to_cartesian] on a batch is [cartesian_of] on each of its points. *)
Lemma to_cartesian_points (s : spherical A) (n : nat) :
  sph_size s = (n, n, n) ->
  exists c : point3 A,
    Spherical.to_cartesian s = Ok c
    /\ cls c = Cartesian3_cls
    /\ has_size c n
    /\ points c = map cartesian_of (sph_points s).
Proof.
  destruct s as [[kr lr] [kt lt] [kp lp]]; unfold sph_size; simpl.
  intros [= Er Et Ep].
  unfold Spherical.to_cartesian; simpl.
  rewrite !py_binary_tensor_r by reflexivity.
  rewrite (tf_binary_same mul) by (simpl; rewrite length_map; congruence).
  simpl.
  rewrite !py_binary_tensor_r by reflexivity.
  rewrite !(tf_binary_same mul)
    by (simpl; rewrite ?zip_with_length, ?length_map; lia).
  simpl. eexists; split; [reflexivity|]. split; [reflexivity|]. split.
  - unfold has_size, size; simpl.
    rewrite ?zip_with_length, ?length_map, ?zip_with_length, ?length_map.
    f_equal; [f_equal|]; lia.
  - unfold points, sph_points; simpl. subst n.
    revert lt lp Et Ep. clear. induction lr as [|r0 lr IH]; intros [|t lt] [|p lp];
      simpl; try discriminate; intros Et Ep; [reflexivity|].
    f_equal. apply IH; congruence.
Qed.

(** [to_spherical] on a batch is [spherical_of] on each of its points. *)
Lemma to_spherical_points (c : point3 A) (n : nat) :
  has_size c n ->
  exists s : spherical A,
    Cartesian3.to_spherical c = Ok s
    /\ sph_size s = (n, n, n)
    /\ sph_points s = map spherical_of (points c).
Proof.
  intros Hc. apply has_size_inv in Hc as (Ex & Ey & Ez).
  destruct c as [k [kx lx] [ky ly] [kz lz]]; simpl in *.
  unfold Cartesian3.to_spherical, Cartesian3.py_sum3; simpl.
  repeat (rewrite tf_binary_same
            by (simpl; rewrite ?length_map, ?zip_with_length, ?length_map; lia);
          simpl).
  eexists; split; [reflexivity|]. split.
  - unfold sph_size; simpl.
    rewrite ?length_map, ?zip_with_length, ?length_map, ?zip_with_length, ?length_map.
    f_equal; [f_equal|]; lia.
  - unfold points, sph_points; simpl. subst n.
    revert ly lz Ey Ez. clear. induction lx as [|px lx IH]; intros [|py ly] [|pz lz];
      simpl; try discriminate; intros Ey Ez; [reflexivity|].
    f_equal. apply IH; congruence.
Qed.

End SphericalFacts.

(** *** The round trip in exact arithmetic *)

Section RoundTrip.
Local Open Scope R_scope.

Lemma cos_pos_range (t : R) :
  - PI < t <= PI -> 0 < Rtrigo_def.cos t -> - (PI / 2) < t < PI / 2.
Proof.
  intros [Hl Hu] Hc. pose proof PI_RGT_0 as Hpi.
  split.
  - destruct (Rlt_dec (- (PI / 2)) t) as [|N]; [assumption|].
    exfalso. assert (Rtrigo_def.cos (- t) <= 0) by (apply cos_le_0; lra).
    rewrite cos_neg in *. lra.
  - destruct (Rlt_dec t (PI / 2)) as [|N]; [assumption|].
    exfalso. assert (Rtrigo_def.cos t <= 0) by (apply cos_le_0; lra). lra.
Qed.

Lemma cos_neg_range (t : R) :
  - PI < t <= PI -> Rtrigo_def.cos t < 0 -> t < - (PI / 2) \/ PI / 2 < t.
Proof.
  intros [Hl Hu] Hc. pose proof PI_RGT_0 as Hpi.
  destruct (Rlt_dec t (- (PI / 2))) as [|N1]; [left; assumption|].
  destruct (Rlt_dec (PI / 2) t) as [|N2]; [right; assumption|].
  exfalso. assert (0 <= Rtrigo_def.cos t) by (apply cos_ge_0; lra). lra.
Qed.

Lemma cos_zero_range (t : R) :
  - PI < t <= PI -> Rtrigo_def.cos t = 0 -> t = - (PI / 2) \/ t = PI / 2.
Proof.
  intros [Hl Hu] Hc. pose proof PI_RGT_0 as Hpi.
  destruct (Rtotal_order t (- (PI / 2))) as [L|[E|G]]; [|left; exact E|].
  - exfalso. assert (Rtrigo_def.cos (- t) < 0) by (apply cos_lt_0; lra).
    rewrite cos_neg in *. lra.
  - destruct (Rtotal_order t (PI / 2)) as [L'|[E'|G']]; [|right; exact E'|].
    + exfalso. assert (0 < Rtrigo_def.cos t) by (apply cos_gt_0; lra). lra.
    + exfalso. assert (Rtrigo_def.cos t < 0) by (apply cos_lt_0; lra). lra.
Qed.

Lemma ratio_tan (rho t : R) :
  0 < rho -> Rtrigo_def.cos t <> 0 ->
  rho * Rtrigo_def.sin t / (rho * Rtrigo_def.cos t) = tan t.
Proof. intros Hr Hc. unfold tan. field. split; lra. Qed.

Lemma tan_shift (t : R) : Rtrigo_def.cos t <> 0 -> tan (t + PI) = tan t.
Proof.
  intros Hc. unfold tan. rewrite neg_sin, neg_cos. field. exact Hc.
Qed.

Lemma R_atan2_polar (rho t : R) :
  0 < rho -> - PI < t <= PI ->
  R_atan2 (rho * Rtrigo_def.sin t) (rho * Rtrigo_def.cos t) = t.
Proof.
  intros Hr Ht. pose proof PI_RGT_0 as Hpi. unfold R_atan2.
  destruct (Rlt_dec 0 (rho * Rtrigo_def.cos t)) as [Hc|Hc].
  - assert (0 < Rtrigo_def.cos t) as Hc' by nra.
    rewrite ratio_tan by lra. apply atan_tan. apply cos_pos_range; assumption.
  - destruct (Rlt_dec (rho * Rtrigo_def.cos t) 0) as [Hn|Hn].
    + assert (Rtrigo_def.cos t < 0) as Hc' by nra.
      rewrite ratio_tan by lra.
      destruct (cos_neg_range Ht Hc') as [Lo|Hi].
      * assert (Rtrigo_def.sin t < 0) by (apply sin_lt_0_var; lra).
        destruct (Rle_dec 0 (rho * Rtrigo_def.sin t)) as [Hs|Hs]; [nra|].
        rewrite <- tan_shift by lra. rewrite atan_tan by lra. lra.
      * assert (0 <= Rtrigo_def.sin t) by (apply sin_ge_0; lra).
        destruct (Rle_dec 0 (rho * Rtrigo_def.sin t)) as [Hs|Hs]; [|nra].
        replace (tan t) with (tan (t - PI)).
        -- rewrite atan_tan by lra. lra.
        -- rewrite <- (tan_shift (t - PI)).
           ++ f_equal; lra.
           ++ replace t with ((t - PI) + PI) in Hc' by lra.
              rewrite neg_cos in Hc'. lra.
    + assert (Rtrigo_def.cos t = 0) as Hc' by nra.
      destruct (cos_zero_range Ht Hc') as [E|E]; subst t.
      * rewrite sin_neg, sin_PI2.
        repeat match goal with
               | |- context [Rlt_dec ?a ?b] => destruct (Rlt_dec a b)
               end; lra.
      * rewrite sin_PI2.
        repeat match goal with
               | |- context [Rlt_dec ?a ?b] => destruct (Rlt_dec a b)
               end; lra.
Qed.

Lemma sq_sum_polar (rho t : R) :
  rho * Rtrigo_def.cos t * (rho * Rtrigo_def.cos t)
  + rho * Rtrigo_def.sin t * (rho * Rtrigo_def.sin t) = rho * rho.
Proof.
  pose proof (sin2_cos2 t) as E. unfold Rsqr in E. nra.
Qed.

(** One spherical point there and back, in exact arithmetic. *)
Lemma round_trip_point (r0 t p : R) :
  0 < r0 -> - PI < t <= PI -> 0 < p < PI ->
  let cx := r0 * Rtrigo_def.sin p * Rtrigo_def.cos t in
  let cy := r0 * Rtrigo_def.sin p * Rtrigo_def.sin t in
  let cz := r0 * Rtrigo_def.cos p in
  R_sqrt.sqrt (0 + cx * cx + cy * cy + cz * cz) = r0
  /\ R_atan2 cy cx = t
  /\ R_atan2 (R_sqrt.sqrt (cx * cx + cy * cy)) cz = p.
Proof.
  intros Hr Ht Hp cx cy cz.
  assert (0 < Rtrigo_def.sin p) as Hs by (apply sin_gt_0; lra).
  assert (0 < r0 * Rtrigo_def.sin p) as Hrs by (apply Rmult_lt_0_compat; assumption).
  assert (cx * cx + cy * cy = r0 * Rtrigo_def.sin p * (r0 * Rtrigo_def.sin p)) as Exy.
  { unfold cx, cy. apply sq_sum_polar. }
  repeat split.
  - replace (0 + cx * cx + cy * cy + cz * cz) with (r0 * r0).
    + apply sqrt_square; lra.
    + replace (0 + cx * cx + cy * cy + cz * cz) with (cx * cx + cy * cy + cz * cz) by ring.
      rewrite Exy. unfold cz.
      pose proof (sq_sum_polar r0 p). lra.
  - unfold cx, cy. apply R_atan2_polar; assumption.
  - rewrite Exy, sqrt_square by lra. unfold cz.
    apply R_atan2_polar; [assumption | lra].
Qed.

Lemma round_trip_points (l : list (vec3 R)) :
  Forall in_round_trip_domain l ->
  map spherical_of (map cartesian_of l) = l.
Proof.
  induction 1 as [|[[r0 t] p] l Hd _ IH]; simpl; [reflexivity|].
  rewrite IH. f_equal.
  destruct Hd as (Hr & Ht & Hp).
  destruct (round_trip_point Hr Ht Hp) as (E1 & E2 & E3).
  simpl in E1, E2, E3. rewrite E1, E2, E3. reflexivity.
Qed.

End RoundTrip.

(** Batches of one size with the same triples have the same coordinates. *)
Lemma triples_injective {A : Type} (a b c a' b' c' : list A) (n : nat) :
  length a = n -> length b = n -> length c = n ->
  length a' = n -> length b' = n -> length c' = n ->
  zip_with (fun u vw => (u, fst vw, snd vw)) a (combine b c)
  = zip_with (fun u vw => (u, fst vw, snd vw)) a' (combine b' c') ->
  a = a' /\ b = b' /\ c = c'.
Proof.
  revert a b c a' b' c'; induction n as [|n IH];
    intros [|u a] [|v b] [|w c] [|u' a'] [|v' b'] [|w' c']; simpl;
    try discriminate; auto.
  intros La Lb Lc La' Lb' Lc' E. injection E as -> -> -> E.
  destruct (IH a b c a' b' c') as (-> & -> & ->); auto.
Qed.

(** C4 (amended by the range of the azimuth): for every batch of spherical
    points with r > 0, theta in (-PI, PI] and phi in (0, PI),
    [to_cartesian] returns the points
    (r sin(phi) cos(theta), r sin(phi) sin(theta), r cos(phi)),
    [to_spherical] of those returns
    (sqrt(x^2+y^2+z^2), atan2(y, x), atan2(sqrt(x^2+y^2), z)),
    and these are the r, theta and phi one started from.  The arithmetic is
    exact (real numbers); what rounding does to the same formulas is not
    part of the statement (see [round_trip_underflows_in_binary64]). *)
Theorem spherical_round_trip :
  forall (s : spherical R) (n : nat),
    sph_size s = (n, n, n) ->
    Forall in_round_trip_domain (sph_points s) ->
    exists (c : point3 R) (s' : spherical R),
      Spherical.to_cartesian s = Ok c
      /\ points c = map cartesian_of (sph_points s)
      /\ Cartesian3.to_spherical c = Ok s'
      /\ sph_points s' = map spherical_of (points c)
      /\ data (r s') = data (r s)
      /\ data (theta s') = data (theta s)
      /\ data (phi s') = data (phi s).
Proof.
  intros s n Hs Hd.
  destruct (to_cartesian_points Hs) as (c & Ec & _ & Sc & Pc).
  destruct (to_spherical_points Sc) as (s' & Es' & Ss' & Ps').
  exists c, s'. repeat split; try assumption.
  all: assert (E : sph_points s' = sph_points s)
    by (rewrite Ps', Pc; apply round_trip_points; exact Hd).
  all: unfold sph_size in Hs, Ss'; injection Hs as H1 H2 H3;
    injection Ss' as H1' H2' H3'.
  all: destruct (triples_injective _ _ _ _ _ _ H1' H2' H3' H1 H2 H3 E)
    as (Er & Et & Ep); assumption.
Qed.

Lemma spherical_round_trip_witness :
  exists (c : point3 R) (s' : spherical R),
    let s := mkSpherical (mkArray Tensor [2%R]) (mkArray Tensor [PI])
                         (mkArray Tensor [(PI / 2)%R]) in
    Spherical.to_cartesian s = Ok c
    /\ points c = map cartesian_of (sph_points s)
    /\ Cartesian3.to_spherical c = Ok s'
    /\ sph_points s' = map spherical_of (points c)
    /\ data (r s') = data (r s)
    /\ data (theta s') = data (theta s)
    /\ data (phi s') = data (phi s).
Proof.
  apply (@spherical_round_trip
           (mkSpherical (mkArray Tensor [2%R]) (mkArray Tensor [PI])
                        (mkArray Tensor [(PI / 2)%R])) 1%nat).
  - reflexivity.
  - constructor; [|constructor]. simpl.
    pose proof PI_RGT_0. lra.
Defined.

(** C4 fails as stated: r = 1 and phi = PI/2 are in the claimed domain,
    yet theta = 2 PI does not come back: the round trip returns theta = 0,
    six and more away from the original. *)
Lemma round_trip_loses_a_full_turn :
  (0 < 1 /\ 0 < PI / 2 < PI)%R
  /\ exists (c : point3 R) (s' : spherical R),
       Spherical.to_cartesian full_turn_point = Ok c
       /\ Cartesian3.to_spherical c = Ok s'
       /\ data (theta full_turn_point) = [(2 * PI)%R]
       /\ data (theta s') = [0%R]
       /\ (6 < 2 * PI - 0)%R.
Proof.
  pose proof PI2_3_2 as Hpi.
  split; [lra|].
  eexists; eexists. split; [reflexivity|]. split; [reflexivity|].
  split; [reflexivity|]. split; [|lra].
  simpl. f_equal.
  rewrite sin_PI2, sin_2PI, cos_2PI. unfold R_atan2.
  destruct (Rlt_dec 0 (1 * 1 * 1)) as [_|N]; [|lra].
  replace (1 * 1 * 0 / (1 * 1 * 1))%R with 0%R by field.
  apply atan_0.
Qed.

(** *** The round trip in double precision *)

Lemma small_angle_libm_conventions : libm_conventions small_angle_libm.
Proof.
  unfold libm_conventions.
  split; [vm_compute; reflexivity|].
  split; [vm_compute; reflexivity|].
  split; [vm_compute; eexists; eexists; reflexivity|].
  split; [vm_compute; eexists; eexists; reflexivity|].
  split; [reflexivity|].
  intros u (m & e & E). destruct u as [u]. simpl in E. subst u. reflexivity.
Qed.

(** In binary64 the round trip is not within any tolerance on the whole
    domain of C4.  At r = 2^-1000, theta = 1, phi = 2^-300 the product
    r sin(phi) = 2^-1300 underflows to 0, so x = y = 0 and z = 2^-1000;
    then z^2 = 2^-2000 underflows as well, and [to_spherical] returns
    r = 0, theta = 0, phi = 0: the azimuth 1 is lost.  This holds for
    every math library that obeys [libm_conventions]. *)
Example round_trip_underflows_in_binary64 :
  forall T : Trig float64_type,
    libm_conventions T ->
    sph_points tiny_spherical_point = [(pow2 (-1000), of_Z 1, pow2 (-300))]
    /\ Spherical.to_cartesian tiny_spherical_point
       = Ok (Cartesian3.__init__ (mkArray Tensor [fp_zero])
               (mkArray Tensor [fp_zero]) (mkArray Tensor [pow2 (-1000)]))
    /\ Cartesian3.to_spherical
         (Cartesian3.__init__ (mkArray Tensor [fp_zero])
            (mkArray Tensor [fp_zero]) (mkArray Tensor [pow2 (-1000)]))
       = Ok (mkSpherical (mkArray Tensor [fp_zero]) (mkArray Tensor [fp_zero])
                         (mkArray Tensor [fp_zero])).
Proof.
  intros T (Hs & Hc & (m1 & e1 & E1) & (m2 & e2 & E2) & H00 & Hpos).
  split; [reflexivity|]. split.
  - unfold tiny_spherical_point, Spherical.to_cartesian.
    cbn [r theta phi]. unfold tf_unary. cbn [data map]. rewrite Hs, Hc.
    destruct (sin (of_Z 1)) as [v1]. destruct (cos (of_Z 1)) as [v2].
    simpl in E1, E2. subst v1 v2. vm_compute. reflexivity.
  - assert (Hz : positive_finite (pow2 (-1000)))
      by (vm_compute; eexists; eexists; reflexivity).
    apply Hpos in Hz. vm_compute in H00, Hz. vm_compute.
    rewrite H00, Hz. reflexivity.
Qed.

Example round_trip_underflows_with_small_angle_libm :
  (c <- @Spherical.to_cartesian _ _ small_angle_libm tiny_spherical_point ;;
   @Cartesian3.to_spherical _ _ small_angle_libm c)
  = Ok (mkSpherical (mkArray Tensor [fp_zero]) (mkArray Tensor [fp_zero])
                    (mkArray Tensor [fp_zero])).
Proof.
  destruct (@round_trip_underflows_in_binary64 small_angle_libm
              small_angle_libm_conventions) as (_ & Ec & Es).
  rewrite Ec. exact Es.
Qed.

(** * Further properties of the module *)

(** ** Splitting a frame into its even and odd rows *)

Lemma interleave_every_other {T : Type} (l : list T) :
  interleave (every_other l) (every_other (tl l)) = l.
Proof.
  assert (H : forall n (l : list T), length l <= n ->
            interleave (every_other l) (every_other (tl l)) = l).
  { induction n as [|n IH]; intros [|a [|b k]] Hn; simpl in *; try reflexivity;
      try lia.
    f_equal. f_equal.
    rewrite <- (IH k) at 3 by lia. destruct k; reflexivity. }
  apply (H (length l)). lia.
Qed.

Lemma every_other_length {T : Type} (l : list T) :
  length (every_other l) = Nat.div2 (S (length l)).
Proof.
  assert (H : forall n (l : list T), length l <= n ->
            length (every_other l) = Nat.div2 (S (length l))).
  { induction n as [|n IH]; intros [|a [|b k]] Hn; simpl in *; try reflexivity;
      try lia.
    f_equal. rewrite <- (IH k) by lia. destruct k; reflexivity. }
  apply (H (length l)). lia.
Qed.

(** X1: [split_raw_df_into_even_odd_pairs] loses no row and invents none: the
    rows at even positions and the rows at odd positions, taken in turn,
    are the frame again.  The first part has the larger half of the rows,
    the second the smaller half; entry [i] of the first is row [2 i], entry
    [i] of the second is row [2 i + 1]. *)
Theorem split_even_odd_round_trip :
  forall (T : Type) (raw_df : list T),
    let (even, odd) := split_raw_df_into_even_odd_pairs raw_df in
    interleave even odd = raw_df
    /\ length even = Nat.div2 (S (length raw_df))
    /\ length odd = Nat.div2 (length raw_df)
    /\ (forall i, nth_error even i = nth_error raw_df (2 * i))
    /\ (forall i, nth_error odd i = nth_error raw_df (2 * i + 1)).
Proof.
  intros T raw_df. unfold split_raw_df_into_even_odd_pairs.
  assert (Hnth : forall i (l : list T),
            nth_error (every_other l) i = nth_error l (2 * i)).
  { induction i as [|i IH]; intros [|a [|b k]]; simpl; try reflexivity.
    - destruct i; reflexivity.
    - rewrite IH. replace (i + S (i + 0)) with (S (2 * i)) by lia. reflexivity. }
  split; [apply interleave_every_other|].
  split; [apply every_other_length|].
  split.
  - rewrite every_other_length. destruct raw_df; reflexivity.
  - split; [intros i; apply Hnth|].
    intros i. rewrite Hnth. destruct raw_df as [|a k]; simpl.
    + destruct (i + (i + 0)); reflexivity.
    + replace (i + (i + 0) + 1) with (S (i + (i + 0))) by lia. reflexivity.
Qed.

(** ** Concatenation *)

Lemma concat_eq {A : Type} `{Scalar A} (p q : point3 A) :
  Cartesian3.concat p q
  = Ok (mkPoint3 Cartesian3_cls
          (mkArray NdArray (data (x p) ++ data (x q)))
          (mkArray NdArray (data (y p) ++ data (y q)))
          (mkArray NdArray (data (z p) ++ data (z q)))).
Proof.
  unfold Cartesian3.concat, np_concatenate; simpl.
  rewrite !app_nil_r. destruct (cls p); reflexivity.
Qed.

Lemma triples_app {A : Type} (a b c a' b' c' : list A) :
  length a = length b -> length b = length c ->
  zip_with (fun u vw => (u, fst vw, snd vw)) (a ++ a') (combine (b ++ b') (c ++ c'))
  = zip_with (fun u vw => (u, fst vw, snd vw)) a (combine b c)
    ++ zip_with (fun u vw => (u, fst vw, snd vw)) a' (combine b' c').
Proof.
  revert b c; induction a as [|u a IH]; intros [|v b] [|w c]; simpl;
    try discriminate; intros E1 E2; [reflexivity|].
  f_equal. apply IH; congruence.
Qed.

(** X2: [concat] puts the points of [other] after the points of [self]: for a
    batch of [n] points and a batch of [m] points it returns a batch of
    [n + m] points, those of [self] first and in their order, then those of
    [other].  The result is a plain [Cartesian3] holding [ndarray]s
    whatever the operands were. *)
Theorem concat_appends_points :
  forall (A : Type) (SA : Scalar A) (p q : point3 A) (n m : nat),
    has_size p n -> has_size q m ->
    exists c : point3 A,
      Cartesian3.concat p q = Ok c
      /\ cls c = Cartesian3_cls
      /\ kind (x c) = NdArray /\ kind (y c) = NdArray /\ kind (z c) = NdArray
      /\ has_size c (n + m)
      /\ points c = points p ++ points q.
Proof.
  intros A SA p q n m Hp Hq.
  apply has_size_inv in Hp as (Hx & Hy & Hz).
  apply has_size_inv in Hq as (Hx' & Hy' & Hz').
  eexists. split; [apply concat_eq|]. simpl.
  repeat split.
  - unfold has_size, size; simpl. rewrite !length_app. congruence.
  - unfold points; simpl. apply triples_app; congruence.
Qed.

Lemma concat_appends_points_witness :
  exists c : point3 float32_type,
    Cartesian3.concat one_point two_points = Ok c
    /\ cls c = Cartesian3_cls
    /\ kind (x c) = NdArray /\ kind (y c) = NdArray /\ kind (z c) = NdArray
    /\ has_size c (1 + 2)
    /\ points c = points one_point ++ points two_points.
Proof.
  apply (@concat_appends_points float32_type _ one_point two_points 1 2);
    reflexivity.
Defined.

(** X3: [concat] is associative, with no condition on the operands: joining
    three batches gives one result whichever pair is joined first, and
    joining never raises, even when the coordinates of an operand have
    different lengths. *)
Theorem concat_is_associative :
  forall (A : Type) (SA : Scalar A) (p q t : point3 A),
    (pq <- Cartesian3.concat p q ;; Cartesian3.concat pq t)
    = (qt <- Cartesian3.concat q t ;; Cartesian3.concat p qt)
    /\ exists c : point3 A,
         (pq <- Cartesian3.concat p q ;; Cartesian3.concat pq t) = Ok c
         /\ size c = (length (data (x p)) + length (data (x q)) + length (data (x t)),
                      length (data (y p)) + length (data (y q)) + length (data (y t)),
                      length (data (z p)) + length (data (z q)) + length (data (z t))).
Proof.
  intros A SA p q t. rewrite (concat_eq p q), (concat_eq q t). simpl.
  rewrite !concat_eq. simpl. rewrite !app_assoc. split; [reflexivity|].
  eexists; split; [reflexivity|].
  unfold size; simpl. rewrite !length_app. reflexivity.
Qed.

(** ** Translation *)

Lemma triples_map {A : Type} (f g h : A -> A) (a b c : list A) :
  zip_with (fun u vw => (u, fst vw, snd vw)) (map f a) (combine (map g b) (map h c))
  = map (fun v : A * A * A => let '(u, v', w) := v in (f u, g v', h w))
        (zip_with (fun u vw => (u, fst vw, snd vw)) a (combine b c)).
Proof.
  revert b c; induction a as [|u a IH]; intros [|v b] [|w c]; simpl;
    try reflexivity.
  f_equal. apply IH.
Qed.

(** X4: [Cartesian3.move] translates every point by the first three entries of
    [by_vector], whatever follows them, and returns a plain [Cartesian3]
    (also for a [Vector]) whose arrays keep their kinds.  The coordinates
    must not be Python lists. *)
Theorem move_translates_every_point :
  forall (A : Type) (SA : Scalar A) (p : point3 A) (vx vy vz : A) (rest : list A),
    is_pylist (x p) = false -> is_pylist (y p) = false ->
    is_pylist (z p) = false ->
    exists p' : point3 A,
      Cartesian3.move p (vx :: vy :: vz :: rest) = Ok p'
      /\ cls p' = Cartesian3_cls
      /\ kind (x p') = kind (x p) /\ kind (y p') = kind (y p)
      /\ kind (z p') = kind (z p)
      /\ size p' = size p
      /\ points p'
         = map (fun v : A * A * A =>
                  let '(px, py, pz) := v in (add px vx, add py vy, add pz vz))
               (points p).
Proof.
  intros A SA [c [kx lx] [ky ly] [kz lz]] vx vy vz rest; unfold is_pylist; simpl.
  intros Hx Hy Hz.
  unfold Cartesian3.move, py_scalar; simpl.
  destruct kx, ky, kz; try discriminate; simpl;
    (eexists; split; [reflexivity|]; simpl; repeat split;
     [unfold size; simpl; rewrite !length_map; reflexivity
     |unfold points; simpl; apply triples_map]).
Qed.

Lemma move_translates_every_point_witness :
  exists p' : point3 float32_type,
    Cartesian3.move two_points [of_Z 1; of_Z 2; of_Z 3; of_Z 4] = Ok p'
    /\ cls p' = Cartesian3_cls
    /\ kind (x p') = kind (x two_points) /\ kind (y p') = kind (y two_points)
    /\ kind (z p') = kind (z two_points)
    /\ size p' = size two_points
    /\ points p'
       = map (fun v : float32_type * float32_type * float32_type =>
                let '(px, py, pz) := v in
                (add px (of_Z 1), add py (of_Z 2), add pz (of_Z 3)))
             (points two_points).
Proof.
  apply (@move_translates_every_point float32_type _ two_points
           (of_Z 1) (of_Z 2) (of_Z 3) [of_Z 4]); reflexivity.
Defined.



(** ** Distances *)

(** *** Facts of IEEE arithmetic, in every binary format *)

Section FloatFacts.
Variables prec emax : Z.

Lemma binary_round_aux_negb (s : bool) (m e : Z) (l : location) :
  binary_round_aux prec emax (negb s) m e l
  = SFopp (binary_round_aux prec emax s m e l).
Proof.
  unfold binary_round_aux.
  destruct (shr_fexp prec emax m e l) as [mrs' e'].
  destruct (shr_fexp prec emax _ e' loc_Exact) as [mrs'' e''].
  destruct (shr_m mrs''); simpl; try reflexivity.
  destruct (Z.leb e'' (emax - prec)); reflexivity.
Qed.

Lemma binary_normalize_opp (m e : Z) :
  binary_normalize prec emax (- m) e false
  = match m with
    | Z0 => S754_zero false
    | _ => SFopp (binary_normalize prec emax m e false)
    end.
Proof.
  destruct m as [|p|p]; simpl; try reflexivity;
    unfold binary_round;
    destruct (shl_align p e _) as [mz ez].
  - apply (binary_round_aux_negb false).
  - rewrite (binary_round_aux_negb false). 
    destruct (binary_round_aux prec emax false (Z.pos mz) ez loc_Exact) as [[]|[]| |[] ? ?];
      reflexivity.
Qed.

(** [y - x] is the opposite of [x - y], or both are the zero [+0]. *)
Lemma SFsub_swap (u v : spec_float) :
  SFsub prec emax v u = SFopp (SFsub prec emax u v)
  \/ (SFsub prec emax u v = S754_zero false
      /\ SFsub prec emax v u = S754_zero false).
Proof.
  destruct u as [[]|[]| |su mu eu], v as [[]|[]| |sv mv ev]; simpl; auto;
    try (left; destruct su; reflexivity); try (left; destruct sv; reflexivity).
  rewrite (Z.min_comm ev eu).
  set (a := cond_Zopp su (Z.pos (fst (shl_align mu eu (Z.min eu ev))))).
  set (b := cond_Zopp sv (Z.pos (fst (shl_align mv ev (Z.min eu ev))))).
  replace (b - a)%Z with (- (a - b))%Z by lia.
  rewrite binary_normalize_opp.
  destruct (a - b)%Z; auto.
Qed.

Lemma SFmul_opp_opp (u : spec_float) :
  SFmul prec emax (SFopp u) (SFopp u) = SFmul prec emax u u.
Proof. destruct u as [[]|[]| |[] m e]; reflexivity. Qed.

Lemma SFsquare_sub_swap (u v : spec_float) :
  SFmul prec emax (SFsub prec emax u v) (SFsub prec emax u v)
  = SFmul prec emax (SFsub prec emax v u) (SFsub prec emax v u).
Proof.
  destruct (SFsub_swap u v) as [E|[E1 E2]].
  - rewrite E. symmetry. apply SFmul_opp_opp.
  - rewrite E1, E2. reflexivity.
Qed.

(** A number minus itself is [+0], unless it is an infinity or a NaN. *)
Lemma SFsub_diag (u : spec_float) :
  match u with S754_infinity _ | S754_nan => False | _ => True end ->
  SFsub prec emax u u = S754_zero false.
Proof.
  destruct u as [[]|[]| |s m e]; simpl; try tauto; intros _.
  rewrite Z.sub_diag. reflexivity.
Qed.

End FloatFacts.

(** *** Broadcasting is symmetric *)

Section BroadcastSwap.
Context {A : Type}.

Lemma zip_with_flip (op : A -> A -> A) (a b : list A) :
  zip_with (fun u v => op v u) b a = zip_with op a b.
Proof.
  revert b; induction a as [|u a IH]; intros [|v b]; simpl; try reflexivity.
  f_equal. apply IH.
Qed.

Lemma broadcast_flip (op : A -> A -> A) (a b : list A) :
  broadcast (fun u v => op v u) b a = broadcast op a b.
Proof.
  unfold broadcast. rewrite (Nat.eqb_sym (length b) (length a)).
  destruct (Nat.eqb_spec (length a) (length b)) as [E|NE].
  - rewrite zip_with_flip. reflexivity.
  - destruct a as [|a0 [|a1 a]]; destruct b as [|b0 [|b1 b]];
      simpl in *; try reflexivity; congruence.
Qed.

(** Two operations that agree under [f] give broadcasts that agree under
    [map f]. *)
Lemma broadcast_under (f : A -> A) (op op' : A -> A -> A) (a b : list A) :
  (forall u v, f (op u v) = f (op' u v)) ->
  option_map (map f) (broadcast op a b) = option_map (map f) (broadcast op' a b).
Proof.
  intros Hf. unfold broadcast.
  destruct (Nat.eqb (length a) (length b)).
  - simpl. f_equal. revert b; induction a as [|u a IH]; intros [|v b]; simpl;
      try reflexivity. rewrite Hf. f_equal. apply IH.
  - destruct a as [|a0 [|a1 a]]; destruct b as [|b0 [|b1 b]];
      cbv [option_map]; try reflexivity;
      f_equal; rewrite !map_map; apply map_ext; intros; apply Hf.
Qed.

End BroadcastSwap.

Section DistanceFacts.
Context {A : Type} `{Scalar A}.

(** [distance_to], coordinate by coordinate. *)
Lemma distance_to_eq (p q : point3 A) :
  Cartesian3.distance_to p q
  = match square_diff (x p) (x q), square_diff (y p) (y q),
          square_diff (z p) (z q) with
    | Some sx, Some sy, Some sz =>
        if Nat.eqb (length sy) (length sx) && (Nat.eqb (length sz) (length sx) && true)
        then Ok (mkArray Tensor (map sqrt (zip_with add (zip_with add sx sy) sz)))
        else Raise InvalidArgumentError
    | _, _, _ => Raise ValueError
    end.
Proof.
  unfold Cartesian3.distance_to, Cartesian3.__sub__, Cartesian3.op_zip,
    np_subtract, np_ufunc, square_diff.
  destruct (broadcast sub (data (x p)) (data (x q))) as [dx|]; simpl;
    [|reflexivity].
  destruct (broadcast sub (data (y p)) (data (y q))) as [dy|]; simpl;
    [|reflexivity].
  destruct (broadcast sub (data (z p)) (data (z q))) as [dz|]; simpl;
    [|reflexivity].
  assert (E : Cartesian3.class_from_xyz (cls p) (mkArray NdArray dx)
                (mkArray NdArray dy) (mkArray NdArray dz)
              = Ok (mkPoint3 Cartesian3_cls (mkArray NdArray dx)
                      (mkArray NdArray dy) (mkArray NdArray dz)))
    by (destruct (cls p); reflexivity).
  rewrite E. simpl.
  unfold Cartesian3.to_tensor, tf_stack, same_length; simpl.
  rewrite !length_map.
  destruct (Nat.eqb (length dy) (length dx) && (Nat.eqb (length dz) (length dx) && true));
    reflexivity.
Qed.

Hypothesis square_sub_swap :
  forall u v : A, mul (sub u v) (sub u v) = mul (sub v u) (sub v u).

Lemma square_diff_swap (a b : array A) : square_diff a b = square_diff b a.
Proof.
  unfold square_diff.
  rewrite <- (broadcast_flip sub (data b) (data a)).
  apply broadcast_under. intros u v. apply square_sub_swap.
Qed.

Lemma distance_to_swap (p q : point3 A) :
  Cartesian3.distance_to p q = Cartesian3.distance_to q p.
Proof.
  rewrite !distance_to_eq.
  rewrite (square_diff_swap (x p) (x q)), (square_diff_swap (y p) (y q)),
    (square_diff_swap (z p) (z q)).
  reflexivity.
Qed.

End DistanceFacts.

Lemma fp_square_sub_swap (prec emax : Z) (u v : fp prec emax) :
  mul (sub u v) (sub u v) = mul (sub v u) (sub v u).
Proof.
  destruct u as [u], v as [v]; simpl. f_equal. apply SFsquare_sub_swap.
Qed.

Lemma R_square_sub_swap (u v : R) :
  mul (sub u v) (sub u v) = mul (sub v u) (sub v u).
Proof. simpl. ring. Qed.

(** X7: [distance_to] is symmetric: [p.distance_to(q)] and [q.distance_to(p)]
    are the same result, value for value in every binary floating-point
    format and in exact arithmetic, and the same exception when the shapes
    do not fit.  So the length of a segment does not depend on which end
    point comes first. *)
Theorem distance_to_is_symmetric :
  (forall (prec emax : Z) (p q : point3 (fp prec emax)),
     Cartesian3.distance_to p q = Cartesian3.distance_to q p
     /\ Segment.seg_length (mkSegment p q) = Segment.seg_length (mkSegment q p))
  /\ (forall p q : point3 R,
        Cartesian3.distance_to p q = Cartesian3.distance_to q p
        /\ Segment.seg_length (mkSegment p q) = Segment.seg_length (mkSegment q p)).
Proof.
  split; intros; split; unfold Segment.seg_length; simpl.
  - apply distance_to_swap, fp_square_sub_swap.
  - apply distance_to_swap, fp_square_sub_swap.
  - apply distance_to_swap, R_square_sub_swap.
  - apply distance_to_swap, R_square_sub_swap.
Qed.


Lemma distance_to_self_eq {A : Type} `{Scalar A} (p : point3 A) (n : nat) :
  has_size p n ->
  Cartesian3.distance_to p p = Ok (mkArray Tensor (map self_distance (points p))).
Proof.
  intros Hp. apply has_size_inv in Hp as (Hx & Hy & Hz).
  rewrite distance_to_eq. unfold square_diff.
  rewrite !broadcast_same by reflexivity. simpl.
  rewrite !length_map, !zip_with_length_same by reflexivity.
  rewrite Hx, Hy, Hz, Nat.eqb_refl. simpl. do 2 f_equal.
  unfold points. destruct p as [c [kx lx] [ky ly] [kz lz]]; simpl in *.
  assert (E1 : length lx = length ly) by congruence.
  assert (E2 : length ly = length lz) by congruence.
  clear - E1 E2. revert ly lz E1 E2.
  induction lx as [|u lx IH]; intros [|v ly] [|w lz]; simpl; try discriminate;
    intros E1 E2; [reflexivity|].
  f_equal. apply IH; congruence.
Qed.

Lemma map_constant {T U : Type} (f : T -> U) (c : U) (l : list T) :
  Forall (fun v => f v = c) l -> map f l = repeat c (length l).
Proof. induction 1 as [|v l E _ IH]; simpl; congruence. Qed.

Lemma fp_self_distance (prec emax : Z) (u v w : fp prec emax) :
  finite u = true -> finite v = true -> finite w = true ->
  self_distance (u, v, w) = of_Z 0.
Proof.
  destruct u as [u], v as [v], w as [w]; unfold finite; simpl.
  intros Fu Fv Fw. 
  rewrite !SFsub_diag
    by (match goal with |- match ?t with _ => _ end => destruct t end;
        simpl in *; try discriminate; exact I).
  reflexivity.
Qed.

Lemma all_finite_points (prec emax : Z) (p : point3 (fp prec emax)) :
  all_finite p ->
  Forall (fun v => self_distance v = of_Z 0) (points p).
Proof.
  intros (Fx & Fy & Fz). unfold points.
  destruct p as [c [kx lx] [ky ly] [kz lz]]; simpl in *.
  revert ly lz Fy Fz. induction Fx as [|u lx Fu Fx IH]; intros ly lz Fy Fz;
    [constructor|].
  destruct Fy as [|v ly Fv Fy]; [constructor|].
  destruct Fz as [|w lz Fw Fz]; [constructor|].
  simpl. constructor; [apply fp_self_distance; assumption | apply IH; assumption].
Qed.

Lemma R_self_distance (v : R * R * R) : self_distance v = 0%R.
Proof.
  destruct v as [[u v] w]; simpl.
  replace ((u - u) * (u - u) + (v - v) * (v - v) + (w - w) * (w - w))%R
    with 0%R by ring.
  apply sqrt_0.
Qed.

(** X8: The distance of a batch to itself is 0 at every point: exactly [+0]
    in every binary floating-point format when the coordinates are finite,
    and 0 in exact arithmetic. *)
Theorem distance_to_itself_is_zero :
  (forall (prec emax : Z) (p : point3 (fp prec emax)) (n : nat),
     has_size p n -> all_finite p ->
     Cartesian3.distance_to p p = Ok (mkArray Tensor (repeat (of_Z 0) n)))
  /\ (forall (p : point3 R) (n : nat),
        has_size p n ->
        Cartesian3.distance_to p p = Ok (mkArray Tensor (repeat 0%R n))).
Proof.
  split.
  - intros prec emax p n Hp Hf.
    rewrite (distance_to_self_eq Hp).
    rewrite (map_constant _ (all_finite_points Hf)), (points_length Hp).
    reflexivity.
  - intros p n Hp. rewrite (distance_to_self_eq Hp).
    rewrite (map_constant self_distance (c := 0%R)), (points_length Hp);
      [reflexivity|].
    apply Forall_forall. intros v _. apply R_self_distance.
Qed.

Lemma distance_to_itself_is_zero_witness :
  Cartesian3.distance_to (@three_points float64_type _) three_points
  = Ok (mkArray Tensor (repeat (of_Z 0) 3)).
Proof.
  destruct distance_to_itself_is_zero as [Hfp _].
  apply (Hfp 53%Z 1024%Z three_points 3%nat); [reflexivity|].
  repeat split; repeat constructor.
Defined.

(** An infinite coordinate is the exception: the distance of such a point
    to itself is a NaN. *)
Example distance_to_itself_at_infinity :
  let far : point3 float64_type :=
    Cartesian3.__init__ (mkArray NdArray [Fp (S754_infinity false)])
                        (ndarray [0%Z]) (ndarray [0%Z]) in
  Cartesian3.distance_to far far = Ok (mkArray Tensor [Fp S754_nan]).
Proof. vm_compute. reflexivity. Qed.

(** ** The cross product and the unit vector *)


Section VectorFacts.
Context {A : Type} `{Scalar A}.

Lemma Vector_cross_eq (vx vy vz : array A) (w : point3 A) (n : nat) :
  length (data vx) = n -> length (data vy) = n -> length (data vz) = n ->
  has_size w n ->
  Vector.cross (Vector.__init__ vx vy vz) w
  = Ok (mkPoint3 Vector_cls
          (mkArray Tensor
             (zip_with sub (zip_with mul (data vy) (data (z w)))
                           (zip_with mul (data vz) (data (y w)))))
          (mkArray Tensor
             (zip_with sub (zip_with mul (data vz) (data (x w)))
                           (zip_with mul (data vx) (data (z w)))))
          (mkArray Tensor
             (zip_with sub (zip_with mul (data vx) (data (y w)))
                           (zip_with mul (data vy) (data (x w)))))).
Proof.
  intros Hx Hy Hz Hw. apply has_size_inv in Hw as (Hx' & Hy' & Hz').
  unfold Vector.cross; simpl.
  repeat (rewrite py_binary_tensor_l by reflexivity;
          rewrite tf_binary_same
            by (simpl; rewrite ?zip_with_length; lia);
          simpl).
  reflexivity.
Qed.

(** [Vector.cross] on batches is [cross3] on each pair of points. *)
Lemma Vector_cross_points (vx vy vz : array A) (w : point3 A) (n : nat) :
  length (data vx) = n -> length (data vy) = n -> length (data vz) = n ->
  has_size w n ->
  exists c : point3 A,
    Vector.cross (Vector.__init__ vx vy vz) w = Ok c
    /\ cls c = Vector_cls
    /\ has_size c n
    /\ points c = zip_with cross3 (points (Vector.__init__ vx vy vz)) (points w).
Proof.
  intros Hx Hy Hz Hw. rewrite (Vector_cross_eq _ _ _ Hx Hy Hz Hw).
  apply has_size_inv in Hw as (Hx' & Hy' & Hz').
  eexists; split; [reflexivity|]. split; [reflexivity|]. split.
  - unfold has_size, size; simpl. rewrite !zip_with_length.
    f_equal; [f_equal|]; lia.
  - unfold points; simpl.
    destruct vx as [k1 lx], vy as [k2 ly], vz as [k3 lz],
             w as [c [k4 lx'] [k5 ly'] [k6 lz']]; simpl in *.
    clear - Hx Hy Hz Hx' Hy' Hz'. subst n.
    revert ly lz lx' ly' lz' Hy Hz Hx' Hy' Hz'.
    induction lx as [|a lx IH];
      intros [|b ly] [|c lz] [|a' lx'] [|b' ly'] [|c' lz']; simpl;
      try discriminate; intros Hy Hz Hx' Hy' Hz'; [reflexivity|].
    f_equal. apply IH; congruence.
Qed.

Lemma Vector_norm_points (vx vy vz : array A) (n : nat) :
  length (data vx) = n -> length (data vy) = n -> length (data vz) = n ->
  Vector.norm (Vector.__init__ vx vy vz)
  = Ok (mkArray Tensor (map norm3 (points (Vector.__init__ vx vy vz)))).
Proof.
  intros Hx Hy Hz. rewrite Vector_norm_eq by congruence. do 2 f_equal.
  unfold norm_data, points; simpl.
  destruct vx as [k1 lx], vy as [k2 ly], vz as [k3 lz]; simpl in *.
  subst n. revert ly lz Hy Hz.
  induction lx as [|a lx IH]; intros [|b ly] [|c lz]; simpl;
    try discriminate; intros Hy Hz; [reflexivity|].
  f_equal. apply IH; congruence.
Qed.

Lemma Vector_unit_points (vx vy vz : array A) (n : nat) :
  length (data vx) = n -> length (data vy) = n -> length (data vz) = n ->
  exists u : point3 A,
    Vector.unit (Vector.__init__ vx vy vz) = Ok u
    /\ cls u = Vector_cls
    /\ has_size u n
    /\ (kind (x u) = Tensor /\ kind (y u) = Tensor /\ kind (z u) = Tensor)
    /\ points u = map unit3 (points (Vector.__init__ vx vy vz)).
Proof.
  intros Hx Hy Hz. rewrite Vector_unit_eq by congruence.
  pose proof (@norm_data_length A _ (data vx) (data vy) (data vz)
                ltac:(congruence) ltac:(congruence)) as L.
  eexists; split; [reflexivity|]. split; [reflexivity|]. split; [|split; [auto|]].
  - unfold has_size, size; simpl. rewrite !zip_with_length, L.
    f_equal; [f_equal|]; lia.
  - unfold norm_data, points; simpl.
    destruct vx as [k1 lx], vy as [k2 ly], vz as [k3 lz]; simpl in *.
    clear L. subst n. revert ly lz Hy Hz.
    induction lx as [|a lx IH]; intros [|b ly] [|c lz]; simpl;
      try discriminate; intros Hy Hz; [reflexivity|].
    f_equal. apply IH; congruence.
Qed.

End VectorFacts.

Section CrossLaws.
Local Open Scope R_scope.

Lemma cross3_swap (P Q : list (R * R * R)) :
  zip_with cross3 Q P
  = map (fun v : R * R * R => let '(a, b, c) := v in (- a, - b, - c))
        (zip_with cross3 P Q).
Proof.
  revert Q; induction P as [|[[a b] c] P IH]; intros [|[[a' b'] c'] Q]; simpl;
    try reflexivity.
  rewrite IH. f_equal. f_equal; [f_equal|]; ring.
Qed.

Lemma cross3_self (P : list (R * R * R)) :
  zip_with cross3 P P = repeat (0, 0, 0) (length P).
Proof.
  induction P as [|[[a b] c] P IH]; simpl; [reflexivity|].
  rewrite IH. f_equal. f_equal; [f_equal|]; ring.
Qed.

Lemma cross3_orthogonal (P Q : list (R * R * R)) :
  length P = length Q ->
  zip_with inner3 P (zip_with cross3 P Q) = repeat 0 (length P)
  /\ zip_with inner3 Q (zip_with cross3 P Q) = repeat 0 (length P).
Proof.
  revert Q; induction P as [|[[a b] c] P IH]; intros [|[[a' b'] c'] Q]; simpl;
    try discriminate; intros E; [split; reflexivity|].
  destruct (IH Q) as [E1 E2]; [congruence|].
  rewrite E1, E2. split; f_equal; ring.
Qed.

End CrossLaws.

(** X9: In exact arithmetic [Vector.cross] is a cross product: exchanging the
    operands negates every component, the product of a batch with itself
    is zero at every point, and the product is orthogonal, point by point,
    to both operands. *)
Theorem cross_product_laws :
  forall (vx vy vz wx wy wz : array R) (n : nat),
    length (data vx) = n -> length (data vy) = n -> length (data vz) = n ->
    length (data wx) = n -> length (data wy) = n -> length (data wz) = n ->
    let v := Vector.__init__ vx vy vz in
    let w := Vector.__init__ wx wy wz in
    exists c c' s : point3 R,
      Vector.cross v w = Ok c /\ Vector.cross w v = Ok c'
      /\ Vector.cross v v = Ok s
      /\ cls c = Vector_cls /\ has_size c n
      /\ points c'
         = map (fun u : R * R * R => let '(a, b, d) := u in (- a, - b, - d)%R)
               (points c)
      /\ points s = repeat (0, 0, 0)%R n
      /\ zip_with inner3 (points v) (points c) = repeat 0%R n
      /\ zip_with inner3 (points w) (points c) = repeat 0%R n.
Proof.
  intros vx vy vz wx wy wz n Hx Hy Hz Hx' Hy' Hz' v w.
  assert (Sv : has_size v n)
    by (unfold has_size, size; simpl; congruence).
  assert (Sw : has_size w n)
    by (unfold has_size, size; simpl; congruence).
  destruct (Vector_cross_points vx vy vz Hx Hy Hz Sw) as (c & Ec & Cc & Sc & Pc).
  destruct (Vector_cross_points wx wy wz Hx' Hy' Hz' Sv) as (c' & Ec' & _ & _ & Pc').
  destruct (Vector_cross_points vx vy vz Hx Hy Hz Sv) as (s & Es & _ & _ & Ps).
  exists c, c', s. fold v in Ec, Es, Pc, Pc', Ps. fold w in Ec', Pc, Pc'.
  pose proof (points_length Sv) as Lv. pose proof (points_length Sw) as Lw.
  destruct (@cross3_orthogonal (points v) (points w)) as [O1 O2]; [congruence|].
  repeat split; try assumption.
  - rewrite Pc', Pc. apply cross3_swap.
  - rewrite Ps, cross3_self, Lv. reflexivity.
  - rewrite Pc, O1, Lv. reflexivity.
  - rewrite Pc, O2, Lv. reflexivity.
Qed.

Lemma cross_product_laws_witness :
  exists c c' s : point3 R,
    let v := Vector.__init__ (ndarray [1%Z]) (ndarray [2%Z]) (ndarray [3%Z]) in
    let w := Vector.__init__ (ndarray [4%Z]) (ndarray [5%Z]) (ndarray [6%Z]) in
    Vector.cross v w = Ok c /\ Vector.cross w v = Ok c'
    /\ Vector.cross v v = Ok s
    /\ cls c = Vector_cls /\ has_size c 1
    /\ points c'
       = map (fun u : R * R * R => let '(a, b, d) := u in (- a, - b, - d)%R)
             (points c)
    /\ points s = repeat (0, 0, 0)%R 1
    /\ zip_with inner3 (points v) (points c) = repeat 0%R 1
    /\ zip_with inner3 (points w) (points c) = repeat 0%R 1.
Proof.
  apply (@cross_product_laws (ndarray [1%Z]) (ndarray [2%Z]) (ndarray [3%Z])
           (ndarray [4%Z]) (ndarray [5%Z]) (ndarray [6%Z]) 1%nat);
    reflexivity.
Defined.

Section UnitLaws.
Local Open Scope R_scope.

Lemma sum_squares_pos (a b c : R) :
  (a, b, c) <> (0, 0, 0) -> 0 < a * a + b * b + c * c.
Proof.
  intros N.
  destruct (Req_dec a 0) as [Ea|Na]; [|nra].
  destruct (Req_dec b 0) as [Eb|Nb]; [|nra].
  destruct (Req_dec c 0) as [Ec|Nc]; [|nra].
  subst. contradiction N. reflexivity.
Qed.

Lemma norm3_unit3 (u : R * R * R) :
  u <> (0, 0, 0) -> norm3 (unit3 u) = 1.
Proof.
  destruct u as [[a b] c]. intros N. pose proof (sum_squares_pos N) as Hs.
  simpl.
  set (s := a * a + b * b + c * c) in *.
  assert (Hq : R_sqrt.sqrt s * R_sqrt.sqrt s = s) by (apply sqrt_sqrt; lra).
  assert (Hp : 0 < R_sqrt.sqrt s) by (apply sqrt_lt_R0; exact Hs).
  replace (a / R_sqrt.sqrt s * (a / R_sqrt.sqrt s)
           + b / R_sqrt.sqrt s * (b / R_sqrt.sqrt s)
           + c / R_sqrt.sqrt s * (c / R_sqrt.sqrt s))
    with (s / (R_sqrt.sqrt s * R_sqrt.sqrt s)).
  - rewrite Hq. replace (s / s) with 1 by (field; lra). apply sqrt_1.
  - subst s. field. lra.
Qed.

End UnitLaws.

Lemma Vector_shape {A : Type} `{Scalar A} (u : point3 A) :
  cls u = Vector_cls ->
  kind (x u) = Tensor -> kind (y u) = Tensor -> kind (z u) = Tensor ->
  u = Vector.__init__ (x u) (y u) (z u).
Proof.
  destruct u as [c [kx lx] [ky ly] [kz lz]]; simpl.
  intros -> -> -> ->. reflexivity.
Qed.

(** X10: In exact arithmetic [Vector.unit] normalises: when no point of the
    batch is the origin, every point of the result has norm 1, and the
    result is a [Vector] of the same size. *)
Theorem unit_vector_has_norm_one :
  forall (vx vy vz : array R) (n : nat),
    length (data vx) = n -> length (data vy) = n -> length (data vz) = n ->
    Forall (fun u => u <> (0, 0, 0)%R) (points (Vector.__init__ vx vy vz)) ->
    exists (u : point3 R) (nrm : array R),
      Vector.unit (Vector.__init__ vx vy vz) = Ok u
      /\ cls u = Vector_cls /\ has_size u n
      /\ Vector.norm u = Ok nrm
      /\ data nrm = repeat 1%R n.
Proof.
  intros vx vy vz n Hx Hy Hz Hnz.
  destruct (Vector_unit_points vx vy vz Hx Hy Hz)
    as (u & Eu & Cu & Su & (Kx & Ky & Kz) & Pu).
  pose proof Su as Su'. apply has_size_inv in Su' as (Lx & Ly & Lz).
  pose proof (Vector_norm_points (x u) (y u) (z u) Lx Ly Lz) as Hn.
  rewrite <- (Vector_shape u Cu Kx Ky Kz) in Hn.
  exists u, (mkArray Tensor (map norm3 (points u))).
  split; [exact Eu|]. split; [exact Cu|]. split; [exact Su|].
  split; [exact Hn|]. simpl.
  rewrite Pu, map_map.
  assert (Sv : has_size (Vector.__init__ vx vy vz) n)
    by (unfold has_size, size; simpl; congruence).
  rewrite <- (points_length Sv).
  apply map_constant. revert Hnz. apply Forall_impl.
  intros pt N. apply norm3_unit3. exact N.
Qed.

Lemma unit_vector_has_norm_one_witness :
  exists (u : point3 R) (nrm : array R),
    Vector.unit (Vector.__init__ (ndarray [3%Z]) (ndarray [4%Z]) (ndarray [0%Z]))
    = Ok u
    /\ cls u = Vector_cls /\ has_size u 1
    /\ Vector.norm u = Ok nrm
    /\ data nrm = repeat 1%R 1.
Proof.
  apply (@unit_vector_has_norm_one (ndarray [3%Z]) (ndarray [4%Z])
           (ndarray [0%Z]) 1%nat); try reflexivity.
  constructor; [|constructor]. simpl. intros E. injection E. lra.
Defined.

(** ** More on rotations *)

Section RotationLaws.
Local Open Scope R_scope.

Lemma Rx_isometry (a : R) (u v : R * R * R) :
  inner3 (mat_vec (Rx a) u) (mat_vec (Rx a) v) = inner3 u v.
Proof.
  destruct u as [[ux uy] uz], v as [[vx vy] vz]; simpl.
  pose proof (sin2_cos2 a) as E; unfold Rsqr in E.
  set (s := Rtrigo_def.sin a) in *. set (c := Rtrigo_def.cos a) in *.
  replace ((1 * ux + 0 * uy + 0 * uz) * (1 * vx + 0 * vy + 0 * vz)
           + (0 * ux + c * uy + - s * uz) * (0 * vx + c * vy + - s * vz)
           + (0 * ux + s * uy + c * uz) * (0 * vx + s * vy + c * vz))
    with (ux * vx + (s * s + c * c) * (uy * vy + uz * vz)) by ring.
  rewrite E. ring.
Qed.

Lemma Ry_isometry (a : R) (u v : R * R * R) :
  inner3 (mat_vec (Ry a) u) (mat_vec (Ry a) v) = inner3 u v.
Proof.
  destruct u as [[ux uy] uz], v as [[vx vy] vz]; simpl.
  pose proof (sin2_cos2 a) as E; unfold Rsqr in E.
  set (s := Rtrigo_def.sin a) in *. set (c := Rtrigo_def.cos a) in *.
  replace ((c * ux + 0 * uy + s * uz) * (c * vx + 0 * vy + s * vz)
           + (0 * ux + 1 * uy + 0 * uz) * (0 * vx + 1 * vy + 0 * vz)
           + (- s * ux + 0 * uy + c * uz) * (- s * vx + 0 * vy + c * vz))
    with (uy * vy + (s * s + c * c) * (ux * vx + uz * vz)) by ring.
  rewrite E. ring.
Qed.

Lemma Rz_isometry (a : R) (u v : R * R * R) :
  inner3 (mat_vec (Rz a) u) (mat_vec (Rz a) v) = inner3 u v.
Proof.
  destruct u as [[ux uy] uz], v as [[vx vy] vz]; simpl.
  pose proof (sin2_cos2 a) as E; unfold Rsqr in E.
  set (s := Rtrigo_def.sin a) in *. set (c := Rtrigo_def.cos a) in *.
  replace ((c * ux + - s * uy + 0 * uz) * (c * vx + - s * vy + 0 * vz)
           + (s * ux + c * uy + 0 * uz) * (s * vx + c * vy + 0 * vz)
           + (0 * ux + 0 * uy + 1 * uz) * (0 * vx + 0 * vy + 1 * vz))
    with (uz * vz + (s * s + c * c) * (ux * vx + uy * vy)) by ring.
  rewrite E. ring.
Qed.

Lemma rotations_at_zero (v : R * R * R) :
  mat_vec (Rx 0) v = v /\ mat_vec (Ry 0) v = v /\ mat_vec (Rz 0) v = v.
Proof.
  destruct v as [[vx vy] vz]; simpl. rewrite cos_0, sin_0.
  repeat split; (f_equal; [f_equal|]); ring.
Qed.

Lemma Rx_inverse (a : R) (v : R * R * R) :
  mat_vec (Rx (- a)) (mat_vec (Rx a) v) = v.
Proof.
  destruct v as [[vx vy] vz]; simpl. rewrite cos_neg, sin_neg.
  pose proof (sin2_cos2 a) as E; unfold Rsqr in E.
  set (s := Rtrigo_def.sin a) in *. set (c := Rtrigo_def.cos a) in *.
  f_equal; [f_equal|].
  - ring.
  - match goal with
    | |- ?L = vy => replace L with ((s * s + c * c) * vy) by ring
    end. rewrite E; ring.
  - match goal with
    | |- ?L = vz => replace L with ((s * s + c * c) * vz) by ring
    end. rewrite E; ring.
Qed.

End RotationLaws.

Lemma zip_inner3_map (F : R * R * R -> R * R * R) (P Q : list (R * R * R)) :
  (forall u v, inner3 (F u) (F v) = inner3 u v) ->
  zip_with inner3 (map F P) (map F Q) = zip_with inner3 P Q.
Proof.
  intros HF. revert Q; induction P as [|u P IH]; intros [|v Q]; simpl;
    try reflexivity.
  rewrite HF, IH. reflexivity.
Qed.

Lemma norm3_inner3 (u : R * R * R) : norm3 u = R_sqrt.sqrt (inner3 u u).
Proof. destruct u as [[a b] c]; reflexivity. Qed.

(** X12: In exact arithmetic [rotate_ypr] is an isometry about the origin: two
    batches rotated by the same angles keep their scalar products point by
    point, so every point keeps its distance from the origin. *)
Theorem rotate_ypr_is_an_isometry :
  forall (p q : point3 R) (n : nat) (a b c : R),
    has_size p n -> has_size q n ->
    exists p' q' : point3 R,
      Cartesian3.rotate_ypr p [a; b; c] = Ok p'
      /\ Cartesian3.rotate_ypr q [a; b; c] = Ok q'
      /\ zip_with inner3 (points p') (points q')
         = zip_with inner3 (points p) (points q)
      /\ map norm3 (points p') = map norm3 (points p).
Proof.
  intros p q n a b c Hp Hq.
  destruct (rotate_ypr_points a b c Hp) as (p' & Ep & _ & _ & Pp).
  destruct (rotate_ypr_points a b c Hq) as (q' & Eq & _ & _ & Pq).
  exists p', q'. split; [exact Ep|]. split; [exact Eq|].
  assert (HF : forall u v : R * R * R,
            inner3 (mat_vec (Rz c) (mat_vec (Ry b) (mat_vec (Rx a) u)))
                   (mat_vec (Rz c) (mat_vec (Ry b) (mat_vec (Rx a) v)))
            = inner3 u v).
  { intros u v. rewrite Rz_isometry, Ry_isometry, Rx_isometry. reflexivity. }
  split.
  - rewrite Pp, Pq. apply zip_inner3_map. exact HF.
  - rewrite Pp, map_map. apply map_ext. intros u.
    rewrite !norm3_inner3, HF. reflexivity.
Qed.

Lemma rotate_ypr_is_an_isometry_witness :
  exists p' q' : point3 R,
    Cartesian3.rotate_ypr two_points [of_Z 1; of_Z 2; of_Z 3] = Ok p'
    /\ Cartesian3.rotate_ypr other_two_points [of_Z 1; of_Z 2; of_Z 3] = Ok q'
    /\ zip_with inner3 (points p') (points q')
       = zip_with inner3 (points two_points) (points other_two_points)
    /\ map norm3 (points p') = map norm3 (points two_points).
Proof.
  apply (@rotate_ypr_is_an_isometry two_points other_two_points 2%nat);
    reflexivity.
Defined.

(** X13: In exact arithmetic, rotating by three zero angles leaves every point
    where it is, and a rotation about X by [a] is undone by a second call
    with [-a].  The batch that comes back is a plain [Cartesian3] of
    [ndarray]s. *)
Theorem rotate_ypr_by_zero_and_back :
  forall (p : point3 R) (n : nat) (a : R),
    has_size p n ->
    exists p0 p2 : point3 R,
      Cartesian3.rotate_ypr p [0%R; 0%R; 0%R] = Ok p0
      /\ points p0 = points p
      /\ (p1 <- Cartesian3.rotate_ypr p [a; 0%R; 0%R] ;;
          Cartesian3.rotate_ypr p1 [(- a)%R; 0%R; 0%R]) = Ok p2
      /\ points p2 = points p
      /\ cls p0 = Cartesian3_cls /\ cls p2 = Cartesian3_cls
      /\ has_size p0 n /\ has_size p2 n.
Proof.
  intros p n a Hp.
  destruct (rotate_ypr_points 0%R 0%R 0%R Hp) as (p0 & E0 & C0 & S0 & P0).
  destruct (rotate_ypr_points a 0%R 0%R Hp) as (p1 & E1 & _ & S1 & P1).
  destruct (rotate_ypr_points (- a)%R 0%R 0%R S1) as (p2 & E2 & C2 & S2 & P2).
  exists p0, p2. rewrite E0, E1. unfold bind. rewrite E2.
  assert (Id : forall v : R * R * R,
            mat_vec (Rz 0%R) (mat_vec (Ry 0%R) v) = v).
  { intros v. destruct (rotations_at_zero v) as (_ & Ey & _).
    destruct (rotations_at_zero (mat_vec (Ry 0%R) v)) as (_ & _ & Ez).
    rewrite Ez, Ey. reflexivity. }
  repeat split; try assumption.
  - rewrite P0. rewrite <- (map_id (points p)) at 2. apply map_ext.
    intros v. rewrite Id. apply rotations_at_zero.
  - rewrite P2, P1, map_map. rewrite <- (map_id (points p)) at 2.
    apply map_ext. intros v. rewrite !Id. apply Rx_inverse.
Qed.

Lemma rotate_ypr_by_zero_and_back_witness :
  exists p0 p2 : point3 R,
    Cartesian3.rotate_ypr two_points [0%R; 0%R; 0%R] = Ok p0
    /\ points p0 = points two_points
    /\ (p1 <- Cartesian3.rotate_ypr two_points [1%R; 0%R; 0%R] ;;
        Cartesian3.rotate_ypr p1 [(- 1)%R; 0%R; 0%R]) = Ok p2
    /\ points p2 = points two_points
    /\ cls p0 = Cartesian3_cls /\ cls p2 = Cartesian3_cls
    /\ has_size p0 2 /\ has_size p2 2.
Proof.
  apply (@rotate_ypr_by_zero_and_back two_points 2%nat 1%R). reflexivity.
Defined.

(** X14: What [rotate_ypr] refuses, for every scalar type: fewer than three
    angles raise [IndexError] (at once when there is none, after the
    rotations that could be done otherwise); coordinates of different
    lengths cannot be stacked and raise TensorFlow's
    [InvalidArgumentError] as soon as there is a first angle.  Angles
    after the third are ignored. *)
Theorem rotate_ypr_refusals :
  forall (A : Type) (SA : Scalar A) (TA : Trig A) (p : point3 A)
         (rv_ypr : list A),
    (rv_ypr = [] -> Cartesian3.rotate_ypr p rv_ypr = Raise IndexError)
    /\ (forall n, has_size p n -> length rv_ypr < 3 ->
        Cartesian3.rotate_ypr p rv_ypr = Raise IndexError)
    /\ ((forall n, ~ has_size p n) -> rv_ypr <> [] ->
        Cartesian3.rotate_ypr p rv_ypr = Raise InvalidArgumentError)
    /\ (forall a b c rest, rv_ypr = a :: b :: c :: rest ->
        Cartesian3.rotate_ypr p rv_ypr = Cartesian3.rotate_ypr p [a; b; c]).
Proof.
  intros A SA TA p rv. split; [|split; [|split]].
  - intros ->. reflexivity.
  - intros n Hp Hl. unfold Cartesian3.rotate_ypr.
    destruct rv as [|a [|b [|c rest]]]; simpl in Hl; try lia; simpl.
    + reflexivity.
    + rewrite rotation_matrix_x_rows.
      destruct (left_matmul_points Tensor (Rx a) Hp) as (p1 & E1 & _).
      rewrite E1. reflexivity.
    + rewrite rotation_matrix_x_rows.
      destruct (left_matmul_points Tensor (Rx a) Hp) as (p1 & E1 & _ & _ & S1 & _).
      rewrite E1. simpl. rewrite rotation_matrix_y_rows.
      destruct (left_matmul_points Tensor (Ry b) S1) as (p2 & E2 & _).
      rewrite E2. reflexivity.
  - intros Hr Hv. destruct rv as [|a rest]; [congruence|].
    unfold Cartesian3.rotate_ypr, Cartesian3.left_matmul, Cartesian3.to_matrix,
      tf_stack, same_length; simpl.
    destruct (Nat.eqb_spec (length (data (y p))) (length (data (x p)))) as [Ey|Ny];
      [|reflexivity].
    destruct (Nat.eqb_spec (length (data (z p))) (length (data (x p)))) as [Ez|Nz];
      [|reflexivity].
    exfalso. apply (Hr (length (data (x p)))).
    unfold has_size, size. rewrite Ey, Ez. reflexivity.
  - intros a b c rest ->. reflexivity.
Qed.

Lemma rotate_ypr_refusals_witness :
  Cartesian3.rotate_ypr (@two_points R _) [1%R; 2%R] = Raise IndexError
  /\ Cartesian3.rotate_ypr
       (Cartesian3.__init__ (@ndarray R _ [1%Z]) (ndarray [1%Z; 2%Z]) (ndarray [1%Z]))
       [1%R; 2%R; 3%R] = Raise InvalidArgumentError.
Proof.
  split.
  - destruct (@rotate_ypr_refusals R _ _ two_points [1%R; 2%R])
      as (_ & Hshort & _ & _).
    apply (Hshort 2%nat); [reflexivity | simpl; lia].
  - destruct (@rotate_ypr_refusals R _ _
                (Cartesian3.__init__ (ndarray [1%Z]) (ndarray [1%Z; 2%Z])
                                     (ndarray [1%Z]))
                [1%R; 2%R; 3%R]) as (_ & _ & Hragged & _).
    apply Hragged; [|discriminate].
    intros n Hn. unfold has_size, size in Hn. simpl in Hn. congruence.
Defined.

(** ** Boxes *)


Section ChunkFacts.
Context {A : Type}.

Lemma chunks_length (k c : nat) (l : list A) : length (chunks k c l) = c.
Proof. revert l; induction c as [|c IH]; intros l; simpl; auto. Qed.

Lemma chunks_each (k c : nat) (l : list A) :
  length l = c * k -> Forall (fun ch => length ch = k) (chunks k c l).
Proof.
  revert l; induction c as [|c IH]; intros l E; simpl; constructor.
  - apply firstn_length_le. simpl in E. lia.
  - apply IH. rewrite length_skipn. simpl in E. lia.
Qed.

Lemma chunks_concat (k c : nat) (l : list A) :
  length l = c * k -> List.concat (chunks k c l) = l.
Proof.
  revert l; induction c as [|c IH]; intros l E; simpl.
  - destruct l; [reflexivity | discriminate].
  - rewrite IH by (rewrite length_skipn; simpl in E; lia).
    apply firstn_skipn.
Qed.

Lemma triples_firstn_skipn (k : nat) (a b c : list A) :
  zip_with (fun u vw => (u, fst vw, snd vw)) (firstn k a)
           (combine (firstn k b) (firstn k c))
  ++ zip_with (fun u vw => (u, fst vw, snd vw)) (skipn k a)
              (combine (skipn k b) (skipn k c))
  = zip_with (fun u vw => (u, fst vw, snd vw)) a (combine b c).
Proof.
  revert a b c; induction k as [|k IH]; intros a b c; [reflexivity|].
  destruct a as [|u a]; [reflexivity|].
  destruct b as [|v b]; [simpl; destruct (firstn k a), (skipn k a); reflexivity|].
  destruct c as [|w c].
  - simpl. destruct (firstn k a), (skipn k a); simpl;
      destruct (firstn k b), (skipn k b); reflexivity.
  - simpl. f_equal. apply IH.
Qed.

(** Cutting the three coordinate arrays into the same chunks and pairing
    the chunks up gives the points back, chunk after chunk. *)
Lemma chunks_triples (k c : nat) (lx ly lz : list A) :
  length lx = c * k -> length ly = c * k -> length lz = c * k ->
  List.concat
    (zip_with (fun cx cyz => zip_with (fun u vw => (u, fst vw, snd vw)) cx
                               (combine (fst cyz) (snd cyz)))
              (chunks k c lx) (combine (chunks k c ly) (chunks k c lz)))
  = zip_with (fun u vw => (u, fst vw, snd vw)) lx (combine ly lz).
Proof.
  revert lx ly lz; induction c as [|c IH]; intros lx ly lz Ex Ey Ez; simpl.
  - destruct lx; [reflexivity | discriminate].
  - rewrite IH by (rewrite length_skipn; simpl in *; lia).
    apply triples_firstn_skipn.
Qed.

End ChunkFacts.

Section BoxFacts.
Context {A : Type} `{Scalar A} `{Trig A}.

(** The faces [from_vertices_of_surface] builds from three lists of chunks. *)
Lemma faces_of_chunks (cxs cys czs : list (list A)) (k : nat) :
  length cxs = length cys -> length cys = length czs ->
  Forall (fun ch => length ch = k) cxs ->
  Forall (fun ch => length ch = k) cys ->
  Forall (fun ch => length ch = k) czs ->
  let faces :=
    zip_with (fun cx yz => mkSurface (Cartesian3.__init__ cx (fst yz) (snd yz)))
             (map (mkArray Tensor) cxs)
             (combine (map (mkArray Tensor) cys) (map (mkArray Tensor) czs)) in
  length faces = length cxs
  /\ Forall (fun s : surface A =>
               has_size (vertices s) k /\ cls (vertices s) = Cartesian3_cls) faces
  /\ List.concat (map (fun s : surface A => points (vertices s)) faces)
     = List.concat
         (zip_with (fun cx cyz => zip_with (fun u vw => (u, fst vw, snd vw)) cx
                                    (combine (fst cyz) (snd cyz)))
                   cxs (combine cys czs)).
Proof.
  revert cys czs; induction cxs as [|cx cxs IH]; intros [|cy cys] [|cz czs];
    simpl; try discriminate; intros E1 E2 Fx Fy Fz.
  - repeat split; constructor.
  - inversion Fx as [|? ? Lx Fx']; inversion Fy as [|? ? Ly Fy'];
      inversion Fz as [|? ? Lz Fz']; subst.
    destruct (IH cys czs) as (L & F & P); try congruence; try assumption.
    repeat split.
    + simpl in L. congruence.
    + constructor; [|exact F]. split; [|reflexivity].
      unfold has_size, size; simpl. congruence.
    + simpl in P. rewrite P. reflexivity.
Qed.

Lemma tf_split_six (a : array A) (k : nat) :
  length (data a) = 6 * k ->
  tf_split a 6 = Ok (map (mkArray Tensor) (chunks k 6 (data a))).
Proof.
  intros E. unfold tf_split. rewrite E, Nat.mul_comm.
  rewrite Nat.Div0.mod_mul, Nat.div_mul by discriminate. reflexivity.
Qed.

Lemma tf_split_refused (a : array A) :
  length (data a) mod 6 <> 0 -> tf_split a 6 = Raise InvalidArgumentError.
Proof.
  intros N. unfold tf_split.
  destruct (Nat.eqb_spec (length (data a) mod 6) 0); [contradiction|reflexivity].
Qed.

End BoxFacts.

Lemma from_vertices_faces {A : Type} `{Scalar A} (v : point3 A) (k : nat) :
  has_size v (6 * k) ->
  exists b : box A,
    Box.from_vertices_of_surface v = Ok b
    /\ length (surface_list b) = 6
    /\ Forall (fun s : surface A =>
                 has_size (vertices s) k /\ cls (vertices s) = Cartesian3_cls)
              (surface_list b)
    /\ flat_points b = points v.
Proof.
  intros Hv. apply has_size_inv in Hv as (Hx & Hy & Hz).
  unfold Box.from_vertices_of_surface.
  rewrite !(tf_split_six _ k) by assumption. cbn [bind].
  assert (Cx := chunks_each k 6 (data (x v)) ltac:(assumption)).
  assert (Cy := chunks_each k 6 (data (y v)) ltac:(assumption)).
  assert (Cz := chunks_each k 6 (data (z v)) ltac:(assumption)).
  assert (L1 : length (chunks k 6 (data (x v))) = length (chunks k 6 (data (y v))))
    by (rewrite !chunks_length; reflexivity).
  assert (L2 : length (chunks k 6 (data (y v))) = length (chunks k 6 (data (z v))))
    by (rewrite !chunks_length; reflexivity).
  destruct (faces_of_chunks (A := A) L1 L2 Cx Cy Cz) as (L & F & P).
  eexists; split; [reflexivity|]. cbn [surface_list].
  split; [rewrite L, chunks_length; reflexivity|].
  split; [exact F|].
  unfold flat_points; cbn [surface_list]. rewrite P.
  apply chunks_triples; assumption.
Qed.

(** X15: [Box.from_vertices_of_surface] cuts a batch of vertices into six faces
    of equal size, in order: a batch of [6 k] points gives six faces of [k]
    points each (four when there are 24), the faces laid end to end are the
    batch again, and a batch whose size is no multiple of 6 is refused
    with TensorFlow's [InvalidArgumentError]. *)
Theorem from_vertices_of_surface_cuts_six_faces :
  forall (A : Type) (SA : Scalar A) (v : point3 A) (n : nat),
    has_size v n ->
    (n mod 6 <> 0 ->
     Box.from_vertices_of_surface v = Raise InvalidArgumentError)
    /\ (forall k, n = 6 * k ->
        exists b : box A,
          Box.from_vertices_of_surface v = Ok b
          /\ length (surface_list b) = 6
          /\ Forall (fun s : surface A =>
                       has_size (vertices s) k
                       /\ cls (vertices s) = Cartesian3_cls)
                    (surface_list b)
          /\ flat_points b = points v).
Proof.
  intros A SA v n Hv. split.
  - intros N. apply has_size_inv in Hv as (Hx & _ & _).
    unfold Box.from_vertices_of_surface.
    rewrite tf_split_refused by congruence. reflexivity.
  - intros k ->. apply from_vertices_faces. exact Hv.
Qed.

Lemma from_vertices_of_surface_cuts_six_faces_witness :
  Box.from_vertices_of_surface (@two_points float32_type _)
  = Raise InvalidArgumentError
  /\ exists b : box float32_type,
       Box.from_vertices_of_surface
         (Cartesian3.__init__ (ndarray [1; 2; 3; 4; 5; 6]%Z)
            (ndarray [1; 2; 3; 4; 5; 6]%Z) (ndarray [1; 2; 3; 4; 5; 6]%Z)) = Ok b
       /\ length (surface_list b) = 6
       /\ Forall (fun s : surface float32_type =>
                    has_size (vertices s) 1 /\ cls (vertices s) = Cartesian3_cls)
                 (surface_list b)
       /\ flat_points b
          = points (Cartesian3.__init__ (ndarray [1; 2; 3; 4; 5; 6]%Z)
                      (ndarray [1; 2; 3; 4; 5; 6]%Z) (ndarray [1; 2; 3; 4; 5; 6]%Z)).
Proof.
  split.
  - destruct (@from_vertices_of_surface_cuts_six_faces float32_type _
                two_points 2 eq_refl) as [Hbad _].
    apply Hbad. discriminate.
  - destruct (@from_vertices_of_surface_cuts_six_faces float32_type _
                (Cartesian3.__init__ (ndarray [1; 2; 3; 4; 5; 6]%Z)
                   (ndarray [1; 2; 3; 4; 5; 6]%Z) (ndarray [1; 2; 3; 4; 5; 6]%Z))
                6 eq_refl) as [_ Hgood].
    apply (Hgood 1). reflexivity.
Defined.

Section VerticesFacts.
Context {A : Type} `{Scalar A}.

Lemma to_tensor_rows (p : point3 A) (k : nat) :
  has_size p k ->
  Cartesian3.to_tensor p
  = Ok (mkMatrix Tensor [data (x p); data (y p); data (z p)]).
Proof.
  intros Hp. apply has_size_inv in Hp as (Hx & Hy & Hz).
  unfold Cartesian3.to_tensor, tf_stack, same_length; simpl.
  rewrite Hx, Hy, Hz, Nat.eqb_refl. reflexivity.
Qed.

Lemma faces_to_tensors (faces : list (surface A)) :
  Forall (fun s : surface A => exists k : nat, has_size (vertices s) k) faces ->
  map_result (fun s : surface A => Cartesian3.to_tensor (vertices s)) faces
  = Ok (map (fun s : surface A =>
               mkMatrix Tensor [data (x (vertices s)); data (y (vertices s));
                                data (z (vertices s))]) faces).
Proof.
  induction 1 as [|s faces [k Hs] _ IH]; simpl; [reflexivity|].
  rewrite (to_tensor_rows Hs), IH. reflexivity.
Qed.

Lemma rows_side_by_side (faces : list (surface A)) (a b c : list A) :
  fold_left (fun acc (m : matrix A) => zip_with (@app A) acc (rows m))
    (map (fun s : surface A =>
            mkMatrix Tensor [data (x (vertices s)); data (y (vertices s));
                             data (z (vertices s))]) faces)
    [a; b; c]
  = [a ++ List.concat (map (fun s : surface A => data (x (vertices s))) faces);
     b ++ List.concat (map (fun s : surface A => data (y (vertices s))) faces);
     c ++ List.concat (map (fun s : surface A => data (z (vertices s))) faces)].
Proof.
  revert a b c; induction faces as [|s faces IH]; intros a b c; simpl.
  - rewrite !app_nil_r. reflexivity.
  - rewrite IH, <- !app_assoc. reflexivity.
Qed.

Lemma faces_triples (faces : list (surface A)) :
  Forall (fun s : surface A => exists k : nat, has_size (vertices s) k) faces ->
  zip_with (fun u vw => (u, fst vw, snd vw))
    (List.concat (map (fun s : surface A => data (x (vertices s))) faces))
    (combine (List.concat (map (fun s : surface A => data (y (vertices s))) faces))
             (List.concat (map (fun s : surface A => data (z (vertices s))) faces)))
  = List.concat (map (fun s : surface A => points (vertices s)) faces).
Proof.
  induction 1 as [|s faces [k Hs] _ IH]; simpl; [reflexivity|].
  apply has_size_inv in Hs as (Hx & Hy & Hz).
  rewrite triples_app by congruence. rewrite IH. reflexivity.
Qed.

Lemma Box_vertices_eq (b : box A) :
  surface_list b <> [] -> faces_well_formed b ->
  Box.vertices b
  = Ok (mkPoint3 Cartesian3_cls
          (mkArray NdArray
             (map float32
                (List.concat (map (fun s : surface A => data (x (vertices s)))
                                  (surface_list b)))))
          (mkArray NdArray
             (map float32
                (List.concat (map (fun s : surface A => data (y (vertices s)))
                                  (surface_list b)))))
          (mkArray NdArray
             (map float32
                (List.concat (map (fun s : surface A => data (z (vertices s)))
                                  (surface_list b)))))).
Proof.
  intros Hne Hwf. unfold Box.vertices. rewrite (faces_to_tensors Hwf).
  cbn [bind]. destruct (surface_list b) as [|s0 faces]; [congruence|].
  unfold tf_concat_axis1. cbn [map].
  assert (Hall : forallb
            (fun m : matrix A =>
               Nat.eqb (length (rows m))
                 (length (rows (mkMatrix Tensor
                    [data (x (vertices s0)); data (y (vertices s0));
                     data (z (vertices s0))]))))
            (map (fun s : surface A =>
                    mkMatrix Tensor [data (x (vertices s)); data (y (vertices s));
                                     data (z (vertices s))]) faces) = true).
  { apply forallb_forall. intros m Hm. apply in_map_iff in Hm as (s & <- & _).
    reflexivity. }
  rewrite Hall. cbn [bind rows]. rewrite rows_side_by_side. reflexivity.
Qed.

Lemma faces_lengths (faces : list (surface A)) :
  Forall (fun s : surface A => exists k : nat, has_size (vertices s) k) faces ->
  let n := length (List.concat (map (fun s : surface A => points (vertices s)) faces)) in
  length (List.concat (map (fun s : surface A => data (x (vertices s))) faces)) = n
  /\ length (List.concat (map (fun s : surface A => data (y (vertices s))) faces)) = n
  /\ length (List.concat (map (fun s : surface A => data (z (vertices s))) faces)) = n.
Proof.
  induction 1 as [|s faces [k Hs] _ IH]; simpl; [auto|].
  rewrite !length_app, (points_length Hs).
  apply has_size_inv in Hs as (Hx & Hy & Hz).
  destruct IH as (E1 & E2 & E3). rewrite E1, E2, E3, Hx, Hy, Hz. auto.
Qed.

Lemma concat_length_const {T : Type} (l : list (list T)) (k : nat) :
  Forall (fun ch => length ch = k) l -> length (List.concat l) = length l * k.
Proof.
  induction 1 as [|ch l E _ IH]; simpl; [reflexivity|].
  rewrite length_app, IH, E. reflexivity.
Qed.

End VerticesFacts.

Lemma Box_vertices_points {A : Type} `{Scalar A} (b : box A) :
  surface_list b <> [] -> faces_well_formed b ->
  exists v : point3 A,
    Box.vertices b = Ok v
    /\ cls v = Cartesian3_cls
    /\ (kind (x v) = NdArray /\ kind (y v) = NdArray /\ kind (z v) = NdArray)
    /\ has_size v (length (flat_points b))
    /\ points v = map cast32 (flat_points b).
Proof.
  intros Hne Hwf. eexists. split; [apply (Box_vertices_eq Hne Hwf)|].
  cbn [cls x y z kind].
  assert (P : points
            (mkPoint3 Cartesian3_cls
               (mkArray NdArray (map float32 (List.concat (map (fun s : surface A => data (x (vertices s))) (surface_list b)))))
               (mkArray NdArray (map float32 (List.concat (map (fun s : surface A => data (y (vertices s))) (surface_list b)))))
               (mkArray NdArray (map float32 (List.concat (map (fun s : surface A => data (z (vertices s))) (surface_list b))))))
            = map cast32 (flat_points b)).
  { unfold points, flat_points; cbn [x y z data].
    rewrite triples_map, (faces_triples Hwf). reflexivity. }
  destruct (faces_lengths Hwf) as (L1 & L2 & L3).
  repeat split; try exact P.
  unfold has_size, size, flat_points; cbn [x y z data].
  rewrite !length_map, L1, L2, L3. reflexivity.
Qed.

(** X16: [Box.vertices] lays the vertices of the faces end to end, face after
    face and in the order of each face, and hands them back as float32
    [ndarray]s: the points of the result are the points of the faces, each
    coordinate cast to float32.  It needs at least one face, and faces
    whose coordinates have one length each. *)
Theorem Box_vertices_flattens_the_faces :
  forall (A : Type) (SA : Scalar A) (b : box A),
    surface_list b <> [] -> faces_well_formed b ->
    exists v : point3 A,
      Box.vertices b = Ok v
      /\ cls v = Cartesian3_cls
      /\ kind (x v) = NdArray /\ kind (y v) = NdArray /\ kind (z v) = NdArray
      /\ has_size v (length (flat_points b))
      /\ points v = map cast32 (flat_points b).
Proof.
  intros A SA b Hne Hwf.
  destruct (Box_vertices_points Hne Hwf) as (v & E & C & (Kx & Ky & Kz) & S & P).
  exists v. auto 10.
Qed.


Lemma cube_well_formed {A : Type} `{Scalar A} :
  Forall (fun s : surface A => has_size (vertices s) 4) (surface_list cube).
Proof. repeat constructor. Qed.

Lemma Box_vertices_flattens_the_faces_witness :
  exists v : point3 float64_type,
    Box.vertices cube = Ok v
    /\ cls v = Cartesian3_cls
    /\ kind (x v) = NdArray /\ kind (y v) = NdArray /\ kind (z v) = NdArray
    /\ has_size v (length (flat_points (@cube float64_type _)))
    /\ points v = map cast32 (flat_points cube).
Proof.
  apply (@Box_vertices_flattens_the_faces float64_type _ cube).
  - discriminate.
  - unfold faces_well_formed. eapply Forall_impl; [|apply cube_well_formed].
    intros s Hs. exists 4. exact Hs.
Defined.

Lemma flat_points_length {A : Type} (b : box A) (k : nat) :
  Forall (fun s : surface A => has_size (vertices s) k) (surface_list b) ->
  length (flat_points b) = length (surface_list b) * k.
Proof.
  intros F. unfold flat_points.
  rewrite (@concat_length_const _ _ k), length_map; [reflexivity|].
  apply Forall_map. revert F. apply Forall_impl.
  intros s Hs. apply (points_length Hs).
Qed.

(** X17: [Box.rotate_ypr] turns a box of six faces of [k] vertices each as one
    rigid body: it returns six faces of [k] vertices again, and their
    vertices, face after face, are the vertices of the old faces, cast to
    float32 by [Box.vertices] and then rotated about X, Y and Z like any
    other batch of points. *)
Theorem Box_rotate_ypr_rotates_every_face :
  forall (A : Type) (SA : Scalar A) (TA : Trig A) (b : box A) (k : nat)
         (a1 a2 a3 : A),
    length (surface_list b) = 6 ->
    Forall (fun s : surface A => has_size (vertices s) k) (surface_list b) ->
    exists b' : box A,
      Box.rotate_ypr b [a1; a2; a3] = Ok b'
      /\ length (surface_list b') = 6
      /\ Forall (fun s : surface A =>
                   has_size (vertices s) k /\ cls (vertices s) = Cartesian3_cls)
                (surface_list b')
      /\ flat_points b'
         = map (fun v => mat_vec (Rz a3) (mat_vec (Ry a2) (mat_vec (Rx a1) (cast32 v))))
               (flat_points b).
Proof.
  intros A SA TA b k a1 a2 a3 H6 Hk.
  assert (Hne : surface_list b <> []) by (intros E; rewrite E in H6; discriminate).
  assert (Hwf : faces_well_formed b).
  { unfold faces_well_formed. revert Hk. apply Forall_impl.
    intros s Hs. exists k. exact Hs. }
  destruct (Box_vertices_points Hne Hwf) as (v & Ev & _ & _ & Sv & Pv).
  rewrite (flat_points_length b Hk), H6 in Sv.
  destruct (rotate_ypr_points a1 a2 a3 Sv) as (v' & Ev' & _ & Sv' & Pv').
  destruct (from_vertices_faces k Sv') as (b' & Eb' & L & F & P).
  exists b'. unfold Box.rotate_ypr. rewrite Ev. cbn [bind]. rewrite Ev'. cbn [bind].
  split; [exact Eb'|]. split; [exact L|]. split; [exact F|].
  rewrite P, Pv', Pv, map_map. reflexivity.
Qed.

Lemma Box_rotate_ypr_rotates_every_face_witness :
  exists b' : box R,
    Box.rotate_ypr cube [1%R; 2%R; 3%R] = Ok b'
    /\ length (surface_list b') = 6
    /\ Forall (fun s : surface R =>
                 has_size (vertices s) 4 /\ cls (vertices s) = Cartesian3_cls)
              (surface_list b')
    /\ flat_points b'
       = map (fun v => mat_vec (Rz 3%R) (mat_vec (Ry 2%R) (mat_vec (Rx 1%R) (cast32 v))))
             (flat_points cube).
Proof.
  apply (@Box_rotate_ypr_rotates_every_face R _ _ cube 4%nat 1%R 2%R 3%R).
  - reflexivity.
  - apply cube_well_formed.
Defined.

(** X18: [Box.move] never returns a box.  It first flattens the faces, and then
    asks the class [Cartesian3] for [from_tuple], which the class does not
    have: a box whose vertices can be flattened raises [AttributeError],
    any other box raises what [Box.vertices] raised. *)
Theorem Box_move_never_returns :
  forall (A : Type) (SA : Scalar A)
         (from_tuple : list A -> result (point3 A))
         (b : box A) (move_vector : list A),
    (exists e : exn, Box.move from_tuple b move_vector = Raise e)
    /\ (forall v, Box.vertices b = Ok v ->
        Box.move from_tuple b move_vector
        = Raise (AttributeError "Cartesian3" "from_tuple"))
    /\ (forall e, Box.vertices b = Raise e ->
        Box.move from_tuple b move_vector = Raise e).
Proof.
  intros A SA from_tuple b mv. unfold Box.move.
  destruct (Box.vertices b) as [v|e]; cbn [bind].
  - split; [eexists; reflexivity|]. split; [reflexivity|]. discriminate.
  - split; [eexists; reflexivity|]. split; [discriminate|].
    intros e' [= <-]. reflexivity.
Qed.

Lemma Box_move_never_returns_witness :
  Box.move (fun _ => Raise TypeError) (@cube float64_type _) [of_Z 1; of_Z 0; of_Z 0]
  = Raise (AttributeError "Cartesian3" "from_tuple").
Proof.
  assert (Hwf : faces_well_formed (@cube float64_type _)).
  { unfold faces_well_formed. eapply Forall_impl; [|apply cube_well_formed].
    intros s Hs. exists 4. exact Hs. }
  destruct (@Box_vertices_points float64_type _ cube ltac:(discriminate) Hwf)
    as (v & Ev & _).
  destruct (@Box_move_never_returns float64_type _ (fun _ => Raise TypeError)
              cube [of_Z 1; of_Z 0; of_Z 0]) as (_ & Hattr & _).
  apply (Hattr v Ev).
Defined.

(** ** More on spherical coordinates *)

Lemma SFadd_zero_square (prec emax : Z) (u : spec_float) :
  SFadd prec emax (S754_zero false) (SFmul prec emax u u) = SFmul prec emax u u.
Proof.
  destruct u as [[]|[]| |s m e]; simpl; try reflexivity.
  replace (xorb s s) with false by (destruct s; reflexivity).
  unfold binary_round_aux.
  destruct (shr_fexp prec emax (Z.pos (m * m)) (e + e) loc_Exact) as [mrs' e'].
  destruct (shr_fexp prec emax _ e' loc_Exact) as [mrs'' e''].
  destruct (shr_m mrs''); simpl; try reflexivity.
  destruct (Z.leb e'' (emax - prec)); reflexivity.
Qed.

Lemma fp_zero_plus_square (prec emax : Z) (u : fp prec emax) :
  add (of_Z 0) (mul u u) = mul u u.
Proof. destruct u as [u]; simpl. f_equal. apply SFadd_zero_square. Qed.

Lemma triples_first {A : Type} (a b c : list A) :
  length a = length b -> length b = length c ->
  map (fun v : A * A * A => fst (fst v))
      (zip_with (fun u vw => (u, fst vw, snd vw)) a (combine b c)) = a.
Proof.
  revert b c; induction a as [|u a IH]; intros [|v b] [|w c]; simpl;
    try discriminate; intros E1 E2; [reflexivity|].
  f_equal. apply IH; congruence.
Qed.

Section RadiusFacts.
Context {A : Type} `{Scalar A} `{Trig A}.
Hypothesis zero_plus_square : forall u : A, add (of_Z 0) (mul u u) = mul u u.

Lemma radius_is_norm (p : point3 A) (n : nat) :
  has_size p n ->
  exists (s : spherical A) (nrm : array A),
    Cartesian3.to_spherical p = Ok s
    /\ Vector.norm (Vector.__init__ (x p) (y p) (z p)) = Ok nrm
    /\ data (r s) = data nrm.
Proof.
  intros Hp. destruct (to_spherical_points Hp) as (s & Es & Ss & Ps).
  pose proof Hp as Hp'. apply has_size_inv in Hp' as (Hx & Hy & Hz).
  exists s. eexists. split; [exact Es|].
  split; [apply (Vector_norm_points (x p) (y p) (z p) Hx Hy Hz)|]. simpl.
  unfold sph_size in Ss. injection Ss as L1 L2 L3.
  rewrite <- (triples_first (data (r s)) (data (theta s)) (data (phi s)))
    by congruence.
  fold (sph_points s). rewrite Ps.
  assert (E : points (Vector.__init__ (x p) (y p) (z p)) = points p)
    by reflexivity.
  rewrite E, map_map. apply map_ext. intros [[a b] c]. simpl.
  rewrite zero_plus_square. reflexivity.
Qed.

End RadiusFacts.

(** X19: The radius [to_spherical] returns is the [Vector.norm] of the same
    coordinates, value for value, although one sum starts from Python's 0
    and the other does not: for every [Vector] in IEEE double precision,
    the format [Vector.__init__] converts its coordinates to (whatever
    [atan2] is there), and for every point in exact arithmetic. *)
Theorem to_spherical_radius_is_the_norm :
  (forall (T : Trig float64_type) (x1 y1 z1 : array float64_type) (n : nat),
     let v := Vector.__init__ x1 y1 z1 in
     has_size v n ->
     exists (s : spherical float64_type) (nrm : array float64_type),
       Cartesian3.to_spherical v = Ok s
       /\ Vector.norm v = Ok nrm
       /\ data (r s) = data nrm)
  /\ (forall (p : point3 R) (n : nat),
        has_size p n ->
        exists (s : spherical R) (nrm : array R),
          Cartesian3.to_spherical p = Ok s
          /\ Vector.norm (Vector.__init__ (x p) (y p) (z p)) = Ok nrm
          /\ data (r s) = data nrm).
Proof.
  split.
  - intros T x1 y1 z1 n v Hv.
    apply (radius_is_norm (@fp_zero_plus_square 53 1024) Hv).
  - intros p n Hp.
    assert (Hz : forall u : R, add (of_Z 0) (mul u u) = mul u u)
      by (intros u; simpl; ring).
    apply (radius_is_norm Hz Hp).
Qed.

Lemma to_spherical_radius_is_the_norm_witness :
  (exists (s : spherical float64_type) (nrm : array float64_type),
     @Cartesian3.to_spherical _ _ small_angle_libm
       (Vector.__init__ (ndarray [10; 20]%Z) (ndarray [30; 40]%Z)
                        (ndarray [50; 60]%Z)) = Ok s
     /\ Vector.norm
          (Vector.__init__ (@ndarray float64_type _ [10; 20]%Z)
                           (ndarray [30; 40]%Z) (ndarray [50; 60]%Z)) = Ok nrm
     /\ data (r s) = data nrm)
  /\ exists (s : spherical R) (nrm : array R),
       Cartesian3.to_spherical two_points = Ok s
       /\ Vector.norm (Vector.__init__ (x two_points) (y two_points) (z two_points))
          = Ok nrm
       /\ data (r s) = data nrm.
Proof.
  destruct to_spherical_radius_is_the_norm as [HF HR]. split.
  - apply (HF small_angle_libm (ndarray [10; 20]%Z) (ndarray [30; 40]%Z)
              (ndarray [50; 60]%Z) 2%nat).
    reflexivity.
  - apply (HR two_points 2%nat). reflexivity.
Defined.

Section AngleRanges.
Local Open Scope R_scope.

Lemma atan_nonneg (t : R) : 0 <= t -> 0 <= atan t.
Proof.
  intros [Ht|E].
  - left. rewrite <- atan_0. apply atan_increasing. exact Ht.
  - rewrite <- E, atan_0. lra.
Qed.

Lemma atan_nonpos (t : R) : t <= 0 -> atan t <= 0.
Proof.
  intros [Ht|E].
  - left. rewrite <- atan_0. apply atan_increasing. exact Ht.
  - rewrite E, atan_0. lra.
Qed.

Lemma R_atan2_range (y0 x0 : R) :
  - PI < R_atan2 y0 x0 <= PI
  /\ (0 <= y0 -> 0 <= R_atan2 y0 x0).
Proof.
  pose proof PI_RGT_0 as Hpi. unfold R_atan2.
  pose proof (atan_bound (y0 / x0)) as [Hl Hu].
  destruct (Rlt_dec 0 x0) as [Hx|Hx].
  - split; [split; lra|]. intros Hy. apply atan_nonneg.
    apply Rmult_le_pos; [exact Hy|]. left. apply Rinv_0_lt_compat. exact Hx.
  - destruct (Rlt_dec x0 0) as [Hn|Hn].
    + assert (Hi : / x0 < 0) by (apply Rinv_lt_0_compat; exact Hn).
      destruct (Rle_dec 0 y0) as [Hy|Hy].
      * assert (atan (y0 / x0) <= 0).
        { apply atan_nonpos. unfold Rdiv. nra. }
        split; [split; lra|]. intros _. lra.
      * assert (0 < atan (y0 / x0)).
        { rewrite <- atan_0. apply atan_increasing. unfold Rdiv. nra. }
        split; [split; lra|]. intros Hy'. lra.
    + destruct (Rlt_dec 0 y0) as [Hy|Hy]; [split; [split; lra|intros; lra]|].
      destruct (Rlt_dec y0 0) as [Hy'|Hy']; (split; [split; lra|intros; lra]).
Qed.

Lemma spherical_of_range (v : R * R * R) :
  let '(r0, t, p) := spherical_of v in
  0 <= r0 /\ (- PI < t /\ t <= PI) /\ (0 <= p /\ p <= PI).
Proof.
  destruct v as [[a b] c]; simpl.
  split; [apply sqrt_pos|]. split.
  - apply R_atan2_range.
  - destruct (R_atan2_range (R_sqrt.sqrt (a * a + b * b)) c) as [[_ Hu] Hl].
    split; [apply Hl, sqrt_pos | exact Hu].
Qed.

End AngleRanges.


(** X20: In exact arithmetic [to_spherical] returns, for every point of the
    batch, a radius that is not negative, an azimuth theta in (-PI, PI] and
    a polar angle phi in [0, PI]. *)
Theorem to_spherical_ranges :
  forall (p : point3 R) (n : nat),
    has_size p n ->
    exists s : spherical R,
      Cartesian3.to_spherical p = Ok s
      /\ sph_size s = (n, n, n)
      /\ Forall in_spherical_range (sph_points s).
Proof.
  intros p n Hp. destruct (to_spherical_points Hp) as (s & Es & Ss & Ps).
  exists s. split; [exact Es|]. split; [exact Ss|].
  rewrite Ps. apply Forall_map. apply Forall_forall. intros v _.
  pose proof (spherical_of_range v) as Hr. unfold in_spherical_range.
  destruct (spherical_of v) as [[r0 t] ph]. exact Hr.
Qed.

Lemma to_spherical_ranges_witness :
  exists s : spherical R,
    Cartesian3.to_spherical two_points = Ok s
    /\ sph_size s = (2, 2, 2)
    /\ Forall in_spherical_range (sph_points s).
Proof. apply (@to_spherical_ranges two_points 2%nat). reflexivity. Defined.

(** ** Segments, point by point *)



Lemma SFadd_comm (prec emax : Z) (u v : spec_float) :
  SFadd prec emax u v = SFadd prec emax v u.
Proof.
  destruct u as [[]|[]| |su mu eu], v as [[]|[]| |sv mv ev]; simpl;
    try reflexivity.
  rewrite (Z.min_comm ev eu), Z.add_comm. reflexivity.
Qed.

Lemma broadcast_ext {A : Type} (op op' : A -> A -> A) (a b : list A) :
  (forall u v, op u v = op' u v) -> broadcast op a b = broadcast op' a b.
Proof.
  intros E. unfold broadcast.
  destruct (Nat.eqb (length a) (length b)).
  - f_equal. revert b; induction a as [|u a IH]; intros [|v b]; simpl;
      try reflexivity. rewrite E, IH. reflexivity.
  - destruct a as [|a0 [|a1 a]]; destruct b as [|b0 [|b1 b]];
      try reflexivity; f_equal; apply map_ext; intros; apply E.
Qed.

Section MiddleFacts.
Context {A : Type} `{Scalar A}.
Hypothesis add_comm : forall u v : A, add u v = add v u.

Lemma np_add_comm (a b : array A) : np_add a b = np_add b a.
Proof.
  unfold np_add, np_ufunc.
  rewrite <- (broadcast_flip add (data b) (data a)).
  rewrite (broadcast_ext (fun u v => add v u) add (data a) (data b))
    by (intros; apply add_comm).
  reflexivity.
Qed.

Lemma middle_point_swap (p q : point3 A) :
  Segment.middle_point (mkSegment p q) = Segment.middle_point (mkSegment q p).
Proof.
  unfold Segment.middle_point, Cartesian3.__add__, Cartesian3.op_zip.
  cbn [fst_pt snd_pt].
  rewrite (np_add_comm (x p) (x q)), (np_add_comm (y p) (y q)),
    (np_add_comm (z p) (z q)).
  destruct (cls p), (cls q); reflexivity.
Qed.

End MiddleFacts.

Section MiddleLaws.
Local Open Scope R_scope.

Lemma sqrt_quarter (t : R) : 0 <= t -> R_sqrt.sqrt t = 2 * R_sqrt.sqrt (t / 4).
Proof.
  intros Ht. replace t with (2 * 2 * (t / 4)) at 1 by field.
  rewrite sqrt_mult by lra. rewrite sqrt_square by lra. reflexivity.
Qed.

Lemma mid3_halves (u v : R * R * R) :
  dist3 (mid3 u v) u = dist3 (mid3 u v) v
  /\ dist3 u v = 2 * dist3 (mid3 u v) u.
Proof.
  destruct u as [[a b] c], v as [[a' b'] c']; simpl.
  set (ss := (a - a') * (a - a') + (b - b') * (b - b') + (c - c') * (c - c')).
  assert (HS : 0 <= ss) by (unfold ss; pose proof (Rle_0_sqr (a - a')); pose proof (Rle_0_sqr (b - b')); pose proof (Rle_0_sqr (c - c')); unfold Rsqr in *; lra).
  replace (((a + a') / 2 - a) * ((a + a') / 2 - a)
           + ((b + b') / 2 - b) * ((b + b') / 2 - b)
           + ((c + c') / 2 - c) * ((c + c') / 2 - c)) with (ss / 4)
    by (unfold ss; field).
  replace (((a + a') / 2 - a') * ((a + a') / 2 - a')
           + ((b + b') / 2 - b') * ((b + b') / 2 - b')
           + ((c + c') / 2 - c') * ((c + c') / 2 - c')) with (ss / 4)
    by (unfold ss; field).
  split; [reflexivity | apply sqrt_quarter; exact HS].
Qed.

Lemma zip_mid3_halves (P Q : list (R * R * R)) :
  zip_with dist3 (zip_with mid3 P Q) P = zip_with dist3 (zip_with mid3 P Q) Q
  /\ zip_with dist3 P Q
     = map (fun d => 2 * d) (zip_with dist3 (zip_with mid3 P Q) P).
Proof.
  revert Q; induction P as [|u P IH]; intros [|v Q]; simpl; try (split; reflexivity).
  destruct (IH Q) as [E1 E2]. destruct (mid3_halves u v) as [F1 F2].
  rewrite E1, F1. split; [reflexivity|]. rewrite E2, E1, F2, F1. reflexivity.
Qed.

End MiddleLaws.

(** X21: The middle point of a segment does not depend on the order of the end
    points, in every binary floating-point format and in exact arithmetic;
    the two calls agree also when they raise. *)
Theorem middle_point_is_symmetric :
  (forall (prec emax : Z) (p q : point3 (fp prec emax)),
     Segment.middle_point (mkSegment p q) = Segment.middle_point (mkSegment q p))
  /\ (forall p q : point3 R,
        Segment.middle_point (mkSegment p q)
        = Segment.middle_point (mkSegment q p)).
Proof.
  split; intros.
  - apply middle_point_swap. intros [u] [v]; simpl. f_equal. apply SFadd_comm.
  - apply middle_point_swap. intros u v; simpl. ring.
Qed.

(** X22: In exact arithmetic the middle point halves the segment: it is as far
    from the first end point as from the second, and the length of the
    segment is twice that distance, point by point. *)
Theorem middle_point_halves_the_segment :
  forall (p q : point3 R) (n : nat),
    has_size p n -> has_size q n ->
    exists (m : point3 R) (d1 d2 len : array R),
      Segment.middle_point (mkSegment p q) = Ok m
      /\ has_size m n
      /\ Cartesian3.distance_to m p = Ok d1
      /\ Cartesian3.distance_to m q = Ok d2
      /\ Segment.seg_length (mkSegment p q) = Ok len
      /\ data d1 = data d2
      /\ data len = map (fun d => (2 * d)%R) (data d1).
Proof.
  intros p q n Hp Hq.
  destruct (middle_point_points Hp Hq) as (m & Em & _ & Sm & Pm).
  exists m. do 3 eexists.
  split; [exact Em|]. split; [exact Sm|].
  split; [apply (distance_to_points Sm Hp)|].
  split; [apply (distance_to_points Sm Hq)|].
  split; [apply (distance_to_points Hp Hq)|].
  cbn [data]. rewrite Pm.
  destruct (zip_mid3_halves (points p) (points q)) as [E1 E2].
  split; [exact E1 | exact E2].
Qed.

Lemma middle_point_halves_the_segment_witness :
  exists (m : point3 R) (d1 d2 len : array R),
    Segment.middle_point (mkSegment two_points other_two_points) = Ok m
    /\ has_size m 2
    /\ Cartesian3.distance_to m two_points = Ok d1
    /\ Cartesian3.distance_to m other_two_points = Ok d2
    /\ Segment.seg_length (mkSegment two_points other_two_points) = Ok len
    /\ data d1 = data d2
    /\ data len = map (fun d => (2 * d)%R) (data d1).
Proof.
  apply (@middle_point_halves_the_segment two_points other_two_points 2%nat);
    reflexivity.
Defined.

Section DirectionLaws.
Local Open Scope R_scope.

Lemma dir3_swap (u v : R * R * R) :
  dir3 v u = (let '(a, b, c) := dir3 u v in (- a, - b, - c)).
Proof.
  destruct u as [[a b] c], v as [[a' b'] c']; simpl.
  replace ((a' - a) * (a' - a) + (b' - b) * (b' - b) + (c' - c) * (c' - c))
    with ((a - a') * (a - a') + (b - b') * (b - b') + (c - c') * (c - c'))
    by ring.
  unfold Rdiv. f_equal; [f_equal|]; ring.
Qed.

Lemma dir3_unit (u v : R * R * R) : u <> v -> norm3 (dir3 u v) = 1.
Proof.
  destruct u as [[a b] c], v as [[a' b'] c']. intros N.
  change (dir3 (a, b, c) (a', b', c')) with (unit3 (a - a', b - b', c - c')).
  apply norm3_unit3. intros E. injection E as E1 E2 E3.
  apply N. f_equal; [f_equal|]; lra.
Qed.

Lemma zip_dir3_laws (P Q : list (R * R * R)) :
  zip_with dir3 Q P
  = map (fun w : R * R * R => let '(a, b, c) := w in (- a, - b, - c))
        (zip_with dir3 P Q).
Proof.
  revert Q; induction P as [|u P IH]; intros [|v Q]; simpl; try reflexivity.
  rewrite IH, dir3_swap. reflexivity.
Qed.

End DirectionLaws.

(** X23: In exact arithmetic [direct_vector] is the unit vector from the second
    end point to the first: exchanging the end points negates it, and where
    the two end points differ it has norm 1.  It is a plain [Cartesian3] of
    the size of the end points. *)
Theorem direct_vector_is_a_unit_vector :
  forall (p q : point3 R) (n : nat),
    has_size p n -> has_size q n ->
    exists d d' : point3 R,
      Segment.direct_vector (mkSegment p q) = Ok d
      /\ Segment.direct_vector (mkSegment q p) = Ok d'
      /\ cls d = Cartesian3_cls /\ has_size d n
      /\ points d'
         = map (fun w : R * R * R => let '(a, b, c) := w in (- a, - b, - c)%R)
               (points d)
      /\ (Forall (fun uv : (R * R * R) * (R * R * R) => fst uv <> snd uv)
                 (combine (points p) (points q)) ->
          map norm3 (points d) = repeat 1%R n).
Proof.
  intros p q n Hp Hq.
  destruct (direct_vector_points Hp Hq) as (d & Ed & Cd & Sd & Pd).
  destruct (direct_vector_points Hq Hp) as (d' & Ed' & _ & _ & Pd').
  exists d, d'. repeat split; try assumption.
  - rewrite Pd', Pd. apply zip_dir3_laws.
  - intros Hne. rewrite Pd.
    pose proof (points_length Hp) as Lp. pose proof (points_length Hq) as Lq.
    rewrite <- Lp. clear - Hne Lp Lq.
    revert Hne Lq. rewrite <- Lp. clear Lp.
    generalize (points q) as Q. induction (points p) as [|u P IH];
      intros [|v Q] Hne Lq; simpl in *; try discriminate; [reflexivity|].
    inversion Hne as [|? ? Huv Hne']; subst.
    rewrite dir3_unit by exact Huv. f_equal. apply IH; [exact Hne'|congruence].
Qed.

Lemma direct_vector_is_a_unit_vector_witness :
  exists d d' : point3 R,
    Segment.direct_vector (mkSegment one_point unit_x_point) = Ok d
    /\ Segment.direct_vector (mkSegment unit_x_point one_point) = Ok d'
    /\ cls d = Cartesian3_cls /\ has_size d 1
    /\ points d'
       = map (fun w : R * R * R => let '(a, b, c) := w in (- a, - b, - c)%R)
             (points d)
    /\ map norm3 (points d) = repeat 1%R 1.
Proof.
  destruct (@direct_vector_is_a_unit_vector one_point unit_x_point 1%nat
              eq_refl eq_refl) as (d & d' & E & E' & C & S & P & N).
  exists d, d'. repeat split; try assumption.
  apply N. constructor; [|constructor]. simpl. intros Q. injection Q. lra.
Defined.

(** ** Scaling, matrices and rows *)

(** X24: [p * k] keeps the class of [p] (a [Vector] stays a [Vector]) while
    [p / k] always returns a plain [Cartesian3]; in exact arithmetic,
    multiplying by a number that is not 0 and dividing by it again gives
    the coordinates back. *)
Theorem scaling_and_dividing :
  forall (p : point3 R) (k : R),
    k <> 0%R ->
    exists m q : point3 R,
      Cartesian3.__mul__ p (Num k) = Ok m
      /\ cls m = cls p
      /\ Cartesian3.__truediv__ m (Num k) = Ok q
      /\ cls q = Cartesian3_cls
      /\ data (x q) = data (x p) /\ data (y q) = data (y p)
      /\ data (z q) = data (z p).
Proof.
  intros [c [kx lx] [ky ly] [kz lz]] k Hk.
  assert (E : forall l : list R,
            map (fun u => div u k) (map (fun u => mul u k) l) = l).
  { intros l. rewrite map_map. rewrite <- (map_id l) at 2. apply map_ext.
    intros u. simpl. field. exact Hk. }
  unfold Cartesian3.__mul__, Cartesian3.fmap, Cartesian3.np_multiply.
  cbn [x y z cls data bind].
  destruct c; cbn [Cartesian3.construct];
    (eexists; eexists; split; [reflexivity|]; split; [reflexivity|];
     split; [reflexivity|]; split; [reflexivity|];
     cbn [x y z data Cartesian3.__init__ Cartesian3.Vector__init__];
     unfold tf_constant; cbn [data]; rewrite !E; auto).
Qed.

Lemma scaling_and_dividing_witness :
  exists m q : point3 R,
    Cartesian3.__mul__ two_points (Num 3%R) = Ok m
    /\ cls m = cls (@two_points R _)
    /\ Cartesian3.__truediv__ m (Num 3%R) = Ok q
    /\ cls q = Cartesian3_cls
    /\ data (x q) = data (x (@two_points R _))
    /\ data (y q) = data (y (@two_points R _))
    /\ data (z q) = data (z (@two_points R _)).
Proof. apply (@scaling_and_dividing two_points 3%R). lra. Defined.


Lemma column_data_rows {A : Type} (pts : list (A * A * A)) :
  column_data (map row_of pts) 0 = Ok (map (fun v => fst (fst v)) pts)
  /\ column_data (map row_of pts) 1 = Ok (map (fun v => snd (fst v)) pts)
  /\ column_data (map row_of pts) 2 = Ok (map (fun v => snd v) pts).
Proof.
  induction pts as [|[[a b] c] pts (E0 & E1 & E2)]; simpl; [auto|].
  unfold getitem; simpl. rewrite E0, E1, E2. auto.
Qed.

Lemma triples_of_projections {A : Type} (pts : list (A * A * A)) :
  zip_with (fun u vw => (u, fst vw, snd vw)) (map (fun v => fst (fst v)) pts)
    (combine (map (fun v => snd (fst v)) pts) (map (fun v => snd v) pts))
  = pts.
Proof.
  induction pts as [|[[a b] c] pts IH]; simpl; [reflexivity|].
  rewrite IH. reflexivity.
Qed.

(** X25: [from_tuple3s] reads an N x 3 [ndarray] row by row: row [i] is point
    [i] of the result, which is a [Cartesian3] of N points holding the
    columns as they are.  A Python list of rows is refused with
    [TypeError], and an array with only two columns (and at least one row)
    raises [IndexError]. *)
Theorem from_tuple3s_reads_rows_as_points :
  forall (A : Type) (SA : Scalar A) (pts : list (A * A * A)),
    (exists p : point3 A,
       Cartesian3.from_tuple3s (mkMatrix NdArray (map row_of pts)) = Ok p
       /\ cls p = Cartesian3_cls
       /\ has_size p (length pts)
       /\ kind (x p) = NdArray /\ kind (y p) = NdArray /\ kind (z p) = NdArray
       /\ points p = pts)
    /\ Cartesian3.from_tuple3s (mkMatrix PyList (map row_of pts)) = Raise TypeError
    /\ (forall pairs : list (A * A),
          pairs <> [] ->
          Cartesian3.from_tuple3s (mkMatrix NdArray (map short_row_of pairs))
          = Raise IndexError).
Proof.
  intros A SA pts. destruct (column_data_rows pts) as (E0 & E1 & E2).
  split; [|split].
  - unfold Cartesian3.from_tuple3s, column; cbn [mkind rows].
    rewrite E0, E1, E2. cbn [bind]. rewrite from_xyz_eq.
    eexists; split; [reflexivity|]. cbn [cls x y z kind].
    unfold _convert_type_if_not_nparray, is_ndarray; cbn [kind negb].
    repeat split.
    + unfold has_size, size; cbn [x y z data]. rewrite !length_map. reflexivity.
    + unfold points; cbn [x y z data]. apply triples_of_projections.
  - reflexivity.
  - intros pairs Hne. unfold Cartesian3.from_tuple3s, column; cbn [mkind rows].
    assert (F : forall l : list (A * A),
              column_data (map short_row_of l) 0 = Ok (map fst l)
              /\ column_data (map short_row_of l) 1 = Ok (map snd l)).
    { induction l as [|[a b] l (F0 & F1)]; simpl; [auto|].
      unfold getitem; simpl. rewrite F0, F1. auto. }
    destruct (F pairs) as (F0 & F1). rewrite F0, F1. cbn [bind].
    destruct pairs as [|[a b] pairs]; [congruence|]. reflexivity.
Qed.

Lemma from_tuple3s_reads_rows_as_points_witness :
  Cartesian3.from_tuple3s
    (mkMatrix NdArray (map short_row_of [(@of_Z float32_type _ 1, of_Z 2)]))
  = Raise IndexError.
Proof.
  destruct (@from_tuple3s_reads_rows_as_points float32_type _ [])
    as (_ & _ & Hshort).
  apply Hshort. discriminate.
Defined.

(** X26: Stacking a batch into a 3 x N matrix and reading the matrix back gives
    the same points, as float32 [ndarray]s: [from_matrix(p.to_matrix())]
    is [p] with every coordinate cast to float32, and a plain
    [Cartesian3].  A batch whose coordinates differ in length cannot be
    stacked: [to_matrix] raises [InvalidArgumentError]. *)
Theorem to_matrix_from_matrix_round_trip :
  forall (A : Type) (SA : Scalar A) (p : point3 A),
    (forall n, has_size p n ->
       exists p' : point3 A,
         (m <- Cartesian3.to_matrix p ;; Cartesian3.from_matrix m) = Ok p'
         /\ cls p' = Cartesian3_cls
         /\ has_size p' n
         /\ kind (x p') = NdArray /\ kind (y p') = NdArray /\ kind (z p') = NdArray
         /\ points p' = map cast32 (points p))
    /\ ((forall n, ~ has_size p n) ->
        Cartesian3.to_matrix p = Raise InvalidArgumentError).
Proof.
  intros A SA p. split.
  - intros n Hp. apply has_size_inv in Hp as (Hx & Hy & Hz).
    unfold Cartesian3.to_matrix, tf_stack, same_length. cbn [forallb].
    rewrite Hx, Hy, Hz, Nat.eqb_refl. cbn [andb bind map].
    unfold Cartesian3.from_matrix, row, getitem; cbn [rows mkind nth_error bind].
    rewrite from_xyz_eq.
    eexists; split; [reflexivity|]. cbn [cls x y z].
    unfold _convert_type_if_not_nparray, is_ndarray; cbn [kind negb data].
    repeat split.
    + unfold has_size, size; cbn [x y z data]. rewrite !length_map. congruence.
    + unfold points; cbn [x y z data]. apply triples_map.
  - intros Hr. unfold Cartesian3.to_matrix, tf_stack, same_length. cbn [forallb].
    destruct (Nat.eqb_spec (length (data (y p))) (length (data (x p)))) as [Ey|Ny];
      [|reflexivity].
    destruct (Nat.eqb_spec (length (data (z p))) (length (data (x p)))) as [Ez|Nz];
      [|reflexivity].
    exfalso. apply (Hr (length (data (x p)))).
    unfold has_size, size. rewrite Ey, Ez. reflexivity.
Qed.

Lemma to_matrix_from_matrix_round_trip_witness :
  (exists p' : point3 float64_type,
     (m <- Cartesian3.to_matrix two_points ;; Cartesian3.from_matrix m) = Ok p'
     /\ cls p' = Cartesian3_cls
     /\ has_size p' 2
     /\ kind (x p') = NdArray /\ kind (y p') = NdArray /\ kind (z p') = NdArray
     /\ points p' = map cast32 (points two_points))
  /\ Cartesian3.to_matrix
       (Cartesian3.__init__ (@ndarray float64_type _ [1%Z]) (ndarray [1%Z; 2%Z])
                            (ndarray [1%Z]))
     = Raise InvalidArgumentError.
Proof.
  split.
  - destruct (@to_matrix_from_matrix_round_trip float64_type _ two_points)
      as [Hok _].
    apply (Hok 2%nat). reflexivity.
  - destruct (@to_matrix_from_matrix_round_trip float64_type _
                (Cartesian3.__init__ (ndarray [1%Z]) (ndarray [1%Z; 2%Z])
                                     (ndarray [1%Z]))) as [_ Hbad].
    apply Hbad. intros n Hn. unfold has_size, size in Hn. simpl in Hn. congruence.
Defined.

(** ** Composition of translations, and the product of vectors *)

(** X6: In exact arithmetic two translations compose into the translation by
    the sum of the two offsets, so moving by an offset and then by its
    opposite brings every point back. *)
Theorem move_twice_adds_the_offsets :
  forall (p : point3 R) (a b c a' b' c' : R),
    is_pylist (x p) = false -> is_pylist (y p) = false ->
    is_pylist (z p) = false ->
    (m <- Cartesian3.move p [a; b; c] ;; Cartesian3.move m [a'; b'; c'])
    = Cartesian3.move p [(a + a')%R; (b + b')%R; (c + c')%R]
    /\ exists q : point3 R,
         (m <- Cartesian3.move p [a; b; c] ;;
          Cartesian3.move m [(- a)%R; (- b)%R; (- c)%R]) = Ok q
         /\ data (x q) = data (x p) /\ data (y q) = data (y p)
         /\ data (z q) = data (z p).
Proof.
  intros [k [kx lx] [ky ly] [kz lz]] a b c a' b' c'; unfold is_pylist; simpl.
  intros Hx Hy Hz.
  assert (E : forall (l : list R) (u v : R),
            map (fun t => add t v) (map (fun t => add t u) l)
            = map (fun t => add t (u + v)%R) l).
  { intros l u v. rewrite map_map. apply map_ext. intros t. simpl. ring. }
  assert (E0 : forall (l : list R) (u : R),
            map (fun t => add t (- u)%R) (map (fun t => add t u) l) = l).
  { intros l u. rewrite map_map. rewrite <- (map_id l) at 2. apply map_ext.
    intros t. simpl. ring. }
  unfold Cartesian3.move, py_scalar, getitem; simpl.
  destruct kx, ky, kz; try discriminate; simpl; rewrite !E;
    (split; [reflexivity|]); eexists; (split; [reflexivity|]); simpl;
    rewrite <- !E, !E0; auto.
Qed.

Lemma move_twice_adds_the_offsets_witness :
  (m <- Cartesian3.move (@two_points R _) [1%R; 2%R; 3%R] ;;
   Cartesian3.move m [4%R; 5%R; 6%R])
  = Cartesian3.move two_points [(1 + 4)%R; (2 + 5)%R; (3 + 6)%R].
Proof.
  apply (@move_twice_adds_the_offsets two_points 1%R 2%R 3%R 4%R 5%R 6%R);
    reflexivity.
Defined.

Lemma SFmul_comm (prec emax : Z) (u v : spec_float) :
  SFmul prec emax u v = SFmul prec emax v u.
Proof.
  destruct u as [su|su| |su mu eu], v as [sv|sv| |sv mv ev]; simpl;
    try reflexivity; try (rewrite (xorb_comm su sv); reflexivity).
  rewrite (xorb_comm su sv), (Pos.mul_comm mu mv), (Z.add_comm eu ev).
  reflexivity.
Qed.

Section DotFacts.
Context {A : Type} `{Scalar A}.
Hypothesis mul_comm : forall u v : A, mul u v = mul v u.

Lemma tf_mul_comm (a b : array A) : tf_binary mul a b = tf_binary mul b a.
Proof.
  unfold tf_binary.
  rewrite <- (broadcast_flip mul (data b) (data a)).
  rewrite (broadcast_ext (fun u v => mul v u) mul (data a) (data b))
    by (intros; apply mul_comm).
  reflexivity.
Qed.

Lemma Vector_dot_swap (vx vy vz wx wy wz : array A) :
  Vector.dot (Vector.__init__ vx vy vz) (Vector.__init__ wx wy wz)
  = Vector.dot (Vector.__init__ wx wy wz) (Vector.__init__ vx vy vz).
Proof.
  unfold Vector.dot. cbn [x y z Vector.__init__ Cartesian3.Vector__init__].
  rewrite !py_binary_tensor_l by reflexivity.
  rewrite (tf_mul_comm (tf_constant vx)), (tf_mul_comm (tf_constant vy)),
    (tf_mul_comm (tf_constant vz)).
  reflexivity.
Qed.

End DotFacts.

(** X11: [Vector.dot] does not depend on the order of its operands: [v.dot(w)]
    and [w.dot(v)] are the same result, value for value in every binary
    floating-point format and in exact arithmetic, and the same exception
    when the shapes do not fit. *)
Theorem Vector_dot_commutes :
  (forall (prec emax : Z) (vx vy vz wx wy wz : array (fp prec emax)),
     Vector.dot (Vector.__init__ vx vy vz) (Vector.__init__ wx wy wz)
     = Vector.dot (Vector.__init__ wx wy wz) (Vector.__init__ vx vy vz))
  /\ (forall vx vy vz wx wy wz : array R,
        Vector.dot (Vector.__init__ vx vy vz) (Vector.__init__ wx wy wz)
        = Vector.dot (Vector.__init__ wx wy wz) (Vector.__init__ vx vy vz)).
Proof.
  split; intros.
  - apply Vector_dot_swap. intros [u] [v]; simpl. f_equal. apply SFmul_comm.
  - apply Vector_dot_swap. intros u v; simpl. ring.
Qed.

(** ** Surfaces *)

Lemma rotation_keeps_norm (a b c : R) (v : R * R * R) :
  norm3 (mat_vec (Rz c) (mat_vec (Ry b) (mat_vec (Rx a) v))) = norm3 v.
Proof.
  rewrite !norm3_inner3, Rz_isometry, Ry_isometry, Rx_isometry. reflexivity.
Qed.

(** X27: In exact arithmetic a rectangle made by [Surface.from_xy_size] and turned
    by [Surface.rotate_ypr] still has its four vertices, and each of them
    stays at half the diagonal, sqrt((w/2)^2 + (h/2)^2), from the origin:
    the rectangle is centred on the origin and is turned about it. *)
Theorem rotated_rectangle_keeps_its_corners :
  forall (w h a b c : R),
    exists s : surface R,
      Surface.rotate_ypr (Surface.from_xy_size w h) [a; b; c] = Ok s
      /\ cls (vertices s) = Cartesian3_cls
      /\ has_size (vertices s) 4
      /\ map norm3 (points (vertices s))
         = repeat (R_sqrt.sqrt (w / 2 * (w / 2) + h / 2 * (h / 2)))%R 4.
Proof.
  intros w h a b c.
  assert (S0 : has_size (vertices (Surface.from_xy_size w h)) 4) by reflexivity.
  destruct (rotate_ypr_points a b c S0) as (p' & E & C & S & P).
  exists (mkSurface p'). unfold Surface.rotate_ypr. rewrite E. cbn [bind vertices].
  repeat split; try assumption.
  rewrite P, map_map.
  rewrite (map_ext _ norm3 (fun v => rotation_keeps_norm a b c v)).
  simpl.
  do 4 (apply (f_equal2 cons); [apply (f_equal R_sqrt.sqrt); field|]).
  reflexivity.
Qed.
